(** * Trading dashboard core: indicators, swing extraction, setup detection, risk

    A shallow embedding of the numeric core of the dashboard
    ([technical-indicators.js], [pattern-recognition.js],
    [trade-setup-detector.js], [risk-calculator.js]) together with the
    properties its specification states about it.

    Numbers.  A JavaScript number is modelled by [num]: an exact rational,
    one of the two infinities, or NaN.  Arithmetic follows IEEE-754 on the
    special values (division by zero, [Infinity - Infinity], comparisons with
    NaN) and is exact on finite values: rounding to binary64 is not modelled,
    and zero is unsigned (it behaves as [+0]).  An object field that may be
    missing is an [option]: [None] is [undefined]. *)

From Stdlib Require Import String Ascii.
From Stdlib Require Import QArith Qabs Qround Lqa ZArith List Bool Lia.
From Stdlib Require Import Sorting.Sorted Sorting.Permutation.
Import ListNotations.

Close Scope Q_scope.
Close Scope Z_scope.
Close Scope N_scope.
Open Scope nat_scope.

Set Implicit Arguments.

(* ================================================================== *)
(** ** JavaScript numbers *)
(* ================================================================== *)

Module Num.

Local Open Scope Q_scope.

Inductive num : Type :=
| Fin (q : Q)
| PInf
| NInf
| NaN.

Definition zero : num := Fin 0.

(** Unary minus. *)
Definition neg (x : num) : num :=
  match x with
  | Fin a => Fin (- a)
  | PInf => NInf
  | NInf => PInf
  | NaN => NaN
  end.

(** [x + y] *)
Definition add (x y : num) : num :=
  match x, y with
  | NaN, _ | _, NaN => NaN
  | Fin a, Fin b => Fin (a + b)
  | PInf, NInf | NInf, PInf => NaN
  | PInf, _ | _, PInf => PInf
  | NInf, _ | _, NInf => NInf
  end.

(** [x - y] *)
Definition sub (x y : num) : num := add x (neg y).

(** An infinity times a finite factor: the sign follows the factor, and
    [Infinity * 0] is NaN. *)
Definition inf_times (positive : bool) (a : Q) : num :=
  match a ?= 0 with
  | Eq => NaN
  | Gt => if positive then PInf else NInf
  | Lt => if positive then NInf else PInf
  end.

(** [x * y] *)
Definition mul (x y : num) : num :=
  match x, y with
  | NaN, _ | _, NaN => NaN
  | Fin a, Fin b => Fin (a * b)
  | Fin a, PInf | PInf, Fin a => inf_times true a
  | Fin a, NInf | NInf, Fin a => inf_times false a
  | PInf, PInf | NInf, NInf => PInf
  | PInf, NInf | NInf, PInf => NInf
  end.

(** [x / y]: a finite value over zero is an infinity of its sign, [0 / 0]
    and [Infinity / Infinity] are NaN. *)
Definition div (x y : num) : num :=
  match x, y with
  | NaN, _ | _, NaN => NaN
  | Fin a, Fin b =>
      if Qeq_bool b 0
      then match a ?= 0 with Eq => NaN | Gt => PInf | Lt => NInf end
      else Fin (a / b)
  | Fin _, PInf | Fin _, NInf => Fin 0
  | PInf, Fin b => if Qle_bool 0 b then PInf else NInf
  | NInf, Fin b => if Qle_bool 0 b then NInf else PInf
  | _, _ => NaN
  end.

(** Three-way comparison; [None] when an operand is NaN. *)
Definition compare (x y : num) : option comparison :=
  match x, y with
  | NaN, _ | _, NaN => None
  | Fin a, Fin b => Some (a ?= b)
  | NInf, NInf | PInf, PInf => Some Eq
  | NInf, _ | _, PInf => Some Lt
  | _, NInf | PInf, _ => Some Gt
  end.

(** [x < y], [x <= y], [x > y], [x >= y], [x === y], [x !== y] *)
Definition ltb (x y : num) : bool :=
  match compare x y with Some Lt => true | _ => false end.
Definition leb (x y : num) : bool :=
  match compare x y with Some Lt | Some Eq => true | _ => false end.
Definition gtb (x y : num) : bool := ltb y x.
Definition geb (x y : num) : bool := leb y x.
Definition eqb (x y : num) : bool :=
  match compare x y with Some Eq => true | _ => false end.

(** [Math.abs], [Math.min], [Math.max], [Math.ceil] *)
Definition abs (x : num) : num :=
  match x with
  | Fin a => Fin (Qabs a)
  | PInf | NInf => PInf
  | NaN => NaN
  end.

Definition min (x y : num) : num :=
  match compare x y with
  | None => NaN
  | Some Gt => y
  | Some _ => x
  end.

Definition max (x y : num) : num :=
  match compare x y with
  | None => NaN
  | Some Lt => y
  | Some _ => x
  end.

Definition ceil (x : num) : num :=
  match x with
  | Fin a => Fin (inject_Z (Qceiling a))
  | _ => x
  end.

(** [Math.max(...xs)] and [Math.min(...xs)]: the empty spread gives
    [-Infinity] and [Infinity]. *)
Definition max_list (xs : list num) : num := fold_left max xs NInf.
Definition min_list (xs : list num) : num := fold_left min xs PInf.

(** Truthiness of a number: [0] and [NaN] are falsy. *)
Definition truthy (x : num) : bool :=
  match x with
  | Fin a => negb (Qeq_bool a 0)
  | PInf | NInf => true
  | NaN => false
  end.

(** A possibly missing numeric field.  [to_num] is the implicit conversion
    of a comparison or an arithmetic operator ([undefined] becomes NaN). *)
Definition to_num (v : option num) : num :=
  match v with Some x => x | None => NaN end.

Definition truthy_opt (v : option num) : bool :=
  match v with Some x => truthy x | None => false end.

(** [v || d] for a possibly missing number [v] and a number [d]. *)
Definition or_else (v : option num) (d : num) : num :=
  match v with
  | Some x => if truthy x then x else d
  | None => d
  end.

(** [x || d] on numbers. *)
Definition or_num (x d : num) : num := if truthy x then x else d.

(** The sign a comparator hands to [Array.prototype.sort]: NaN counts as 0. *)
Definition sign (x : num) : comparison :=
  match compare x zero with Some c => c | None => Eq end.

Definition is_finite (x : num) : Prop :=
  match x with Fin _ => True | _ => False end.

(** Equality of numbers as values: rationals up to [Qeq]. *)
Definition equiv (x y : num) : Prop :=
  match x, y with
  | Fin a, Fin b => a == b
  | PInf, PInf | NInf, NInf | NaN, NaN => True
  | _, _ => False
  end.

End Num.

Export Num.

Declare Scope num_scope.
Delimit Scope num_scope with num.
Bind Scope num_scope with num.
Infix "+" := add : num_scope.
Infix "-" := sub : num_scope.
Infix "*" := mul : num_scope.
Infix "/" := div : num_scope.
Notation "- x" := (neg x) : num_scope.
Infix "<?" := ltb (at level 70) : num_scope.
Infix "<=?" := leb (at level 70) : num_scope.
Infix ">?" := gtb (at level 70) : num_scope.
Infix ">=?" := geb (at level 70) : num_scope.
Infix "===" := eqb (at level 70) : num_scope.
Infix "≈" := equiv (at level 70) : num_scope.

(** Decimal literals of the source. *)
Coercion Fin : Q >-> num.

(** JavaScript's [for (let i = lo; i < hi; i++)] over an accumulator. *)
Definition for_range {A : Type} (lo hi : nat) (body : nat -> A -> A) (acc : A) : A :=
  fold_left (fun acc i => body i acc) (seq lo (hi - lo)) acc.

(** [xs.slice(-n)]: the last [n] elements (all of them when there are fewer). *)
Definition slice_last {A : Type} (n : nat) (xs : list A) : list A :=
  skipn (length xs - n) xs.

(** [xs.slice(lo, hi)] for indices within [0 .. ] (both already non-negative). *)
Definition slice {A : Type} (lo hi : nat) (xs : list A) : list A :=
  firstn (hi - lo) (skipn lo xs).

(** [xs[xs.length - 1]], [undefined] on the empty array. *)
Definition last_opt {A : Type} (xs : list A) : option A :=
  nth_error xs (length xs - 1).

(** [Array.prototype.sort(cmp)]: a stable sort that places [a] before [b]
    unless the comparator is positive on [(a, b)].  The engine's algorithm is
    not fixed by the language, its result on a consistent comparator is; the
    model is insertion from the right, which is stable. *)
Section ArraySort.
Variable A : Type.
Variable cmp : A -> A -> num.

Fixpoint sort_insert (x : A) (xs : list A) : list A :=
  match xs with
  | [] => [x]
  | y :: ys =>
      match sign (cmp x y) with
      | Gt => y :: sort_insert x ys
      | _ => x :: y :: ys
      end
  end.

Definition array_sort (xs : list A) : list A :=
  fold_right sort_insert [] xs.

End ArraySort.

(* ================================================================== *)
(** ** Data model *)
(* ================================================================== *)

Open Scope string_scope.
Open Scope list_scope.

(** An OHLCV candle. *)
Record Candle : Type := mkCandle {
  c_timestamp : Z;
  c_open : num;
  c_high : num;
  c_low : num;
  c_close : num;
  c_volume : num
}.

(** One snapshot of [calculateAll]: [timestamp] and [price] are always set,
    every other property exists only when its guard in the loop held. *)
Record Indicator : Type := mkIndicator {
  timestamp : Z;
  price : num;
  ema9 : option num;
  ema20 : option num;
  ema50 : option num;
  sma20 : option num;
  sma50 : option num;
  sma200 : option num;
  rsi : option num;
  macd : option num;
  macdSignal : option num;
  macdHistogram : option num;
  bollingerUpper : option num;
  bollingerMiddle : option num;
  bollingerLower : option num;
  bollingerBand : option num;
  stochK : option num;
  stochD : option num;
  adx : option num;
  atr : option num;
  volumeRatio : option num;
  volumeMA : option num;
  obv : option num
}.

(** A detected chart pattern, with the properties the setup detector reads. *)
Record Pattern : Type := mkPattern {
  p_type : string;
  p_direction : string;
  p_confidence : num;
  p_level : option num;
  p_target : option num;
  p_timestamp : Z
}.

(** The externally supplied forecast. *)
Record Prediction : Type := mkPrediction {
  pr_direction : string;
  pr_confidence : num
}.

Record Regime : Type := mkRegime {
  regime : string
}.

Record TradeSetup : Type := mkSetup {
  s_type : string;
  direction : string;
  confidence : num;
  entry : num;
  stopLoss : num;
  takeProfit : num;
  riskReward : num;
  signals : list string;
  s_pattern : option string;
  s_timestamp : Z
}.

(* ================================================================== *)
(** ** risk-calculator.js *)
(* ================================================================== *)

Module RiskCalculator.

Local Open Scope num_scope.

Record Position : Type := mkPosition {
  quantity : num;
  notionalValue : num;
  riskAmount : num;
  stopDistance : num;
  stopPercent : num;
  leverage : num;
  maxLoss : num
}.

Record RiskReward : Type := mkRiskReward {
  risk : num;
  reward : num;
  ratio : num;
  riskPercent : num;
  rewardPercent : num
}.

Record Kelly : Type := mkKelly {
  fullKelly : num;
  halfKelly : num;
  recommended : num
}.

Inductive Action : Type := TAKE_TRADE | REDUCE_SIZE | SKIP_TRADE | WAIT.

Record Recommendation : Type := mkRecommendation {
  action : Action;
  issues : list string;
  score : num
}.

Definition calculatePositionSize (entry stopLoss accountSize riskPercent : num) : Position :=
  let riskAmount := accountSize * (riskPercent / Fin 100) in
  let stopDistance := abs (entry - stopLoss) in
  let stopPercent := (stopDistance / entry) * Fin 100 in
  let quantity := riskAmount / stopDistance in
  let notionalValue := quantity * entry in
  let leverage := notionalValue / accountSize in
  {| quantity := quantity;
     notionalValue := notionalValue;
     riskAmount := riskAmount;
     stopDistance := stopDistance;
     stopPercent := stopPercent;
     leverage := ceil leverage;
     maxLoss := riskAmount |}.

Definition calculateRiskReward (entry stopLoss takeProfit : num) : RiskReward :=
  let risk := abs (entry - stopLoss) in
  let reward := abs (takeProfit - entry) in
  {| risk := risk;
     reward := reward;
     ratio := reward / risk;
     riskPercent := (risk / entry) * Fin 100;
     rewardPercent := (reward / entry) * Fin 100 |}.

Definition calculateKellyCriterion (winRate avgWin avgLoss : num) : Kelly :=
  let lossRate := Fin 1 - winRate in
  let kelly := (winRate / avgLoss) - (lossRate / avgWin) in
  let fractionalKelly := kelly * Fin 0.5 in
  {| fullKelly := max (Fin 0) (min (Fin 1) kelly) * Fin 100;
     halfKelly := max (Fin 0) (min (Fin 1) fractionalKelly) * Fin 100;
     recommended := max (Fin 0) (min (Fin 1) fractionalKelly) * Fin 100 |}.

Definition calculateTradeScore (setup : TradeSetup) (rr : RiskReward) (position : Position) : num :=
  let score := Fin 0 in
  let score := score + confidence setup * Fin 40 in
  let score := score + min (Fin 30) ((ratio rr / Fin 3) * Fin 30) in
  let score := score + max (Fin 0) (Fin 20 - (stopPercent position * Fin 5)) in
  let score := score + max (Fin 0) (Fin 10 - leverage position) in
  min (Fin 100) (max (Fin 0) score).

(** The four checks run one after the other on the mutable pair
    [(issues, recommendation)]; each one that fires appends its issue and
    overwrites the recommendation. *)
Definition getTradeRecommendation (setup : TradeSetup) (rr : RiskReward) (position : Position) : Recommendation :=
  let st := ([] : list string, TAKE_TRADE) in
  let st :=
    if ratio rr <? Fin 1.5
    then (fst st ++ ["Risk/Reward below 1.5:1"], REDUCE_SIZE) else st in
  let st :=
    if stopPercent position >? Fin 3
    then (fst st ++ ["Stop loss too wide (>3%)"], REDUCE_SIZE) else st in
  let st :=
    if leverage position >? Fin 10
    then (fst st ++ ["Excessive leverage required"], SKIP_TRADE) else st in
  let st :=
    if confidence setup <? Fin 0.65
    then (fst st ++ ["Low setup confidence"], WAIT) else st in
  let st :=
    if Nat.eqb (List.length (fst st)) 0 then (fst st, TAKE_TRADE) else st in
  {| action := snd st;
     issues := fst st;
     score := calculateTradeScore setup rr position |}.

(** The calculator object: its three constants. *)
Record Calculator : Type := mkCalculator {
  defaultAccountSize : num;
  defaultRiskPercent : num;
  maxPositions : num
}.

(** [new RiskCalculator()] *)
Definition constructor : Calculator :=
  {| defaultAccountSize := Fin 10000;
     defaultRiskPercent := Fin 1;
     maxPositions := Fin 5 |}.

(** An open position as [calculatePositionRisk] and [calculatePortfolioHeat]
    read it. *)
Record OpenPosition : Type := mkOpenPosition {
  pos_entry : num;
  pos_stopLoss : num;
  pos_quantity : num
}.

(** [xs.length] used in arithmetic. *)
Definition count {A : Type} (xs : list A) : num :=
  Fin (inject_Z (Z.of_nat (List.length xs))).

(** The result of [calculatePositionRisk] ([riskPercent] of the source is
    [portfolioRiskPercent] here, the name being taken by [RiskReward]). *)
Record PositionRisk : Type := mkPositionRisk {
  totalRisk : num;
  totalExposure : num;
  portfolioRiskPercent : num;
  exposurePercent : num;
  numberOfPositions : nat;
  avgRiskPerTrade : num
}.

Definition calculatePositionRisk (positions : list OpenPosition) (accountSize : num)
    : PositionRisk :=
  let '(totalRisk, totalExposure) :=
    fold_left
      (fun '(totalRisk, totalExposure) pos =>
         let riskAmount := abs (pos_entry pos - pos_stopLoss pos) * pos_quantity pos in
         (totalRisk + riskAmount, totalExposure + pos_entry pos * pos_quantity pos))
      positions (Fin 0, Fin 0) in
  {| totalRisk := totalRisk;
     totalExposure := totalExposure;
     portfolioRiskPercent := (totalRisk / accountSize) * Fin 100;
     exposurePercent := (totalExposure / accountSize) * Fin 100;
     numberOfPositions := List.length positions;
     avgRiskPerTrade := totalRisk / count positions |}.

Definition calculateBreakEven (entry : num) (direction : string) (feePercent : num) : num :=
  let feeCost := entry * (feePercent / Fin 100) in
  if String.eqb direction "LONG"
  then entry + (feeCost * Fin 2)
  else entry - (feeCost * Fin 2).

Record TrailingStop : Type := mkTrailingStop {
  trailingStop : num;
  profit : num;
  profitPercent : num;
  shouldMove : bool
}.

Definition calculateTrailingStop (entry currentPrice : num) (direction : string)
    (atrValue : num) : TrailingStop :=
  let multiplier := Fin 2 in
  if String.eqb direction "LONG" then
    let trailingStop := currentPrice - (atrValue * multiplier) in
    let profit := currentPrice - entry in
    let profitPercent := (profit / entry) * Fin 100 in
    {| trailingStop := trailingStop;
       profit := profit;
       profitPercent := profitPercent;
       shouldMove := (currentPrice >? entry) && (trailingStop >? entry) |}
  else
    let trailingStop := currentPrice + (atrValue * multiplier) in
    let profit := entry - currentPrice in
    let profitPercent := (profit / entry) * Fin 100 in
    {| trailingStop := trailingStop;
       profit := profit;
       profitPercent := profitPercent;
       shouldMove := (currentPrice <? entry) && (trailingStop <? entry) |}.

(** One rung of the take-profit ladder. *)
Record PartialLevel : Type := mkPartialLevel {
  percent : num;
  level_price : num;
  level_ratio : num
}.

Definition calculatePartialTakeProfits (entry finalTarget : num) (direction : string)
    : list PartialLevel :=
  let distance := abs (finalTarget - entry) in
  let levels : list PartialLevel := [] in
  let levels :=
    levels ++ [{| percent := Fin 25;
                  level_price := if String.eqb direction "LONG"
                                 then entry + distance * Fin 0.5
                                 else entry - distance * Fin 0.5;
                  level_ratio := Fin 0.5 |}] in
  let levels :=
    levels ++ [{| percent := Fin 25;
                  level_price := if String.eqb direction "LONG"
                                 then entry + distance * Fin 0.75
                                 else entry - distance * Fin 0.75;
                  level_ratio := Fin 0.75 |}] in
  let levels :=
    levels ++ [{| percent := Fin 50;
                  level_price := finalTarget;
                  level_ratio := Fin 1.0 |}] in
  levels.

Record PortfolioHeat : Type := mkPortfolioHeat {
  totalHeat : num;
  isOverheated : bool;
  heat_maxPositions : num;
  availableRisk : num
}.

Definition calculatePortfolioHeat (self : Calculator) (positions : list OpenPosition)
    (accountSize : num) : PortfolioHeat :=
  let totalHeat :=
    fold_left
      (fun totalHeat pos =>
         let positionRisk := abs (pos_entry pos - pos_stopLoss pos) * pos_quantity pos in
         let riskPercent := (positionRisk / accountSize) * Fin 100 in
         totalHeat + riskPercent)
      positions (Fin 0) in
  {| totalHeat := totalHeat;
     isOverheated := totalHeat >? Fin 5;
     heat_maxPositions := maxPositions self;
     availableRisk := max (Fin 0) (Fin 5 - totalHeat) |}.

Record ExpectedValue : Type := mkExpectedValue {
  expectedValue : num;
  expectedPercent : num;
  isPositive : bool;
  winRate : num;
  ev_riskReward : num
}.

Definition calculateExpectedValue (setup : TradeSetup) (historicalWinRate : num)
    : ExpectedValue :=
  let risk := abs (entry setup - stopLoss setup) in
  let reward := abs (takeProfit setup - entry setup) in
  let expectedValue :=
    (historicalWinRate * reward) - ((Fin 1 - historicalWinRate) * risk) in
  let expectedPercent := (expectedValue / entry setup) * Fin 100 in
  {| expectedValue := expectedValue;
     expectedPercent := expectedPercent;
     isPositive := expectedValue >? Fin 0;
     winRate := historicalWinRate;
     ev_riskReward := reward / risk |}.

Record Drawdown : Type := mkDrawdown {
  maxDrawdown : num;
  isAcceptable : bool
}.

(** The body of the [forEach] of [calculateMaxDrawdown] on the pair
    [(maxDrawdown, peak)]. *)
Definition drawdownStep (acc : num * num) (value : num) : num * num :=
  let '(maxDrawdown, peak) := acc in
  let peak := if value >? peak then value else peak in
  let drawdown := ((peak - value) / peak) * Fin 100 in
  let maxDrawdown := if drawdown >? maxDrawdown then drawdown else maxDrawdown in
  (maxDrawdown, peak).

(** [equityCurve[0]] of an empty curve is [undefined]; the loop that would
    read it does not run then. *)
Definition calculateMaxDrawdown (equityCurve : list num) : Drawdown :=
  let maxDrawdown := Fin 0 in
  let peak := nth 0 equityCurve NaN in
  let '(maxDrawdown, peak) := fold_left drawdownStep equityCurve (maxDrawdown, peak) in
  {| maxDrawdown := maxDrawdown;
     isAcceptable := maxDrawdown <? Fin 20 |}.

Record RiskReport : Type := mkRiskReport {
  rep_setup : TradeSetup;
  rep_position : Position;
  rep_riskReward : RiskReward;
  breakEven : num;
  partials : list PartialLevel;
  recommendation : Recommendation
}.

Definition generateRiskReport (setup : TradeSetup) (accountSize riskPercent : num)
    : RiskReport :=
  let position :=
    calculatePositionSize (entry setup) (stopLoss setup) accountSize riskPercent in
  let rr := calculateRiskReward (entry setup) (stopLoss setup) (takeProfit setup) in
  let breakEven := calculateBreakEven (entry setup) (direction setup) (Fin 0.1) in
  let partials :=
    calculatePartialTakeProfits (entry setup) (takeProfit setup) (direction setup) in
  {| rep_setup := setup;
     rep_position := position;
     rep_riskReward := rr;
     breakEven := breakEven;
     partials := partials;
     recommendation := getTradeRecommendation setup rr position |}.

End RiskCalculator.

(* ================================================================== *)
(** ** technical-indicators.js *)
(* ================================================================== *)

Module TechnicalIndicators.

Local Open Scope num_scope.

(** [data[i]] read as a number: an index outside the array gives
    [undefined], which every operator below turns into NaN. *)
Definition get (data : list num) (i : nat) : num := nth i data NaN.

(** A length or a loop index used in arithmetic. *)
Definition of_nat (n : nat) : num := Fin (inject_Z (Z.of_nat n)).

(** [data.reduce((a, b) => a + b, 0)] *)
Definition sum (data : list num) : num := fold_left add data (Fin 0).

Definition SMA (data : list num) : num :=
  sum data / of_nat (List.length data).

Definition EMA (data : list num) (period : nat) : num :=
  let multiplier := Fin 2 / (of_nat period + Fin 1) in
  let ema := sum (slice 0 period data) / of_nat period in
  for_range period (List.length data)
    (fun i ema => (get data i - ema) * multiplier + ema) ema.

(** The body of the first loop of [RSI]: the change at [i] goes to the
    gains when positive and to the losses otherwise. *)
Definition gainLossStep (data : list num) (i : nat) (acc : num * num) : num * num :=
  let '(gains, losses) := acc in
  let change := get data i - get data (i - 1) in
  if change >? Fin 0
  then (gains + change, losses)
  else (gains, losses - change).

(** The body of the second loop of [RSI]: Wilder smoothing of both averages. *)
Definition wilderStep (data : list num) (period : nat) (i : nat) (acc : num * num)
    : num * num :=
  let '(avgGain, avgLoss) := acc in
  let change := get data i - get data (i - 1) in
  if change >? Fin 0
  then ((avgGain * (of_nat period - Fin 1) + change) / of_nat period,
        (avgLoss * (of_nat period - Fin 1)) / of_nat period)
  else ((avgGain * (of_nat period - Fin 1)) / of_nat period,
        (avgLoss * (of_nat period - Fin 1) - change) / of_nat period).

Definition RSI (data : list num) (period : nat) : num :=
  if Nat.ltb (List.length data) (period + 1) then Fin 50 else
  let '(gains, losses) :=
    for_range 1 (period + 1) (gainLossStep data) (Fin 0, Fin 0) in
  let avgGain := gains / of_nat period in
  let avgLoss := losses / of_nat period in
  let '(avgGain, avgLoss) :=
    for_range (period + 1) (List.length data) (wilderStep data period)
      (avgGain, avgLoss) in
  let rs := avgGain / or_num avgLoss (Fin 0.0001) in
  Fin 100 - (Fin 100 / (Fin 1 + rs)).

Record MACDResult : Type := mkMACD {
  m_macd : num;
  m_signal : num;
  m_histogram : num
}.

Definition MACD (data : list num) : MACDResult :=
  let ema12 := EMA data 12 in
  let ema26 := EMA data 26 in
  let macd := ema12 - ema26 in
  let macdLine :=
    for_range 26 (List.length data)
      (fun i macdLine =>
         let ema12_i := EMA (slice 0 (i + 1) data) 12 in
         let ema26_i := EMA (slice 0 (i + 1) data) 26 in
         macdLine ++ [ema12_i - ema26_i])
      [] in
  let signal := if Nat.leb 9 (List.length macdLine) then EMA macdLine 9 else macd in
  let histogram := macd - signal in
  {| m_macd := macd; m_signal := signal; m_histogram := histogram |}.

Record Bands : Type := mkBands {
  b_upper : num;
  b_middle : num;
  b_lower : num
}.

Record Stoch : Type := mkStoch {
  st_k : num;
  st_d : num
}.

Section WithSqrt.

(** [Math.sqrt] has no exact rational value; the indicator engine is
    parametric in it. *)
Variable Math_sqrt : num -> num.

Definition BollingerBands (data : list num) (stdDev : num) : Bands :=
  let middle := SMA data in
  let squaredDiffs := map (fun val => (val - middle) * (val - middle)) data in
  let variance := sum squaredDiffs / of_nat (List.length data) in
  let sd := Math_sqrt variance in
  {| b_upper := middle + (stdDev * sd);
     b_middle := middle;
     b_lower := middle - (stdDev * sd) |}.

End WithSqrt.

Definition Stochastic (highs lows closes : list num) : Stoch :=
  let high := max_list highs in
  let low := min_list lows in
  let close := get closes (List.length closes - 1) in
  let k := ((close - low) / or_num (high - low) (Fin 1)) * Fin 100 in
  let d := k in
  {| st_k := k; st_d := d |}.

(** [Math.max(highs[i] - lows[i], |highs[i] - closes[i-1]|, |lows[i] - closes[i-1]|)] *)
Definition trueRange (highs lows closes : list num) (i : nat) : num :=
  max (max (get highs i - get lows i)
           (abs (get highs i - get closes (i - 1))))
      (abs (get lows i - get closes (i - 1))).

Definition ADX (highs lows closes : list num) (period : nat) : num :=
  if Nat.ltb (List.length highs) (period + 1) then Fin 0 else
  let '(plusDM, minusDM, tr) :=
    for_range 1 (List.length highs)
      (fun i '(plusDM, minusDM, tr) =>
         let highDiff := get highs i - get highs (i - 1) in
         let lowDiff := get lows (i - 1) - get lows i in
         (plusDM + max highDiff (Fin 0),
          minusDM + max lowDiff (Fin 0),
          tr + trueRange highs lows closes i))
      (Fin 0, Fin 0, Fin 0) in
  let plusDI := (plusDM / tr) * Fin 100 in
  let minusDI := (minusDM / tr) * Fin 100 in
  let dx := abs (plusDI - minusDI) / or_num (plusDI + minusDI) (Fin 1) * Fin 100 in
  dx.

Definition ATR (highs lows closes : list num) : num :=
  let atr :=
    for_range 1 (List.length highs)
      (fun i atr => atr + trueRange highs lows closes i) (Fin 0) in
  atr / (of_nat (List.length highs) - Fin 1).

(** *** Swing extraction *)

(** The inner scan of [findSwingHighs]: [isHigh] starts true and the first
    [j <> i] with [data[j] >= data[i]] clears it and leaves the loop. *)
Definition isSwingHigh (data : list num) (period i : nat) : bool :=
  for_range (i - period) (i + period + 1)
    (fun j isHigh =>
       if isHigh && (negb (Nat.eqb j i) && (get data j >=? get data i))
       then false else isHigh)
    true.

Definition isSwingLow (data : list num) (period i : nat) : bool :=
  for_range (i - period) (i + period + 1)
    (fun j isLow =>
       if isLow && (negb (Nat.eqb j i) && (get data j <=? get data i))
       then false else isLow)
    true.

Definition findSwingHighs (data : list num) (period : nat) : list num :=
  for_range period (List.length data - period)
    (fun i highs => if isSwingHigh data period i then highs ++ [get data i] else highs)
    [].

Definition findSwingLows (data : list num) (period : nat) : list num :=
  for_range period (List.length data - period)
    (fun i lows => if isSwingLow data period i then lows ++ [get data i] else lows)
    [].

(** *** Divergence *)

Record Divergence : Type := mkDivergence {
  d_type : string;
  d_strength : num
}.

Definition detectDivergence (prices indicator : list num) (periods : nat) : option Divergence :=
  if Nat.ltb (List.length prices) periods || Nat.ltb (List.length indicator) periods
  then None else
  let recentPrices := slice_last periods prices in
  let recentIndicator := slice_last periods indicator in
  let priceHighs := findSwingHighs recentPrices 5 in
  let priceLows := findSwingLows recentPrices 5 in
  let indHighs := findSwingHighs recentIndicator 5 in
  let indLows := findSwingLows recentIndicator 5 in
  let bullish :=
    Nat.leb 2 (List.length priceLows) && Nat.leb 2 (List.length indLows) &&
    (let priceLower :=
       get priceLows (List.length priceLows - 1) <? get priceLows (List.length priceLows - 2) in
     let indHigher :=
       get indLows (List.length indLows - 1) >? get indLows (List.length indLows - 2) in
     priceLower && indHigher) in
  if bullish then Some {| d_type := "BULLISH"; d_strength := Fin 0.8 |} else
  let bearish :=
    Nat.leb 2 (List.length priceHighs) && Nat.leb 2 (List.length indHighs) &&
    (let priceHigher :=
       get priceHighs (List.length priceHighs - 1) >? get priceHighs (List.length priceHighs - 2) in
     let indLower :=
       get indHighs (List.length indHighs - 1) <? get indHighs (List.length indHighs - 2) in
     priceHigher && indLower) in
  if bearish then Some {| d_type := "BEARISH"; d_strength := Fin 0.8 |} else
  None.

(** *** calculateAll *)

Section Engine.

Variable Math_sqrt : num -> num.

(** [cond ? Some v : absent] for a property set under a guard. *)
Definition when (cond : bool) (v : num) : option num :=
  if cond then Some v else None.

(** [candles[i].close] and [candles[i].volume] inside the loop. *)
Definition close_at (candles : list Candle) (i : nat) : num :=
  match nth_error candles i with Some c => c_close c | None => NaN end.

(** [indicators[i - 1]?.obv || 0] *)
Definition prev_obv (indicators : list Indicator) (i : nat) : num :=
  match nth_error indicators (i - 1) with
  | Some prev => or_else (obv prev) (Fin 0)
  | None => Fin 0
  end.

(** The body of the loop of [calculateAll] for index [i], candle
    [c = candles[i]] and the snapshots pushed so far. *)
Definition snapshot (candles : list Candle) (closes highs lows volumes : list num)
    (i : nat) (c : Candle) (indicators : list Indicator) : Indicator :=
  let macd := MACD (slice 0 (i + 1) closes) in
  let bb := BollingerBands Math_sqrt (slice (i - 19) (i + 1) closes) (Fin 2) in
  let stoch :=
    Stochastic (slice (i - 13) (i + 1) highs)
               (slice (i - 13) (i + 1) lows)
               (slice (i - 13) (i + 1) closes) in
  let avgVolume := SMA (slice (i - 19) (i + 1) volumes) in
  let prevOBV := prev_obv indicators i in
  {| timestamp := c_timestamp c;
     price := c_close c;
     ema9 := when (Nat.leb 9 i) (EMA (slice 0 (i + 1) closes) 9);
     ema20 := when (Nat.leb 20 i) (EMA (slice 0 (i + 1) closes) 20);
     ema50 := when (Nat.leb 50 i) (EMA (slice 0 (i + 1) closes) 50);
     sma20 := when (Nat.leb 20 i) (SMA (slice (i - 19) (i + 1) closes));
     sma50 := when (Nat.leb 50 i) (SMA (slice (i - 49) (i + 1) closes));
     sma200 := when (Nat.leb 200 i) (SMA (slice (i - 199) (i + 1) closes));
     rsi := when (Nat.leb 14 i) (RSI (slice (i - 14) (i + 1) closes) 14);
     macd := when (Nat.leb 26 i) (m_macd macd);
     macdSignal := when (Nat.leb 26 i) (m_signal macd);
     macdHistogram := when (Nat.leb 26 i) (m_histogram macd);
     bollingerUpper := when (Nat.leb 20 i) (b_upper bb);
     bollingerMiddle := when (Nat.leb 20 i) (b_middle bb);
     bollingerLower := when (Nat.leb 20 i) (b_lower bb);
     bollingerBand :=
       when (Nat.leb 20 i) ((c_close c - b_lower bb) / (b_upper bb - b_lower bb));
     stochK := when (Nat.leb 14 i) (st_k stoch);
     stochD := when (Nat.leb 14 i) (st_d stoch);
     adx := when (Nat.leb 14 i)
              (ADX (slice (i - 14) (i + 1) highs)
                   (slice (i - 14) (i + 1) lows)
                   (slice (i - 14) (i + 1) closes) 14);
     atr := when (Nat.leb 14 i)
              (ATR (slice (i - 13) (i + 1) highs)
                   (slice (i - 13) (i + 1) lows)
                   (slice (i - 13) (i + 1) closes));
     volumeRatio := when (Nat.leb 20 i) (c_volume c / avgVolume);
     volumeMA := when (Nat.leb 20 i) avgVolume;
     obv :=
       if Nat.ltb 0 i then
         if c_close c >? close_at candles (i - 1) then Some (prevOBV + c_volume c)
         else if c_close c <? close_at candles (i - 1) then Some (prevOBV - c_volume c)
         else Some prevOBV
       else None |}.

Definition calculateAll (candles : list Candle) : list Indicator :=
  if Nat.ltb (List.length candles) 50 then [] else
  let closes := map c_close candles in
  let highs := map c_high candles in
  let lows := map c_low candles in
  let volumes := map c_volume candles in
  for_range 0 (List.length candles)
    (fun i indicators =>
       match nth_error candles i with
       | Some c => indicators ++ [snapshot candles closes highs lows volumes i c indicators]
       | None => indicators
       end)
    [].

End Engine.

(** *** Closed-form levels *)

Record Fibonacci : Type := mkFibonacci {
  level_0 : num;
  level_236 : num;
  level_382 : num;
  level_500 : num;
  level_618 : num;
  level_786 : num;
  level_100 : num
}.

Definition FibonacciLevels (high low : num) : Fibonacci :=
  let diff := high - low in
  {| level_0 := high;
     level_236 := high - (diff * Fin 0.236);
     level_382 := high - (diff * Fin 0.382);
     level_500 := high - (diff * Fin 0.500);
     level_618 := high - (diff * Fin 0.618);
     level_786 := high - (diff * Fin 0.786);
     level_100 := low |}.

Record Pivots : Type := mkPivots {
  pivot : num;
  r1 : num;
  r2 : num;
  r3 : num;
  s1 : num;
  s2 : num;
  s3 : num
}.

Definition PivotPoints (high low close : num) : Pivots :=
  let pivot := (high + low + close) / Fin 3 in
  {| pivot := pivot;
     r1 := (Fin 2 * pivot) - low;
     r2 := pivot + (high - low);
     r3 := high + Fin 2 * (pivot - low);
     s1 := (Fin 2 * pivot) - high;
     s2 := pivot - (high - low);
     s3 := low - Fin 2 * (high - pivot) |}.

(** *** Money flow *)

(** [closes.map((close, i) => (highs[i] + lows[i] + close) / 3)] *)
Definition typicalPrices (highs lows closes : list num) : list num :=
  map (fun i => (get highs i + get lows i + get closes i) / Fin 3)
      (seq 0 (List.length closes)).

Definition MFI (highs lows closes volumes : list num) (period : nat) : num :=
  let typicalPrices := typicalPrices highs lows closes in
  let '(positiveFlow, negativeFlow) :=
    for_range 1 (Nat.min (period + 1) (List.length typicalPrices))
      (fun i '(positiveFlow, negativeFlow) =>
         let moneyFlow := get typicalPrices i * get volumes i in
         if get typicalPrices i >? get typicalPrices (i - 1)
         then (positiveFlow + moneyFlow, negativeFlow)
         else (positiveFlow, negativeFlow + moneyFlow))
      (Fin 0, Fin 0) in
  let mfi := Fin 100 - (Fin 100 / (Fin 1 + (positiveFlow / or_num negativeFlow (Fin 1)))) in
  mfi.

End TechnicalIndicators.

(* ================================================================== *)
(** ** pattern-recognition.js: the swing helpers *)
(* ================================================================== *)

Module PatternRecognition.

Local Open Scope num_scope.

Import TechnicalIndicators.

(** An element of the result of [findPeaks] and [findTroughs]. *)
Record Extremum : Type := mkExtremum {
  index : nat;
  value : num
}.

Definition isPeak (data : list num) (period i : nat) : bool :=
  for_range (i - period) (i + period + 1)
    (fun j isPeak =>
       if isPeak && (negb (Nat.eqb j i) && (get data j >=? get data i))
       then false else isPeak)
    true.

Definition isTrough (data : list num) (period i : nat) : bool :=
  for_range (i - period) (i + period + 1)
    (fun j isTrough =>
       if isTrough && (negb (Nat.eqb j i) && (get data j <=? get data i))
       then false else isTrough)
    true.

Definition findPeaks (data : list num) (period : nat) : list Extremum :=
  for_range period (List.length data - period)
    (fun i peaks =>
       if isPeak data period i
       then peaks ++ [{| index := i; value := get data i |}] else peaks)
    [].

Definition findTroughs (data : list num) (period : nat) : list Extremum :=
  for_range period (List.length data - period)
    (fun i troughs =>
       if isTrough data period i
       then troughs ++ [{| index := i; value := get data i |}] else troughs)
    [].

(** The indices the outer loop of the four swing helpers visits:
    [period <= i <= length - period - 1], that is [i + period < length]. *)
Definition in_swing_window (data : list num) (period i : nat) : Prop :=
  period <= i <= List.length data - period - 1 /\ i + period < List.length data.

End PatternRecognition.

(* ================================================================== *)
(** ** trade-setup-detector.js *)
(* ================================================================== *)

Module TradeSetupDetector.

Local Open Scope num_scope.

(** The detector object: [minConfidence] is read by every strategy,
    [activeSetups] is overwritten by each [analyzeMarket]. *)
Record Detector : Type := mkDetector {
  activeSetups : list TradeSetup;
  setupHistory : list TradeSetup;
  minConfidence : num
}.

(** [new TradeSetupDetector()] *)
Definition constructor : Detector :=
  {| activeSetups := []; setupHistory := []; minConfidence := Fin 0.60 |}.

(** A call either returns or throws the [TypeError] of a property read on
    [undefined]. *)
Inductive outcome (A : Type) : Type :=
| Return (a : A)
| TypeError.

Arguments Return {A} a.
Arguments TypeError {A}.

Definition bind {A B : Type} (m : outcome A) (k : A -> outcome B) : outcome B :=
  match m with
  | Return a => k a
  | TypeError => TypeError
  end.

Notation "x <- m ;; k" := (bind m (fun x => k))
  (at level 61, m at next level, right associativity).

(** [candles[candles.length - 1].close] *)
Definition last_close (candles : list Candle) : outcome num :=
  match last_opt candles with
  | Some c => Return (c_close c)
  | None => TypeError
  end.

(** [s.includes(sub)] *)
Definition includes (s sub : string) : bool :=
  match String.index 0 sub s with Some _ => true | None => false end.

(** [patterns[0]] after a length check. *)
Definition first_type (ps : list Pattern) : string :=
  match ps with p :: _ => p_type p | [] => "undefined" end.

Definition first_confidence (ps : list Pattern) : num :=
  match ps with p :: _ => p_confidence p | [] => NaN end.

Definition push_opt (setups : list TradeSetup) (s : option TradeSetup) : list TradeSetup :=
  match s with Some x => setups ++ [x] | None => setups end.

(** [xs.filter(v => v !== undefined)] *)
Definition defined (xs : list (option num)) : list num :=
  flat_map (fun v => match v with Some x => [x] | None => [] end) xs.

Section Strategies.

(** [this] and the value of [Date.now()] at the call. *)
Variable self : Detector.
Variable now : Z.

(** Strategy 1: trend following, confirmed by the forecast. *)
Definition detectTrendFollowing (candles : list Candle) (indicator : Indicator)
    (prediction : option Prediction) (rg : Regime) : outcome (option TradeSetup) :=
  let signals : list string := [] in
  let score := Fin 0 in
  let maxScore := Fin 0 in
  let '(signals, score) :=
    if String.eqb (regime rg) "BULLISH_TRENDING" || String.eqb (regime rg) "BEARISH_TRENDING"
    then (signals ++ ["Trending Market"], score + Fin 1)
    else (signals, score) in
  let maxScore := maxScore + Fin 1 in
  let '(signals, score) :=
    if truthy_opt (ema9 indicator) && truthy_opt (ema20 indicator) && truthy_opt (ema50 indicator)
    then
      if (to_num (ema9 indicator) >? to_num (ema20 indicator))
         && (to_num (ema20 indicator) >? to_num (ema50 indicator))
      then (signals ++ ["Bullish MA Alignment"], score + Fin 1.5)
      else if (to_num (ema9 indicator) <? to_num (ema20 indicator))
              && (to_num (ema20 indicator) <? to_num (ema50 indicator))
      then (signals ++ ["Bearish MA Alignment"], score - Fin 1.5)
      else (signals, score)
    else (signals, score) in
  let maxScore := maxScore + Fin 1.5 in
  let '(signals, score) :=
    match prediction with
    | Some p =>
        if ((score >? Fin 0) && String.eqb (pr_direction p) "LONG")
           || ((score <? Fin 0) && String.eqb (pr_direction p) "SHORT")
        then (signals ++ [("AI Confirms " ++ pr_direction p)%string],
              score + pr_confidence p * Fin 2)
        else (signals, score)
    | None => (signals, score)
    end in
  let maxScore := maxScore + Fin 2 in
  let '(signals, score) :=
    if truthy_opt (macd indicator) && truthy_opt (macdSignal indicator)
    then
      if (score >? Fin 0) && (to_num (macd indicator) >? to_num (macdSignal indicator))
      then (signals ++ ["MACD Bullish"], score + Fin 0.8)
      else if (score <? Fin 0) && (to_num (macd indicator) <? to_num (macdSignal indicator))
      then (signals ++ ["MACD Bearish"], score - Fin 0.8)
      else (signals, score)
    else (signals, score) in
  let maxScore := maxScore + Fin 0.8 in
  let normalizedScore := abs score / maxScore in
  if normalizedScore >=? minConfidence self then
    let dir := if score >? Fin 0 then "LONG" else "SHORT" in
    currentPrice <- last_close candles ;;
    let atr_ := or_else (atr indicator) (currentPrice * Fin 0.02) in
    Return (Some
      {| s_type := "TREND_FOLLOWING";
         direction := dir;
         confidence := normalizedScore;
         entry := currentPrice;
         stopLoss := if String.eqb dir "LONG"
                     then currentPrice - (atr_ * Fin 2)
                     else currentPrice + (atr_ * Fin 2);
         takeProfit := if String.eqb dir "LONG"
                       then currentPrice + (atr_ * Fin 4)
                       else currentPrice - (atr_ * Fin 4);
         riskReward := Fin 2.0;
         signals := signals;
         s_pattern := None;
         s_timestamp := now |})
  else Return None.

(** Strategy 2: mean reversion. *)
Definition detectMeanReversion (price_ : num) (indicator : Indicator)
    (patterns : list Pattern) : option TradeSetup :=
  let signals : list string := [] in
  let score := Fin 0 in
  let rsiExtreme :=
    if to_num (rsi indicator) <? Fin 30
    then Some (signals ++ ["RSI Oversold"], score + Fin 1.5)
    else if to_num (rsi indicator) >? Fin 70
    then Some (signals ++ ["RSI Overbought"], score - Fin 1.5)
    else None in
  match rsiExtreme with
  | None => None
  | Some (signals, score) =>
    let '(signals, score) :=
      match bollingerBand indicator with
      | Some band =>
          if band <? Fin 0.1 then (signals ++ ["At Lower BB"], score + Fin 1)
          else if band >? Fin 0.9 then (signals ++ ["At Upper BB"], score - Fin 1)
          else (signals, score)
      | None => (signals, score)
      end in
    let reversalPatterns :=
      filter (fun p =>
                ((score >? Fin 0) && String.eqb (p_direction p) "BULLISH")
                || ((score <? Fin 0) && String.eqb (p_direction p) "BEARISH"))
             patterns in
    let '(signals, score) :=
      if Nat.ltb 0 (List.length reversalPatterns)
      then (signals ++ [("Pattern: " ++ first_type reversalPatterns)%string],
            score + first_confidence reversalPatterns)
      else (signals, score) in
    let conf := min (Fin 0.95) (abs score / Fin 3.5) in
    if conf >=? minConfidence self then
      let dir := if score >? Fin 0 then "LONG" else "SHORT" in
      let stopLossDistance := price_ * Fin 0.015 in
      Some
        {| s_type := "MEAN_REVERSION";
           direction := dir;
           confidence := conf;
           entry := price_;
           stopLoss := if String.eqb dir "LONG"
                       then price_ - stopLossDistance
                       else price_ + stopLossDistance;
           takeProfit := if String.eqb dir "LONG"
                         then or_else (bollingerMiddle indicator) (price_ * Fin 1.02)
                         else or_else (bollingerMiddle indicator) (price_ * Fin 0.98);
           riskReward := Fin 2.0;
           signals := signals;
           s_pattern := None;
           s_timestamp := now |}
    else None
  end.

(** Strategy 3: breakout of the 20-candle range. *)
Definition detectBreakout (candles : list Candle) (indicator : Indicator)
    (patterns : list Pattern) : outcome (option TradeSetup) :=
  let signals : list string := [] in
  let score := Fin 0 in
  currentPrice <- last_close candles ;;
  let recentHigh := max_list (map c_high (slice_last 20 candles)) in
  let recentLow := min_list (map c_low (slice_last 20 candles)) in
  let breakingHigh := currentPrice >? recentHigh * Fin 1.001 in
  let breakingLow := currentPrice <? recentLow * Fin 0.999 in
  if negb breakingHigh && negb breakingLow then Return None else
  let '(signals, score) :=
    if breakingHigh
    then (signals ++ ["Breaking Recent High"], score + Fin 1.5)
    else (signals ++ ["Breaking Recent Low"], score - Fin 1.5) in
  let '(signals, score) :=
    if to_num (volumeRatio indicator) >? Fin 1.5
    then (signals ++ ["High Volume Breakout"],
          score + (if score >? Fin 0 then Fin 1 else - Fin 1))
    else (signals, score) in
  let breakoutPatterns :=
    filter (fun p => includes (p_type p) "TRIANGLE" || includes (p_type p) "FLAG")
           patterns in
  let '(signals, score) :=
    if Nat.ltb 0 (List.length breakoutPatterns)
    then (signals ++ [("Pattern: " ++ first_type breakoutPatterns)%string],
          score + first_confidence breakoutPatterns)
    else (signals, score) in
  let conf := min (Fin 0.95) (abs score / Fin 3.5) in
  if conf >=? minConfidence self then
    let dir := if score >? Fin 0 then "LONG" else "SHORT" in
    let range := recentHigh - recentLow in
    Return (Some
      {| s_type := "BREAKOUT";
         direction := dir;
         confidence := conf;
         entry := currentPrice;
         stopLoss := if String.eqb dir "LONG"
                     then recentHigh * Fin 0.995
                     else recentLow * Fin 1.005;
         takeProfit := if String.eqb dir "LONG"
                       then currentPrice + range
                       else currentPrice - range;
         riskReward := Fin 2.0;
         signals := signals;
         s_pattern := None;
         s_timestamp := now |})
  else Return None.

(** [patterns.reduce((best, current) =>
       current.confidence > best.confidence ? current : best)] *)
Definition bestOf (first : Pattern) (rest : list Pattern) : Pattern :=
  fold_left
    (fun best current =>
       if p_confidence current >? p_confidence best then current else best)
    rest first.

(** Strategy 4: the single most confident pattern. *)
Definition detectPatternTrade (patterns : list Pattern) (indicator : Indicator)
    (prediction : option Prediction) : option TradeSetup :=
  match patterns with
  | [] => None
  | first :: rest =>
    let bestPattern := bestOf first rest in
    if p_confidence bestPattern <? minConfidence self then None else
    let signals := [("Pattern: " ++ p_type bestPattern)%string] in
    let conf := p_confidence bestPattern in
    let '(signals, conf) :=
      if String.eqb (p_direction bestPattern) "BULLISH" && (to_num (rsi indicator) <? Fin 50)
      then (signals ++ ["RSI Below 50"], conf + Fin 0.05)
      else if String.eqb (p_direction bestPattern) "BEARISH" && (to_num (rsi indicator) >? Fin 50)
      then (signals ++ ["RSI Above 50"], conf + Fin 0.05)
      else (signals, conf) in
    let '(signals, conf) :=
      match prediction with
      | Some p =>
          if String.eqb (pr_direction p) (p_direction bestPattern)
          then (signals ++ ["AI Confirms"], conf + Fin 0.1)
          else (signals, conf)
      | None => (signals, conf)
      end in
    let conf := min (Fin 0.95) conf in
    if truthy_opt (p_target bestPattern) then
      Some
        {| s_type := "PATTERN_TRADE";
           direction := p_direction bestPattern;
           confidence := conf;
           entry := or_else (p_level bestPattern) (price indicator);
           stopLoss := if String.eqb (p_direction bestPattern) "BULLISH"
                       then to_num (p_level bestPattern) * Fin 0.98
                       else to_num (p_level bestPattern) * Fin 1.02;
           takeProfit := to_num (p_target bestPattern);
           riskReward := Fin 2.0;
           signals := signals;
           s_pattern := Some (p_type bestPattern);
           s_timestamp := now |}
    else None
  end.

(** Strategy 5: price against RSI divergence. *)
Definition detectDivergenceTrade (candles : list Candle) (indicators : list Indicator)
    : outcome (option TradeSetup) :=
  if Nat.ltb (List.length indicators) 20 then Return None else
  let prices := map c_close (slice_last 20 candles) in
  let rsiValues := defined (map rsi (slice_last 20 indicators)) in
  if Nat.ltb (List.length rsiValues) 20 then Return None else
  match TechnicalIndicators.detectDivergence prices rsiValues 20 with
  | None => Return None
  | Some divergence =>
    let signals := [(TechnicalIndicators.d_type divergence ++ " Divergence (RSI)")%string] in
    currentPrice <- last_close candles ;;
    let bullish := String.eqb (TechnicalIndicators.d_type divergence) "BULLISH" in
    Return (Some
      {| s_type := "DIVERGENCE";
         direction := if bullish then "LONG" else "SHORT";
         confidence := TechnicalIndicators.d_strength divergence;
         entry := currentPrice;
         stopLoss := if bullish then currentPrice * Fin 0.98 else currentPrice * Fin 1.02;
         takeProfit := if bullish then currentPrice * Fin 1.04 else currentPrice * Fin 0.96;
         riskReward := Fin 2.0;
         signals := signals;
         s_pattern := None;
         s_timestamp := now |})
  end.

(** [analyzeMarket]: the resolved value of the promise together with the
    detector after the call, or the exception that rejects it.  The latest
    indicator of an empty [indicators] is [undefined], and the first strategy
    throws on its first property read. *)
Definition analyzeMarket (candles : list Candle) (indicators : list Indicator)
    (patterns : list Pattern) (prediction : option Prediction) (rg : Regime)
    : outcome (Detector * list TradeSetup) :=
  let setups : list TradeSetup := [] in
  currentPrice <- last_close candles ;;
  match last_opt indicators with
  | None => TypeError
  | Some latestIndicator =>
    trendSetup <- detectTrendFollowing candles latestIndicator prediction rg ;;
    let setups := push_opt setups trendSetup in
    let reversionSetup := detectMeanReversion currentPrice latestIndicator patterns in
    let setups := push_opt setups reversionSetup in
    breakoutSetup <- detectBreakout candles latestIndicator patterns ;;
    let setups := push_opt setups breakoutSetup in
    let patternSetup := detectPatternTrade patterns latestIndicator prediction in
    let setups := push_opt setups patternSetup in
    divergenceSetup <- detectDivergenceTrade candles indicators ;;
    let setups := push_opt setups divergenceSetup in
    let validSetups :=
      filter (fun s => confidence s >=? minConfidence self) setups in
    let validSetups :=
      array_sort (fun a b => confidence b - confidence a) validSetups in
    Return ({| activeSetups := validSetups;
               setupHistory := setupHistory self;
               minConfidence := minConfidence self |},
            validSetups)
  end.

End Strategies.

(** *** The detector's helpers *)

(** The result of the detector's own [calculatePositionSize]. *)
Record SetupSize : Type := mkSetupSize {
  positionSize : num;
  size_notionalValue : num;
  size_riskAmount : num;
  size_stopPercent : num;
  potentialProfit : num;
  size_riskReward : num
}.

Definition calculatePositionSize (setup : TradeSetup) (accountSize riskPercent : num)
    : SetupSize :=
  let riskAmount := accountSize * (riskPercent / Fin 100) in
  let stopDistance := abs (entry setup - stopLoss setup) in
  let stopPercent := (stopDistance / entry setup) * Fin 100 in
  let positionSize := riskAmount / stopDistance in
  let notionalValue := positionSize * entry setup in
  {| positionSize := positionSize;
     size_notionalValue := notionalValue;
     size_riskAmount := riskAmount;
     size_stopPercent := stopPercent;
     potentialProfit := abs (takeProfit setup - entry setup) * positionSize;
     size_riskReward := abs (takeProfit setup - entry setup) / stopDistance |}.

Definition getSetupQuality (setup : TradeSetup) : string :=
  let quality := "MEDIUM" in
  if confidence setup >=? Fin 0.80 then "EXCELLENT"
  else if confidence setup >=? Fin 0.70 then "GOOD"
  else if confidence setup <? Fin 0.60 then "POOR"
  else quality.

Definition getActiveSetups (self : Detector) : list TradeSetup :=
  activeSetups self.

Record Summary : Type := mkSummary {
  total : nat;
  long : nat;
  short : nat;
  avgConfidence : num;
  bestSetup : option TradeSetup
}.

Definition getSummary (self : Detector) : Summary :=
  {| total := List.length (activeSetups self);
     long := List.length
               (filter (fun s => String.eqb (direction s) "LONG") (activeSetups self));
     short := List.length
                (filter (fun s => String.eqb (direction s) "SHORT") (activeSetups self));
     avgConfidence :=
       if Nat.ltb 0 (List.length (activeSetups self))
       then fold_left (fun sum s => sum + confidence s) (activeSetups self) (Fin 0)
            / TechnicalIndicators.of_nat (List.length (activeSetups self))
       else Fin 0;
     bestSetup :=
       if Nat.ltb 0 (List.length (activeSetups self))
       then nth_error (activeSetups self) 0
       else None |}.

End TradeSetupDetector.

(* ================================================================== *)
(** ** Predicates of the specification *)
(* ================================================================== *)

Module Spec.

Import TechnicalIndicators.

Local Open Scope Q_scope.

(** Every consecutive change of a finite series is a loss (no value above
    its predecessor), and every consecutive change is a gain. *)
Definition all_losses (data : list Q) : Prop :=
  forall i, (1 <= i < List.length data)%nat -> nth i data 0 <= nth (i - 1) data 0.

Definition all_gains (data : list Q) : Prop :=
  forall i, (1 <= i < List.length data)%nat -> nth (i - 1) data 0 < nth i data 0.

(** What both loops of [RSI] keep true of their pair of accumulators on a
    finite series: finite and non-negative, no gain when every change is a
    loss, no loss (and, once a change was seen, some gain) when every change
    is a gain. *)
Definition averages_ok (data : list Q) (strict : bool) (acc : num * num) : Prop :=
  exists g l : Q,
    acc = (Fin g, Fin l) /\ 0 <= g /\ 0 <= l
    /\ (all_losses data -> g == 0)
    /\ (all_gains data -> l == 0 /\ (strict = true -> 0 < g)).

(** A property of a snapshot exists. *)
Definition present (v : option num) : bool :=
  match v with Some _ => true | None => false end.

(** Snapshot and candle of the same index carry the same time and close. *)
Definition snapshot_aligned (c : Candle) (ind : Indicator) : Prop :=
  timestamp ind = c_timestamp c /\ price ind = c_close c.

(** Which properties the snapshot of index [i] has: each one exactly from
    the index at which the loop's guard lets it through. *)
Definition lookbacks_respected (i : nat) (ind : Indicator) : Prop :=
  present (ema9 ind) = Nat.leb 9 i
  /\ present (ema20 ind) = Nat.leb 20 i
  /\ present (ema50 ind) = Nat.leb 50 i
  /\ present (sma20 ind) = Nat.leb 20 i
  /\ present (sma50 ind) = Nat.leb 50 i
  /\ present (sma200 ind) = Nat.leb 200 i
  /\ present (rsi ind) = Nat.leb 14 i
  /\ present (macd ind) = Nat.leb 26 i
  /\ present (macdSignal ind) = Nat.leb 26 i
  /\ present (macdHistogram ind) = Nat.leb 26 i
  /\ present (bollingerUpper ind) = Nat.leb 20 i
  /\ present (bollingerMiddle ind) = Nat.leb 20 i
  /\ present (bollingerLower ind) = Nat.leb 20 i
  /\ present (bollingerBand ind) = Nat.leb 20 i
  /\ present (stochK ind) = Nat.leb 14 i
  /\ present (stochD ind) = Nat.leb 14 i
  /\ present (adx ind) = Nat.leb 14 i
  /\ present (atr ind) = Nat.leb 14 i
  /\ present (volumeRatio ind) = Nat.leb 20 i
  /\ present (volumeMA ind) = Nat.leb 20 i
  /\ present (obv ind) = Nat.leb 1 i.

(** The loop of [calculateAll] after [i] rounds has pushed [i] snapshots,
    the one at [k] built from candle [k]. *)
Definition pushed_so_far (candles : list Candle) (i : nat) (acc : list Indicator) : Prop :=
  List.length acc = i
  /\ forall k c, nth_error candles k = Some c -> (k < i)%nat ->
       exists ind, nth_error acc k = Some ind
                   /\ snapshot_aligned c ind /\ lookbacks_respected k ind.

(** Descending order of confidence, and the threshold of the detector. *)
Definition confidence_geq (a b : TradeSetup) : Prop :=
  (confidence a >=? confidence b)%num = true.

Definition above_threshold (threshold : num) (s : TradeSetup) : Prop :=
  (confidence s >=? threshold)%num = true
  /\ (confidence s <? threshold)%num = false.

Import TradeSetupDetector.

(** The candidates of one call, in the order the strategies push them. *)
Definition candidates (t m b p d : option TradeSetup) : list TradeSetup :=
  push_opt (push_opt (push_opt (push_opt (push_opt [] t) m) b) p) d.

(** Stop and target on the side of entry that the direction asks for. *)
Definition stop_on_correct_side (s : TradeSetup) : Prop :=
  (direction s = "LONG" -> (stopLoss s <? entry s)%num = true)
  /\ (direction s = "SHORT" -> (stopLoss s >? entry s)%num = true).

Definition target_on_correct_side (s : TradeSetup) : Prop :=
  (direction s = "LONG" -> (entry s <? takeProfit s)%num = true)
  /\ (direction s = "SHORT" -> (entry s >? takeProfit s)%num = true).

(** A candle whose close is a positive finite price between its finite low
    and high. *)
Definition well_formed_candle (c : Candle) : Prop :=
  exists lo cl hi : Q,
    c_low c = Fin lo /\ c_close c = Fin cl /\ c_high c = Fin hi
    /\ 0 < cl /\ lo <= cl /\ cl <= hi.

(** The ATR of a snapshot is missing or a non-negative finite number. *)
Definition atr_usable (ind : Indicator) : Prop :=
  atr ind = None \/ exists a : Q, atr ind = Some (Fin a) /\ 0 <= a.

(** The ATR of a snapshot is missing, zero (both make the strategies fall
    back to 2 percent of the price) or at least a millionth of the price: a
    distance that binary floating point does not lose against the price. *)
Definition atr_significant (price_ : Q) (ind : Indicator) : Prop :=
  atr ind = None
  \/ exists a : Q, atr ind = Some (Fin a) /\ (a == 0 \/ price_ <= a * 1000000).

(** The target of a mean-reversion setup: the Bollinger middle when the
    snapshot has a truthy one, else 2 percent beyond the price. *)
Definition mean_reversion_target (price_ : num) (ind : Indicator) (s : TradeSetup) : Prop :=
  takeProfit s
  = or_else (bollingerMiddle ind)
      (if String.eqb (direction s) "LONG"
       then (price_ * Fin 1.02)%num else (price_ * Fin 0.98)%num).

(** What the strategies guarantee of an emitted setup: the stop on the
    correct side; the target on the correct side unless the setup is a mean
    reversion, whose target is the Bollinger middle wherever that lies, and
    on the correct side when the fallback is used. *)
Definition sides_as_designed (price_ : num) (latest : Indicator) (s : TradeSetup) : Prop :=
  stop_on_correct_side s
  /\ (s_type s <> "MEAN_REVERSION" -> target_on_correct_side s)
  /\ (s_type s = "MEAN_REVERSION" ->
      mean_reversion_target price_ latest s
      /\ (truthy_opt (bollingerMiddle latest) = false -> target_on_correct_side s)).

(** The cap on confidence that four of the five strategies apply. *)
Definition capped (s : TradeSetup) : Prop :=
  (confidence s <=? Fin 0.95)%num = true.

(** [r] is what [Math.max] can return over values that include the finite
    [h]; [r] is what [Math.min] can return over values that include [l]. *)
Definition max_with (h : Q) (r : num) : Prop :=
  r = NaN \/ r = PInf \/ exists m : Q, r = Fin m /\ h <= m.

Definition min_with (l : Q) (r : num) : Prop :=
  r = NaN \/ r = NInf \/ exists m : Q, r = Fin m /\ m <= l.

(** An open position with finite entry, stop and quantity. *)
Definition position_of (t : Q * Q * Q) : RiskCalculator.OpenPosition :=
  let '(e, s, q) := t in
  {| RiskCalculator.pos_entry := Fin e;
     RiskCalculator.pos_stopLoss := Fin s;
     RiskCalculator.pos_quantity := Fin q |}.

(** The money at risk in a finite position, and over a list of them. *)
Definition risk_of (t : Q * Q * Q) : Q :=
  let '(e, s, q) := t in Qabs (e - s) * q.

Definition total_risk (ts : list (Q * Q * Q)) : Q :=
  fold_right (fun t acc => risk_of t + acc) 0 ts.

(** The ratio the risk calculator computes from a setup's three prices. *)
Definition real_ratio (s : TradeSetup) : num :=
  RiskCalculator.ratio
    (RiskCalculator.calculateRiskReward (entry s) (stopLoss s) (takeProfit s)).

(** What the risk calculator finds of a setup of the detector: its
    riskReward field is the constant 2.0; the ratio of its prices is 2 for a
    trend-following or divergence setup, and 4/3 for a mean reversion on the
    fallback target, which then never gets TAKE_TRADE. *)
Definition ratio_as_computed (latest : Indicator) (s : TradeSetup) : Prop :=
  riskReward s = Fin 2.0
  /\ (s_type s = "TREND_FOLLOWING" \/ s_type s = "DIVERGENCE" ->
      (real_ratio s ≈ Fin 2)%num)
  /\ (s_type s = "MEAN_REVERSION" -> truthy_opt (bollingerMiddle latest) = false ->
      (real_ratio s ≈ Fin (4 # 3))%num
      /\ forall position,
           RiskCalculator.action
             (RiskCalculator.getTradeRecommendation s
                (RiskCalculator.calculateRiskReward (entry s) (stopLoss s) (takeProfit s))
                position)
           <> RiskCalculator.TAKE_TRADE).

(** The sum of a finite series, and all its values within two bounds. *)
Definition Qsum (xs : list Q) : Q := fold_right Qplus 0 xs.

Definition all_within (lo hi : Q) (xs : list Q) : Prop :=
  Forall (fun x => lo <= x /\ x <= hi) xs.

(** A candle with finite low, close and high, the close between the two and
    within [[lo, hi]]. *)
Definition candle_within (lo hi : Q) (c : Candle) : Prop :=
  exists l cl h : Q,
    c_low c = Fin l /\ c_close c = Fin cl /\ c_high c = Fin h
    /\ l <= cl /\ cl <= h /\ lo <= cl /\ cl <= hi.

(** The same candle as three rationals (low, close, high). *)
Definition bar_low (b : Q * Q * Q) : Q := fst (fst b).
Definition bar_close (b : Q * Q * Q) : Q := snd (fst b).
Definition bar_high (b : Q * Q * Q) : Q := snd b.

Definition bar_within (lo hi : Q) (b : Q * Q * Q) : Prop :=
  bar_low b <= bar_close b /\ bar_close b <= bar_high b
  /\ lo <= bar_close b /\ bar_close b <= hi.

(** A property of a snapshot that, when present, is a finite number of
    [[lo, hi]]. *)
Definition finite_between (lo hi : Q) (v : option num) : Prop :=
  forall x, v = Some x -> exists q : Q, x = Fin q /\ lo <= q /\ q <= hi.

(** What a snapshot over candles of [candle_within lo hi] looks like: the
    moving averages stay within the closes, RSI and Stochastic within their
    scales, the ATR is usable. *)
Definition snapshot_sane (lo hi : Q) (ind : Indicator) : Prop :=
  finite_between lo hi (ema9 ind)
  /\ finite_between lo hi (ema20 ind)
  /\ finite_between lo hi (ema50 ind)
  /\ finite_between lo hi (sma20 ind)
  /\ finite_between lo hi (sma50 ind)
  /\ finite_between lo hi (sma200 ind)
  /\ finite_between lo hi (bollingerMiddle ind)
  /\ finite_between 0 100 (rsi ind)
  /\ finite_between 0 100 (stochK ind)
  /\ stochD ind = stochK ind
  /\ atr_usable ind.

(** Before index 34 the MACD signal is the MACD value itself. *)
Definition macd_signal_trivial (ind : Indicator) : Prop :=
  macdSignal ind = macd ind
  /\ forall h, macdHistogram ind = Some h -> (h ≈ Fin 0)%num.

(** Wilder's average gain of a finite series, as the specification words it:
    the gain of a change is the change when it is positive and 0 otherwise;
    the average starts as the mean of the first [period] gains and every
    further change smooths it as [(avg * (period - 1) + gain) / period]. *)
Definition positive_part (c : Q) : Q := if Qlt_le_dec 0 c then c else 0.

Definition gain_at (data : list Q) (i : nat) : Q :=
  positive_part (nth i data 0 - nth (i - 1) data 0).

Fixpoint gain_sum (data : list Q) (n : nat) : Q :=
  match n with
  | O => 0
  | S k => gain_sum data k + gain_at data (S k)
  end.

Fixpoint smoothed_gain (data : list Q) (period k : nat) : Q :=
  match k with
  | O => gain_sum data period / inject_Z (Z.of_nat period)
  | S j =>
      (smoothed_gain data period j * (inject_Z (Z.of_nat period) - 1)
       + gain_at data (period + 1 + j))
      / inject_Z (Z.of_nat period)
  end.

Definition wilder_gain (data : list Q) (period : nat) : Q :=
  smoothed_gain data period (List.length data - (period + 1)).

End Spec.

(* ================================================================== *)
(** ** Concrete inputs used by the examples below *)
(* ================================================================== *)

Module Examples.

Import RiskCalculator.

(** The documented trade: entry 42800, stop 42400, target 44000. *)
Definition doc_setup (conf : num) : TradeSetup :=
  {| s_type := "TREND_FOLLOWING";
     direction := "LONG";
     confidence := conf;
     entry := Fin 42800;
     stopLoss := Fin 42400;
     takeProfit := Fin 44000;
     riskReward := Fin 2.0;
     signals := ["Trending Market"];
     s_pattern := None;
     s_timestamp := 0%Z |}.

Definition doc_rr : RiskReward :=
  {| risk := Fin 400;
     reward := Fin 1200;
     ratio := Fin 3.0;
     riskPercent := Fin 0.93;
     rewardPercent := Fin 2.80 |}.

Definition doc_position : Position :=
  {| quantity := Fin 0.25;
     notionalValue := Fin 107000;
     riskAmount := Fin 100;
     stopDistance := Fin 400;
     stopPercent := Fin 0.93;
     leverage := Fin 11;
     maxLoss := Fin 100 |}.

End Examples.

Module RSIExamples.

Import TechnicalIndicators.

(** Fifteen closes rising by one: every change is a gain. *)
Definition rising15 : list Q :=
  map (fun n => inject_Z (Z.of_nat n)) (seq 1 15).

(** Fifteen closes falling by one: every change is a loss. *)
Definition falling15 : list Q :=
  map (fun n => inject_Z (Z.of_nat (20 - n))) (seq 1 15).

End RSIExamples.

Module CandleExamples.

(** A flat candle at price [p] stamped [t]. *)
Definition flat (t : nat) (p : Q) : Candle :=
  {| c_timestamp := Z.of_nat t;
     c_open := Fin p; c_high := Fin p; c_low := Fin p; c_close := Fin p;
     c_volume := Fin 1 |}.

(** Fifty candles, closes 100, 101, ..., 149. *)
Definition candles50 : list Candle :=
  map (fun n => flat n (inject_Z (Z.of_nat (100 + n)))) (seq 0 50).

(** A single candle: too short for the indicator engine. *)
Definition candles1 : list Candle := [flat 0 100].

End CandleExamples.

Module MarketExamples.

Import CandleExamples.

(** A snapshot that only has the properties the strategies read. *)
Definition indicator_of (p : Q) (rsi_ band middle atr_ : option num)
    (e9 e20 e50 macd_ signal_ : option num) : Indicator :=
  {| timestamp := 0%Z; price := Fin p;
     ema9 := e9; ema20 := e20; ema50 := e50;
     sma20 := None; sma50 := None; sma200 := None;
     rsi := rsi_;
     macd := macd_; macdSignal := signal_; macdHistogram := None;
     bollingerUpper := None; bollingerMiddle := middle; bollingerLower := None;
     bollingerBand := band;
     stochK := None; stochD := None; adx := None; atr := atr_;
     volumeRatio := None; volumeMA := None; obv := None |}.

(** Oversold at the lower band, with the Bollinger middle above the price. *)
Definition oversold : Indicator :=
  indicator_of 100 (Some (Fin 20)) (Some (Fin 0.05)) (Some (Fin 104)) (Some (Fin 1.5))
    None None None None None.

(** Oversold while the price is already above the Bollinger middle. *)
Definition oversold_above_middle : Indicator :=
  indicator_of 100 (Some (Fin 20)) (Some (Fin 0.6)) (Some (Fin 90)) (Some (Fin 1.5))
    None None None None None.

(** Oversold at the lower band, the snapshot without a Bollinger middle or
    an ATR. *)
Definition oversold_no_middle : Indicator :=
  indicator_of 100 (Some (Fin 20)) (Some (Fin 0.05)) None None
    None None None None None.

(** Every trend signal bullish. *)
Definition bullish_trend : Indicator :=
  indicator_of 100 (Some (Fin 55)) (Some (Fin 0.6)) (Some (Fin 98)) (Some (Fin 1.5))
    (Some (Fin 101)) (Some (Fin 99)) (Some (Fin 97)) (Some (Fin 2)) (Some (Fin 1)).

Definition double_bottom : Pattern :=
  {| p_type := "DOUBLE_BOTTOM"; p_direction := "BULLISH"; p_confidence := Fin 0.70;
     p_level := Some (Fin 98); p_target := Some (Fin 110); p_timestamp := 0%Z |}.

Definition bullish_engulfing : Pattern :=
  {| p_type := "BULLISH_ENGULFING"; p_direction := "BULLISH"; p_confidence := Fin 0.70;
     p_level := None; p_target := None; p_timestamp := 0%Z |}.

(** A head and shoulders as the pattern engine reports it: a neckline and
    a target, no level. *)
Definition head_and_shoulders : Pattern :=
  {| p_type := "HEAD_AND_SHOULDERS"; p_direction := "BEARISH"; p_confidence := Fin 0.75;
     p_level := None; p_target := Some (Fin 90); p_timestamp := 0%Z |}.

Definition sure_long : Prediction :=
  {| pr_direction := "LONG"; pr_confidence := Fin 1 |}.

Definition trending : Regime := {| regime := "BULLISH_TRENDING" |}.
Definition ranging : Regime := {| regime := "RANGING" |}.

End MarketExamples.

(* ================================================================== *)
(** * Properties *)
(* ================================================================== *)

(** ** Numbers *)

Section NumFacts.

Local Open Scope Q_scope.

Lemma Qeq_bool_false_iff (a b : Q) : Qeq_bool a b = false <-> ~ a == b.
Proof.
  split.
  - apply Qeq_bool_neq.
  - intro H. destruct (Qeq_bool a b) eqn:E; [|reflexivity].
    apply Qeq_bool_iff in E. contradiction.
Qed.

Lemma Qcompare_Gt_iff (a b : Q) : (a ?= b) = Gt <-> b < a.
Proof. rewrite Qgt_alt. tauto. Qed.

Lemma ltb_Fin (a b : Q) : (Fin a <? Fin b)%num = true <-> a < b.
Proof.
  unfold ltb; simpl. rewrite Qlt_alt.
  destruct (a ?= b); split; congruence.
Qed.

Lemma leb_Fin (a b : Q) : (Fin a <=? Fin b)%num = true <-> a <= b.
Proof.
  unfold leb; simpl. rewrite Qle_alt.
  destruct (a ?= b); split; try congruence; intros; exfalso; auto.
Qed.

Lemma gtb_Fin (a b : Q) : (Fin a >? Fin b)%num = true <-> b < a.
Proof. unfold gtb. apply ltb_Fin. Qed.

Lemma geb_Fin (a b : Q) : (Fin a >=? Fin b)%num = true <-> b <= a.
Proof. unfold geb. apply leb_Fin. Qed.

Lemma ltb_Fin_false (a b : Q) : (Fin a <? Fin b)%num = false <-> b <= a.
Proof.
  rewrite <- Bool.not_true_iff_false, ltb_Fin. split; [apply Qnot_lt_le | apply Qle_not_lt].
Qed.

Lemma gtb_Fin_false (a b : Q) : (Fin a >? Fin b)%num = false <-> a <= b.
Proof. unfold gtb. apply ltb_Fin_false. Qed.

Lemma add_Fin (a b : Q) : (Fin a + Fin b)%num = Fin (a + b).
Proof. reflexivity. Qed.

Lemma sub_Fin (a b : Q) : (Fin a - Fin b)%num = Fin (a - b).
Proof. reflexivity. Qed.

Lemma mul_Fin (a b : Q) : (Fin a * Fin b)%num = Fin (a * b).
Proof. reflexivity. Qed.

Lemma abs_Fin (a : Q) : abs (Fin a) = Fin (Qabs a).
Proof. reflexivity. Qed.

Lemma div_Fin (a b : Q) : ~ b == 0 -> (Fin a / Fin b)%num = Fin (a / b).
Proof.
  intro Hb. unfold div. apply Qeq_bool_false_iff in Hb. rewrite Hb. reflexivity.
Qed.

Lemma div_Fin_zero (a b : Q) :
  b == 0 ->
  (Fin a / Fin b)%num = match a ?= 0 with Eq => NaN | Gt => PInf | Lt => NInf end.
Proof.
  intro Hb. unfold div. apply Qeq_bool_iff in Hb. rewrite Hb. reflexivity.
Qed.

Lemma Qabs_zero_iff (a : Q) : Qabs a == 0 <-> a == 0.
Proof.
  split; intro H.
  - assert (Hle : Qabs a <= 0) by (rewrite H; apply Qle_refl).
    apply Qabs_Qle_condition in Hle. lra.
  - rewrite H. reflexivity.
Qed.

End NumFacts.

(** ** risk-calculator.js *)

Section RiskCalculatorFacts.

Import RiskCalculator Examples.
Local Open Scope Q_scope.

(** The Kelly value on finite inputs with non-zero averages is the formula
    of the source comment, clamped to the unit interval and scaled; the half
    Kelly halves the value before the clamp. *)
Lemma calculateKellyCriterion_formula (w g l : Q) :
  ~ g == 0 -> ~ l == 0 ->
  let k := Fin (w / l - (1 - w) / g) in
  fullKelly (calculateKellyCriterion (Fin w) (Fin g) (Fin l))
    = (max (Fin 0) (min (Fin 1) k) * Fin 100)%num
  /\ halfKelly (calculateKellyCriterion (Fin w) (Fin g) (Fin l))
    = (max (Fin 0) (min (Fin 1) (k * Fin 0.5)) * Fin 100)%num.
Proof.
  intros Hg Hl k. unfold calculateKellyCriterion, k; simpl.
  apply Qeq_bool_false_iff in Hg, Hl. rewrite Hg, Hl. simpl. split; reflexivity.
Qed.

(** C5, as stated, fails: the worked example does not come out near 15 and
    7.5 percent. *)
Lemma calculateKellyCriterion_not_15_percent :
  ~ (exists f h : Q,
        fullKelly (calculateKellyCriterion (Fin 0.55) (Fin 0.025) (Fin 0.01)) = Fin f
        /\ halfKelly (calculateKellyCriterion (Fin 0.55) (Fin 0.025) (Fin 0.01)) = Fin h
        /\ 14 <= f <= 16 /\ 6.5 <= h <= 8.5).
Proof.
  intros (f & h & Hf & Hh & [Hf1 Hf2] & _).
  vm_compute in Hf. injection Hf as <-.
  revert Hf2. vm_compute. intro H. apply H. reflexivity.
Qed.

(** C5 (amended): for winRate 0.55, avgWin 0.025 and avgLoss 0.01 the Kelly
    value winRate/avgLoss - (1 - winRate)/avgWin is 37; fullKelly is that
    value clamped to [0,1] times 100, which is 100, and halfKelly is half the
    value clamped to [0,1] times 100, which is 100 as well (the half is taken
    before the clamp, so it is not half of fullKelly). *)
Theorem calculateKellyCriterion_worked_example :
  let kelly := (Fin 0.55 / Fin 0.01 - (Fin 1 - Fin 0.55) / Fin 0.025)%num in
  let r := calculateKellyCriterion (Fin 0.55) (Fin 0.025) (Fin 0.01) in
  (kelly ≈ Fin 37)%num
  /\ fullKelly r = (max (Fin 0) (min (Fin 1) kelly) * Fin 100)%num
  /\ halfKelly r = (max (Fin 0) (min (Fin 1) (kelly * Fin 0.5)) * Fin 100)%num
  /\ (fullKelly r ≈ Fin 100)%num
  /\ (halfKelly r ≈ Fin 100)%num.
Proof.
  cbv zeta. repeat split; try reflexivity; vm_compute; reflexivity.
Qed.

(** C6, as stated, fails: the score of the documented trade is not within a
    point of 91. *)
Lemma calculateTradeScore_not_91 :
  ~ (exists s : Q,
        calculateTradeScore (doc_setup (Fin 0.82)) doc_rr doc_position = Fin s
        /\ 90 <= s <= 92).
Proof.
  intros (s & Hs & Hlo & _).
  vm_compute in Hs. injection Hs as <-.
  revert Hlo. vm_compute. intro H. apply H. reflexivity.
Qed.

(** C6 (amended): for confidence 0.82, ratio 3.0, stopPercent 0.93 and
    leverage 11 the component formula gives
    32.8 + 30 + 15.35 + 0 = 78.15, inside the clamp to [0,100]. *)
Theorem calculateTradeScore_worked_example
    (setup : TradeSetup) (rr : RiskReward) (position : Position) :
  confidence setup = Fin 0.82 ->
  ratio rr = Fin 3.0 ->
  stopPercent position = Fin 0.93 ->
  leverage position = Fin 11 ->
  (confidence setup * Fin 40 ≈ Fin 32.8)%num
  /\ (min (Fin 30) ((ratio rr / Fin 3) * Fin 30) ≈ Fin 30)%num
  /\ (max (Fin 0) (Fin 20 - stopPercent position * Fin 5) ≈ Fin 15.35)%num
  /\ (max (Fin 0) (Fin 10 - leverage position) ≈ Fin 0)%num
  /\ (calculateTradeScore setup rr position ≈ Fin 78.15)%num.
Proof.
  intros Hc Hr Hs Hl. unfold calculateTradeScore.
  rewrite Hc, Hr, Hs, Hl. repeat split; vm_compute; reflexivity.
Qed.

Lemma calculateTradeScore_worked_example_witness :
  (calculateTradeScore (doc_setup (Fin 0.82)) doc_rr doc_position ≈ Fin 78.15)%num.
Proof.
  apply (calculateTradeScore_worked_example (doc_setup (Fin 0.82)) doc_rr doc_position);
    reflexivity.
Defined.

(** C7, as stated, fails: with leverage 11 and confidence 0.5 the action
    is WAIT. *)
Lemma getTradeRecommendation_skip_not_terminal :
  ~ (forall setup rr position,
        (leverage position >? Fin 10)%num = true ->
        action (getTradeRecommendation setup rr position) = SKIP_TRADE).
Proof.
  intro H.
  specialize (H (doc_setup (Fin 0.5)) doc_rr doc_position eq_refl).
  vm_compute in H. discriminate H.
Qed.

(** C7 (amended): the checks run in source order and each one that fires
    overwrites the action, so with leverage above 10 the action is SKIP_TRADE
    exactly when the later confidence check does not fire, and WAIT when
    confidence is below 0.65. *)
Theorem getTradeRecommendation_leverage
    (setup : TradeSetup) (rr : RiskReward) (position : Position) :
  (leverage position >? Fin 10)%num = true ->
  action (getTradeRecommendation setup rr position)
    = if (confidence setup <? Fin 0.65)%num then WAIT else SKIP_TRADE.
Proof.
  intro Hlev. unfold getTradeRecommendation. rewrite Hlev.
  destruct (ratio rr <? Fin 1.5)%num, (stopPercent position >? Fin 3)%num,
    (confidence setup <? Fin 0.65)%num; reflexivity.
Qed.

Lemma getTradeRecommendation_leverage_witness :
  action (getTradeRecommendation (doc_setup (Fin 0.82)) doc_rr doc_position) = SKIP_TRADE
  /\ action (getTradeRecommendation (doc_setup (Fin 0.5)) doc_rr doc_position) = WAIT.
Proof.
  split.
  - apply (getTradeRecommendation_leverage (doc_setup (Fin 0.82)) doc_rr doc_position).
    reflexivity.
  - apply (getTradeRecommendation_leverage (doc_setup (Fin 0.5)) doc_rr doc_position).
    reflexivity.
Defined.

(** C9, as stated, fails: with entry = stopLoss = 100 and target 110 the
    call returns an ordinary record whose ratio is +Infinity, which the
    recommendation's R:R check accepts and the trade score rewards in full. *)
Lemma calculateRiskReward_zero_risk_not_rejected :
  let rr := calculateRiskReward (Fin 100) (Fin 100) (Fin 110) in
  (risk rr ≈ Fin 0)%num
  /\ (reward rr ≈ Fin 10)%num
  /\ ratio rr = PInf
  /\ ratio rr <> NaN
  /\ (ratio rr <? Fin 1.5)%num = false
  /\ (min (Fin 30) ((ratio rr / Fin 3) * Fin 30))%num = Fin 30.
Proof.
  cbv zeta. repeat split; try (vm_compute; reflexivity). vm_compute. discriminate.
Qed.

(** C9 (amended): on finite inputs the ratio is
    |takeProfit - entry| / |entry - stopLoss| when entry differs from
    stopLoss; when entry equals stopLoss nothing is rejected, the record is
    returned with risk 0 and the ratio is +Infinity, or NaN when takeProfit
    equals entry too. *)
Theorem calculateRiskReward_ratio (e s t : Q) :
  ratio (calculateRiskReward (Fin e) (Fin s) (Fin t))
    = if Qeq_bool e s
      then (if Qeq_bool t e then NaN else PInf)
      else Fin (Qabs (t - e) / Qabs (e - s)).
Proof.
  unfold calculateRiskReward, ratio.
  rewrite !sub_Fin, !abs_Fin.
  destruct (Qeq_bool e s) eqn:Hes.
  - apply Qeq_bool_iff in Hes.
    rewrite div_Fin_zero by (apply Qabs_zero_iff; lra).
    destruct (Qeq_bool t e) eqn:Hte.
    + apply Qeq_bool_iff in Hte.
      assert (Hr : Qabs (t - e) == 0) by (apply Qabs_zero_iff; lra).
      apply Qeq_alt in Hr. rewrite Hr. reflexivity.
    + apply Qeq_bool_false_iff in Hte.
      assert (Hr : 0 < Qabs (t - e)).
      { destruct (Qlt_le_dec 0 (Qabs (t - e))) as [Hlt|Hle]; [exact Hlt|].
        exfalso. apply Hte.
        assert (H0 : Qabs (t - e) == 0)
          by (apply Qle_antisym; [exact Hle | apply Qabs_nonneg]).
        apply -> Qabs_zero_iff in H0. lra. }
      apply Qcompare_Gt_iff in Hr. rewrite Hr. reflexivity.
  - apply Qeq_bool_false_iff in Hes.
    apply div_Fin. rewrite Qabs_zero_iff. intro H. apply Hes. lra.
Qed.

End RiskCalculatorFacts.

(** ** Loops *)

Section LoopFacts.

Variable A : Type.

Lemma for_range_empty (lo hi : nat) (body : nat -> A -> A) (acc : A) :
  hi <= lo -> for_range lo hi body acc = acc.
Proof.
  intro H. unfold for_range. replace (hi - lo) with 0 by lia. reflexivity.
Qed.

Lemma for_range_step (lo hi : nat) (body : nat -> A -> A) (acc : A) :
  lo < hi -> for_range lo hi body acc = for_range (S lo) hi body (body lo acc).
Proof.
  intro H. unfold for_range.
  replace (hi - lo) with (S (hi - S lo)) by lia. reflexivity.
Qed.

(** An invariant indexed by the loop counter holds at the exit. *)
Lemma for_range_invariant (P : nat -> A -> Prop) (lo hi : nat)
    (body : nat -> A -> A) (acc : A) :
  lo <= hi ->
  P lo acc ->
  (forall i a, lo <= i < hi -> P i a -> P (S i) (body i a)) ->
  P hi (for_range lo hi body acc).
Proof.
  intros Hle. remember (hi - lo) as n eqn:Hn.
  revert lo acc Hle Hn. induction n as [|n IH]; intros lo acc Hle Hn H0 Hstep.
  - rewrite for_range_empty by lia. replace hi with lo by lia. exact H0.
  - rewrite for_range_step by lia. apply IH; try lia.
    + apply Hstep; [lia | exact H0].
    + intros i a Hi. apply Hstep. lia.
Qed.

(** A loop that pushes [mk i] whenever [test i] holds appends the images of
    the indices that pass, in order. *)
Lemma for_range_push (B : Type) (lo hi : nat) (test : nat -> bool) (mk : nat -> B)
    (acc : list B) :
  for_range lo hi (fun i acc => if test i then acc ++ [mk i] else acc) acc
    = acc ++ map mk (filter test (seq lo (hi - lo))).
Proof.
  unfold for_range. generalize (hi - lo) as n. intro n.
  revert lo acc. induction n as [|n IH]; intros lo acc; simpl.
  - now rewrite app_nil_r.
  - rewrite IH. destruct (test lo); simpl.
    + now rewrite <- app_assoc.
    + reflexivity.
Qed.

End LoopFacts.

(** ** Swing extraction *)

Section SwingFacts.

Import TechnicalIndicators PatternRecognition.

Lemma findPeaks_spec (data : list num) (period : nat) :
  findPeaks data period
    = map (fun i => {| index := i; value := get data i |})
          (filter (isPeak data period)
                  (seq period (List.length data - period - period))).
Proof. unfold findPeaks. now rewrite for_range_push. Qed.

Lemma findTroughs_spec (data : list num) (period : nat) :
  findTroughs data period
    = map (fun i => {| index := i; value := get data i |})
          (filter (isTrough data period)
                  (seq period (List.length data - period - period))).
Proof. unfold findTroughs. now rewrite for_range_push. Qed.

Lemma findSwingHighs_spec (data : list num) (period : nat) :
  findSwingHighs data period
    = map (get data)
          (filter (isSwingHigh data period)
                  (seq period (List.length data - period - period))).
Proof. unfold findSwingHighs. now rewrite for_range_push. Qed.

Lemma findSwingLows_spec (data : list num) (period : nat) :
  findSwingLows data period
    = map (get data)
          (filter (isSwingLow data period)
                  (seq period (List.length data - period - period))).
Proof. unfold findSwingLows. now rewrite for_range_push. Qed.

Lemma swing_window_of_seq (data : list num) (period i : nat) :
  In i (seq period (List.length data - period - period)) ->
  in_swing_window data period i.
Proof. rewrite in_seq. unfold in_swing_window. lia. Qed.

Lemma extrema_in_window (data : list num) (period : nat) (test : nat -> bool) :
  Forall (fun p => in_swing_window data period (index p) /\ value p = get data (index p))
         (map (fun i => {| index := i; value := get data i |})
              (filter test (seq period (List.length data - period - period)))).
Proof.
  apply Forall_forall. intros p Hp.
  apply in_map_iff in Hp. destruct Hp as (i & <- & Hi).
  apply filter_In in Hi. destruct Hi as [Hi _]. simpl.
  split; [now apply swing_window_of_seq | reflexivity].
Qed.

(** C10: peaks and troughs are reported only at indices [i] with
    [period <= i <= length - period - 1] (so [i + period < length]: never
    within the last [period] positions), each with the value at its index;
    the swing highs and lows of the indicator library are exactly the values
    of those peaks and troughs, in the same order. *)
Theorem swing_extrema_only_inside_window (data : list num) (period : nat) :
  Forall (fun p => in_swing_window data period (index p) /\ value p = get data (index p))
         (findPeaks data period)
  /\ Forall (fun p => in_swing_window data period (index p) /\ value p = get data (index p))
            (findTroughs data period)
  /\ findSwingHighs data period = map value (findPeaks data period)
  /\ findSwingLows data period = map value (findTroughs data period).
Proof.
  repeat split.
  - rewrite findPeaks_spec. apply extrema_in_window.
  - rewrite findTroughs_spec. apply extrema_in_window.
  - rewrite findSwingHighs_spec, findPeaks_spec, map_map. reflexivity.
  - rewrite findSwingLows_spec, findTroughs_spec, map_map. reflexivity.
Qed.

(** A single spike at index 5 of twelve samples is the one peak (radius 5);
    a spike at index 10, inside the last five samples, is not reported. *)
Example findPeaks_spike :
  findPeaks (map of_nat [1; 2; 3; 4; 5; 9; 5; 4; 3; 2; 1; 0]) 5
    = [{| index := 5; value := of_nat 9 |}]
  /\ findSwingHighs (map of_nat [1; 2; 3; 4; 5; 9; 5; 4; 3; 2; 1; 0]) 5 = [of_nat 9]
  /\ findPeaks (map of_nat [1; 2; 3; 4; 5; 5; 5; 4; 3; 2; 9; 0]) 5 = [].
Proof. repeat split; vm_compute; reflexivity. Qed.

End SwingFacts.

(** ** RSI *)

Section RSIFacts.

Import TechnicalIndicators Spec.
Local Open Scope Q_scope.

Lemma get_map_Fin (data : list Q) (i : nat) :
  (i < List.length data)%nat -> get (map Fin data) i = Fin (nth i data 0).
Proof.
  intro Hi. unfold get.
  rewrite (nth_indep _ NaN (Fin 0)) by (now rewrite length_map).
  apply (map_nth Fin).
Qed.

Lemma of_nat_pos (n : nat) : (1 <= n)%nat -> 0 < inject_Z (Z.of_nat n).
Proof.
  intro Hn. change 0 with (inject_Z 0). rewrite <- Zlt_Qlt. lia.
Qed.

Lemma of_nat_ge_1 (n : nat) : (1 <= n)%nat -> 1 <= inject_Z (Z.of_nat n).
Proof.
  intro Hn. change 1 with (inject_Z 1). rewrite <- Zle_Qle. lia.
Qed.

Lemma Qdiv_nonneg (a b : Q) : 0 <= a -> 0 < b -> 0 <= a / b.
Proof. intros Ha Hb. apply Qle_shift_div_l; [exact Hb | lra]. Qed.

Lemma Qdiv_pos (a b : Q) : 0 < a -> 0 < b -> 0 < a / b.
Proof. intros Ha Hb. apply Qlt_shift_div_l; [exact Hb | lra]. Qed.

Lemma Qdiv_zero_l (a b : Q) : a == 0 -> a / b == 0.
Proof. intro Ha. rewrite Ha. unfold Qdiv. ring. Qed.

(** The last two lines of [RSI] on non-negative finite averages. *)
Lemma RSI_finish (g l : Q) :
  0 <= g -> 0 <= l ->
  exists r : Q,
    (Fin 100 - Fin 100 / (Fin 1 + Fin g / or_num (Fin l) (Fin 0.0001)))%num = Fin r
    /\ 0 <= r < 100
    /\ (g == 0 -> r == 0)
    /\ (0 < g -> 0 < r)
    /\ (l == 0 -> r == 100 - 100 / (1 + g / 0.0001)).
Proof.
  intros Hg Hl.
  assert (Hden : exists d, or_num (Fin l) (Fin 0.0001) = Fin d /\ 0 < d
                           /\ (l == 0 -> d = 0.0001)).
  { unfold or_num, truthy. destruct (Qeq_bool l 0) eqn:E; simpl.
    - exists 0.0001. split; [reflexivity|]. split; [reflexivity|]. reflexivity.
    - exists l. apply Qeq_bool_false_iff in E. split; [reflexivity|]. split.
      + destruct (Qlt_le_dec 0 l) as [H|H]; [exact H|]. exfalso. apply E. lra.
      + intro H. contradiction. }
  destruct Hden as (d & -> & Hd & Hd0).
  assert (Hx : 0 <= g / d) by (apply Qdiv_nonneg; assumption).
  rewrite div_Fin by lra. rewrite add_Fin.
  rewrite div_Fin by lra. rewrite sub_Fin.
  exists (100 - 100 / (1 + g / d)). split; [reflexivity|].
  assert (Hpos : 0 < 100 / (1 + g / d)) by (apply Qdiv_pos; lra).
  assert (Hle : 100 / (1 + g / d) <= 100) by (apply Qle_shift_div_r; lra).
  split; [split; lra|]. split; [|split].
  - intro H0. rewrite (Qdiv_zero_l d H0). reflexivity.
  - intro Hgp.
    assert (Hxp : 0 < g / d) by (apply Qdiv_pos; assumption).
    assert (Hlt : 100 / (1 + g / d) < 100) by (apply Qlt_shift_div_r; lra).
    lra.
  - intro H0. rewrite (Hd0 H0). reflexivity.
Qed.

Section Series.

Variable data : list Q.
Variable period : nat.
Hypothesis Hperiod : (1 <= period)%nat.
Hypothesis Hlen : (period + 1 <= List.length data)%nat.

Lemma change_Fin (i : nat) :
  (1 <= i < List.length data)%nat ->
  (get (map Fin data) i - get (map Fin data) (i - 1))%num
    = Fin (nth i data 0 - nth (i - 1) data 0).
Proof.
  intros Hi. rewrite !get_map_Fin by lia. reflexivity.
Qed.

Lemma gainLossStep_ok (i : nat) (acc : num * num) (strict : bool) :
  (1 <= i < List.length data)%nat ->
  averages_ok data strict acc ->
  averages_ok data true (gainLossStep (map Fin data) i acc).
Proof.
  intros Hi (g & l & -> & Hg & Hl & Hloss & Hgain).
  unfold gainLossStep. rewrite change_Fin by exact Hi.
  set (c := nth i data 0 - nth (i - 1) data 0).
  destruct (Fin c >? Fin 0)%num eqn:E.
  - apply gtb_Fin in E. exists (g + c), l. rewrite add_Fin.
    split; [reflexivity|]. split; [lra|]. split; [lra|]. split.
    + intro HL. specialize (HL i Hi). unfold c in E. lra.
    + intro HG. split; [now apply Hgain | intros _; lra].
  - apply gtb_Fin_false in E. exists g, (l - c). rewrite sub_Fin.
    split; [reflexivity|]. split; [lra|]. split; [lra|]. split.
    + exact Hloss.
    + intro HG. specialize (HG i Hi). unfold c in E. lra.
Qed.

Lemma wilderStep_ok (i : nat) (acc : num * num) :
  (1 <= i < List.length data)%nat ->
  averages_ok data true acc ->
  averages_ok data true (wilderStep (map Fin data) period i acc).
Proof.
  intros Hi (g & l & -> & Hg & Hl & Hloss & Hgain).
  pose proof (of_nat_pos Hperiod) as Hp.
  pose proof (of_nat_ge_1 Hperiod) as Hp1.
  unfold wilderStep. rewrite change_Fin by exact Hi.
  set (c := nth i data 0 - nth (i - 1) data 0).
  unfold of_nat. set (P := inject_Z (Z.of_nat period)) in *.
  rewrite !sub_Fin, !mul_Fin.
  destruct (Fin c >? Fin 0)%num eqn:E.
  - apply gtb_Fin in E. rewrite add_Fin, !div_Fin by lra.
    exists ((g * (P - 1) + c) / P), (l * (P - 1) / P).
    assert (0 <= g * (P - 1)) by (apply Qmult_le_0_compat; lra).
    assert (0 <= l * (P - 1)) by (apply Qmult_le_0_compat; lra).
    split; [reflexivity|].
    split; [apply Qdiv_nonneg; lra|]. split; [apply Qdiv_nonneg; lra|]. split.
    + intro HL. specialize (HL i Hi). unfold c in E. lra.
    + intro HG. split.
      * apply Qdiv_zero_l. destruct (Hgain HG) as [Hl0 _]. rewrite Hl0. ring.
      * intros _. apply Qdiv_pos; lra.
  - apply gtb_Fin_false in E. rewrite sub_Fin, !div_Fin by lra.
    exists (g * (P - 1) / P), ((l * (P - 1) - c) / P).
    assert (0 <= g * (P - 1)) by (apply Qmult_le_0_compat; lra).
    assert (0 <= l * (P - 1)) by (apply Qmult_le_0_compat; lra).
    split; [reflexivity|].
    split; [apply Qdiv_nonneg; lra|]. split; [apply Qdiv_nonneg; lra|]. split.
    + intro HL. apply Qdiv_zero_l. rewrite (Hloss HL). ring.
    + intro HG. specialize (HG i Hi). unfold c in E. lra.
Qed.

(** [RSI] on a finite series that is long enough: the value is finite and
    lies in [0, 100). *)
Lemma RSI_finite_series :
  exists r : Q,
    RSI (map Fin data) period = Fin r
    /\ 0 <= r < 100
    /\ (all_losses data -> r == 0)
    /\ (all_gains data -> 0 < r).
Proof.
  pose proof (of_nat_pos Hperiod) as Hp.
  unfold RSI. rewrite length_map.
  replace (Nat.ltb (List.length data) (period + 1)) with false
    by (symmetry; apply Nat.ltb_ge; lia).
  assert (H1 : averages_ok data true
                 (for_range 1 (period + 1) (gainLossStep (map Fin data)) (Fin 0, Fin 0))).
  { rewrite for_range_step by lia.
    apply (for_range_invariant (fun _ acc => averages_ok data true acc)); [lia| |].
    - apply gainLossStep_ok with (strict := false); [lia|].
      exists 0, 0. split; [reflexivity|]. split; [lra|]. split; [lra|]. split.
      + intros _. reflexivity.
      + intros _. split; [reflexivity | discriminate].
    - intros i a Hi Ha. apply gainLossStep_ok with (strict := true); [lia | exact Ha]. }
  destruct (for_range 1 (period + 1) _ _) as [gains losses].
  destruct H1 as (g & l & [= -> ->] & Hg & Hl & Hloss & Hgain).
  unfold of_nat at 1 2. rewrite !div_Fin by lra.
  assert (H2 : averages_ok data true
                 (for_range (period + 1) (List.length data)
                    (wilderStep (map Fin data) period)
                    (Fin (g / inject_Z (Z.of_nat period)),
                     Fin (l / inject_Z (Z.of_nat period))))).
  { apply (for_range_invariant (fun _ acc => averages_ok data true acc)); [lia| |].
    - eexists _, _. split; [reflexivity|].
      split; [apply Qdiv_nonneg; lra|]. split; [apply Qdiv_nonneg; lra|]. split.
      + intro HL. apply Qdiv_zero_l. auto.
      + intro HG. split.
        * apply Qdiv_zero_l. now apply Hgain.
        * intros _. apply Qdiv_pos; [|exact Hp]. now apply Hgain.
    - intros i a Hi Ha. apply wilderStep_ok; [lia | exact Ha]. }
  destruct (for_range (period + 1) _ _ _) as [avgGain avgLoss].
  destruct H2 as (g' & l' & [= -> ->] & Hg' & Hl' & Hloss' & Hgain').
  destruct (RSI_finish Hg' Hl') as (r & Hr & Hrange & Hzero & Hposr & _).
  exists r. split; [exact Hr|]. split; [exact Hrange|]. split.
  - intro HL. apply Hzero. auto.
  - intro HG. apply Hposr. now apply Hgain'.
Qed.

Lemma gainLossStep_gain (i : nat) (acc : num * num) (g : Q) :
  (1 <= i < List.length data)%nat ->
  fst acc = Fin g ->
  exists g' : Q,
    fst (gainLossStep (map Fin data) i acc) = Fin g' /\ g' == g + gain_at data i.
Proof.
  intros Hi Hg. destruct acc as [a b]. cbn [fst] in Hg. subst a.
  unfold gainLossStep. rewrite change_Fin by exact Hi.
  unfold gain_at, positive_part.
  set (c := nth i data 0 - nth (i - 1) data 0).
  destruct (Fin c >? Fin 0)%num eqn:E.
  - apply gtb_Fin in E. cbn [fst]. rewrite add_Fin.
    eexists. split; [reflexivity|].
    destruct (Qlt_le_dec 0 c); [reflexivity | lra].
  - apply gtb_Fin_false in E. cbn [fst].
    exists g. split; [reflexivity|].
    destruct (Qlt_le_dec 0 c); lra.
Qed.

Lemma wilderStep_gain (i : nat) (acc : num * num) (g : Q) :
  (1 <= i < List.length data)%nat ->
  fst acc = Fin g ->
  exists g' : Q,
    fst (wilderStep (map Fin data) period i acc) = Fin g'
    /\ g' == (g * (inject_Z (Z.of_nat period) - 1) + gain_at data i)
             / inject_Z (Z.of_nat period).
Proof.
  intros Hi Hg. destruct acc as [a b]. cbn [fst] in Hg. subst a.
  pose proof (of_nat_pos Hperiod) as Hp.
  unfold wilderStep. rewrite change_Fin by exact Hi.
  unfold gain_at, positive_part.
  set (c := nth i data 0 - nth (i - 1) data 0).
  unfold of_nat. set (P := inject_Z (Z.of_nat period)) in *.
  rewrite !sub_Fin, !mul_Fin.
  destruct (Fin c >? Fin 0)%num eqn:E.
  - apply gtb_Fin in E. cbn [fst]. rewrite add_Fin, div_Fin by lra.
    eexists. split; [reflexivity|].
    destruct (Qlt_le_dec 0 c); [reflexivity | lra].
  - apply gtb_Fin_false in E. cbn [fst]. rewrite div_Fin by lra.
    eexists. split; [reflexivity|].
    destruct (Qlt_le_dec 0 c); [lra|].
    unfold Qdiv. ring.
Qed.

(** The first component of the two loops of [RSI] is Wilder's average
    gain. *)
Lemma RSI_average_gain :
  exists g : Q,
    fst (for_range (period + 1) (List.length data) (wilderStep (map Fin data) period)
           (let '(gains, losses) :=
              for_range 1 (period + 1) (gainLossStep (map Fin data)) (Fin 0, Fin 0) in
            ((gains / of_nat period)%num, (losses / of_nat period)%num)))
      = Fin g
    /\ g == wilder_gain data period.
Proof.
  pose proof (of_nat_pos Hperiod) as Hp.
  assert (H1 : exists g : Q,
             fst (for_range 1 (period + 1) (gainLossStep (map Fin data)) (Fin 0, Fin 0))
               = Fin g
             /\ g == gain_sum data (period + 1 - 1)).
  { apply (@for_range_invariant (num * num)
             (fun i acc => exists g : Q, fst acc = Fin g /\ g == gain_sum data (i - 1))).
    - lia.
    - exists 0. split; reflexivity.
    - intros i acc Hi (g & Hacc & Hg).
      destruct (@gainLossStep_gain i acc g) as (g' & Hacc' & Hg'); [lia | exact Hacc |].
      exists g'. split; [exact Hacc'|].
      replace (S i - 1)%nat with (S (i - 1)) by lia.
      cbn [gain_sum]. replace (S (i - 1)) with i by lia.
      rewrite Hg', Hg. reflexivity. }
  destruct H1 as (g & Hfst & Hg).
  replace (period + 1 - 1)%nat with period in Hg by lia.
  destruct (for_range 1 (period + 1) _ _) as [gains losses].
  cbn [fst] in Hfst. subst gains.
  unfold of_nat at 1. rewrite div_Fin by lra.
  unfold wilder_gain.
  apply (@for_range_invariant (num * num)
           (fun i acc => exists a : Q,
              fst acc = Fin a /\ a == smoothed_gain data period (i - (period + 1)))).
  - exact Hlen.
  - eexists. split; [reflexivity|].
    rewrite Nat.sub_diag. cbn [smoothed_gain]. rewrite Hg. reflexivity.
  - intros i acc Hi (a & Hacc & Ha).
    destruct (@wilderStep_gain i acc a) as (a' & Hacc' & Ha'); [lia | exact Hacc |].
    exists a'. split; [exact Hacc'|].
    replace (S i - (period + 1))%nat with (S (i - (period + 1))) by lia.
    cbn [smoothed_gain].
    replace (period + 1 + (i - (period + 1)))%nat with i by lia.
    rewrite Ha', Ha. reflexivity.
Qed.

(** [RSI] on a finite series that is long enough, with its value on an
    all-gains series. *)
Lemma RSI_series_value :
  exists r : Q,
    RSI (map Fin data) period = Fin r
    /\ 0 <= r <= 100
    /\ (all_losses data -> r == 0)
    /\ (all_gains data ->
        r == 100 - 100 / (1 + wilder_gain data period / 0.0001)).
Proof.
  pose proof (of_nat_pos Hperiod) as Hp.
  destruct RSI_average_gain as (w & Hw & Hwg).
  revert Hw. unfold RSI. rewrite length_map.
  replace (Nat.ltb (List.length data) (period + 1)) with false
    by (symmetry; apply Nat.ltb_ge; lia).
  assert (H1 : averages_ok data true
                 (for_range 1 (period + 1) (gainLossStep (map Fin data)) (Fin 0, Fin 0))).
  { rewrite for_range_step by lia.
    apply (for_range_invariant (fun _ acc => averages_ok data true acc)); [lia| |].
    - apply gainLossStep_ok with (strict := false); [lia|].
      exists 0, 0. split; [reflexivity|]. split; [lra|]. split; [lra|]. split.
      + intros _. reflexivity.
      + intros _. split; [reflexivity | discriminate].
    - intros i a Hi Ha. apply gainLossStep_ok with (strict := true); [lia | exact Ha]. }
  destruct (for_range 1 (period + 1) _ _) as [gains losses].
  destruct H1 as (g & l & [= -> ->] & Hg & Hl & Hloss & Hgain).
  unfold of_nat at 1 2 3 4. rewrite !div_Fin by lra.
  assert (H2 : averages_ok data true
                 (for_range (period + 1) (List.length data)
                    (wilderStep (map Fin data) period)
                    (Fin (g / inject_Z (Z.of_nat period)),
                     Fin (l / inject_Z (Z.of_nat period))))).
  { apply (for_range_invariant (fun _ acc => averages_ok data true acc)); [lia| |].
    - eexists _, _. split; [reflexivity|].
      split; [apply Qdiv_nonneg; lra|]. split; [apply Qdiv_nonneg; lra|]. split.
      + intro HL. apply Qdiv_zero_l. auto.
      + intro HG. split.
        * apply Qdiv_zero_l. now apply Hgain.
        * intros _. apply Qdiv_pos; [|exact Hp]. now apply Hgain.
    - intros i a Hi Ha. apply wilderStep_ok; [lia | exact Ha]. }
  destruct (for_range (period + 1) _ _ _) as [avgGain avgLoss].
  destruct H2 as (g' & l' & [= -> ->] & Hg' & Hl' & Hloss' & Hgain').
  cbn [fst]. intros [= <-].
  destruct (RSI_finish Hg' Hl') as (r & Hr & [Hr0 Hr100] & Hzero & _ & Hvalue).
  exists r. split; [exact Hr|]. split; [split; lra|]. split.
  - intro HL. apply Hzero. auto.
  - intro HG. rewrite <- Hwg. apply Hvalue. now apply Hgain'.
Qed.

End Series.

(** C4, as stated, fails: on fifteen closes 1, 2, ..., 15 every change is
    a gain and RSI is 99.990001..., not 100. *)
Lemma RSI_all_gains_not_100 :
  all_gains RSIExamples.rising15
  /\ (RSI (map Fin RSIExamples.rising15) 14 ≈ Fin (14000000 # 140014))%num
  /\ ~ (RSI (map Fin RSIExamples.rising15) 14 ≈ Fin 100)%num.
Proof.
  split; [|split].
  - intros i [Hlo Hhi]. cbn in Hhi.
    do 15 (destruct i as [|i]; [try lia; reflexivity|]). lia.
  - vm_compute. reflexivity.
  - vm_compute. discriminate.
Qed.

(** Fifteen closes falling by one: every change is a loss and RSI is 0. *)
Example RSI_all_losses_is_0 :
  all_losses RSIExamples.falling15
  /\ (RSI (map Fin RSIExamples.falling15) 14 ≈ Fin 0)%num.
Proof.
  split.
  - intros i [Hlo Hhi]. cbn in Hhi.
    do 15 (destruct i as [|i]; [try lia; discriminate|]). lia.
  - vm_compute. reflexivity.
Qed.

(** C4 (amended): for every finite price series of length at least
    period + 1 (period at least 1, 14 by default), RSI lies in [0, 100]; it
    is exactly 0 when every consecutive change is a loss; when every
    consecutive change is a gain the zero average loss is replaced by
    0.0001 and the value is [100 - 100 / (1 + avgGain / 0.0001)], with
    [avgGain] Wilder's average gain. *)
Theorem RSI_bounds (data : list Q) (period : nat) :
  (1 <= period)%nat ->
  (period + 1 <= List.length data)%nat ->
  exists r : Q,
    RSI (map Fin data) period = Fin r
    /\ 0 <= r <= 100
    /\ (all_losses data -> r == 0)
    /\ (all_gains data ->
        r == 100 - 100 / (1 + wilder_gain data period / 0.0001)).
Proof.
  intros Hp Hlen. now apply RSI_series_value.
Qed.

Lemma RSI_bounds_witness :
  exists r : Q,
    RSI (map Fin RSIExamples.rising15) 14 = Fin r
    /\ 0 <= r <= 100
    /\ (all_losses RSIExamples.rising15 -> r == 0)
    /\ (all_gains RSIExamples.rising15 ->
        r == 100 - 100 / (1 + wilder_gain RSIExamples.rising15 14 / 0.0001)).
Proof.
  apply (@RSI_bounds RSIExamples.rising15 14); cbn; lia.
Defined.

End RSIFacts.

(** ** calculateAll *)

Section CalculateAllFacts.

Import TechnicalIndicators Spec CandleExamples.

Variable Math_sqrt : num -> num.

Lemma present_when (b : bool) (v : num) : present (when b v) = b.
Proof. destruct b; reflexivity. Qed.

Lemma snapshot_aligned_here (candles : list Candle) (closes highs lows volumes : list num)
    (i : nat) (c : Candle) (indicators : list Indicator) :
  snapshot_aligned c (snapshot Math_sqrt candles closes highs lows volumes i c indicators).
Proof. split; reflexivity. Qed.

Lemma snapshot_lookbacks (candles : list Candle) (closes highs lows volumes : list num)
    (i : nat) (c : Candle) (indicators : list Indicator) :
  lookbacks_respected i
    (snapshot Math_sqrt candles closes highs lows volumes i c indicators).
Proof.
  unfold lookbacks_respected, snapshot; cbn [ema9 ema20 ema50 sma20 sma50 sma200 rsi
    macd macdSignal macdHistogram bollingerUpper bollingerMiddle bollingerLower
    bollingerBand stochK stochD adx atr volumeRatio volumeMA obv].
  rewrite !present_when.
  repeat (split; [reflexivity|]).
  destruct i as [|i]; [reflexivity|].
  change (Nat.ltb 0 (S i)) with true. cbv iota.
  destruct (_ >? _)%num; [reflexivity|].
  destruct (_ <? _)%num; reflexivity.
Qed.

Lemma calculateAll_short (candles : list Candle) :
  List.length candles < 50 -> calculateAll Math_sqrt candles = [].
Proof.
  intro H. unfold calculateAll.
  apply Nat.ltb_lt in H. now rewrite H.
Qed.

Lemma calculateAll_long (candles : list Candle) :
  50 <= List.length candles ->
  pushed_so_far candles (List.length candles) (calculateAll Math_sqrt candles).
Proof.
  intro H. unfold calculateAll.
  replace (Nat.ltb (List.length candles) 50) with false
    by (symmetry; apply Nat.ltb_ge; exact H).
  apply (for_range_invariant (pushed_so_far candles)); [lia| |].
  - split; [reflexivity|]. intros k c _ Hk. lia.
  - intros i acc Hi [Hlen Hacc].
    destruct (nth_error candles i) as [c|] eqn:Hc.
    2:{ apply nth_error_None in Hc. lia. }
    split.
    + rewrite length_app. simpl. lia.
    + intros k c' Hk Hlt.
      destruct (Nat.eq_dec k i) as [->|Hne].
      * rewrite Hc in Hk. injection Hk as <-.
        rewrite nth_error_app2 by lia. rewrite Hlen, Nat.sub_diag. simpl.
        eexists. split; [reflexivity|]. split.
        -- apply snapshot_aligned_here.
        -- apply snapshot_lookbacks.
      * rewrite nth_error_app1 by lia. apply Hacc; [exact Hk | lia].
Qed.

End CalculateAllFacts.

Section CalculateAllClaim.

Import TechnicalIndicators Spec CandleExamples.

(** C3, as stated, fails: a single candle gives no snapshot at all. *)
Lemma calculateAll_not_one_per_candle :
  ~ (forall (Math_sqrt : num -> num) (candles : list Candle),
        List.length (calculateAll Math_sqrt candles) = List.length candles).
Proof.
  intro H. specialize (H (fun x => x) candles1). discriminate H.
Qed.

(** C3 (amended): for every sequence of at least 50 candles, calculateAll
    returns one snapshot per candle in input order: the lengths agree and
    snapshot i carries the timestamp and the close of candle i, with each
    property present exactly from the index its guard names (9, 14, 20, 26,
    50, 200; 1 for obv), so only once its lookback window is filled.  For
    fewer than 50 candles the result is the empty sequence. *)
Theorem calculateAll_one_snapshot_per_candle
    (Math_sqrt : num -> num) (candles : list Candle) :
  (List.length candles < 50 -> calculateAll Math_sqrt candles = [])
  /\ (50 <= List.length candles ->
      List.length (calculateAll Math_sqrt candles) = List.length candles
      /\ forall i c, nth_error candles i = Some c ->
           exists ind, nth_error (calculateAll Math_sqrt candles) i = Some ind
                       /\ snapshot_aligned c ind /\ lookbacks_respected i ind).
Proof.
  split.
  - apply calculateAll_short.
  - intro H. destruct (@calculateAll_long Math_sqrt candles H) as [Hlen Hall].
    split; [exact Hlen|].
    intros i c Hc. apply Hall; [exact Hc|].
    apply nth_error_Some. rewrite Hc. discriminate.
Qed.

Lemma calculateAll_one_snapshot_per_candle_witness :
  calculateAll (fun x => x) candles1 = []
  /\ List.length (calculateAll (fun x => x) candles50) = List.length candles50
  /\ exists ind, nth_error (calculateAll (fun x => x) candles50) 30 = Some ind
                 /\ snapshot_aligned (flat 30 130) ind /\ lookbacks_respected 30 ind.
Proof.
  split; [|split].
  - apply (proj1 (calculateAll_one_snapshot_per_candle (fun x => x) candles1)).
    cbn. lia.
  - apply (proj2 (calculateAll_one_snapshot_per_candle (fun x => x) candles50)).
    cbn. lia.
  - apply (proj2 (calculateAll_one_snapshot_per_candle (fun x => x) candles50)).
    + cbn. lia.
    + reflexivity.
Defined.

End CalculateAllClaim.

(** ** Array.prototype.sort *)

Section NumOrder.

Local Open Scope Q_scope.

Lemma geb_not_nan (x y : num) : (x >=? y)%num = true -> x <> NaN /\ y <> NaN.
Proof.
  destruct x, y; unfold geb, leb; simpl; intro H; split; congruence.
Qed.

Lemma geb_trans (x y z : num) :
  (x >=? y)%num = true -> (y >=? z)%num = true -> (x >=? z)%num = true.
Proof.
  destruct x as [a| | |], y as [b| | |], z as [c| | |];
    try (unfold geb, leb; simpl; congruence).
  rewrite !geb_Fin. intros H1 H2. lra.
Qed.

(** [geb] and [ltb] exclude each other. *)
Lemma geb_ltb_false (x y : num) : (x >=? y)%num = true -> (x <? y)%num = false.
Proof.
  destruct x as [a| | |], y as [b| | |];
    try (unfold geb, leb, ltb; simpl; congruence).
  rewrite geb_Fin, ltb_Fin_false. auto.
Qed.

(** The comparator [b - a] is positive exactly when [b] is the larger one. *)
Lemma sign_sub_Gt (x y : num) :
  x <> NaN -> y <> NaN -> sign (y - x)%num = Gt -> (y >=? x)%num = true.
Proof.
  destruct x as [a| | |], y as [b| | |]; intros Hx Hy; try congruence;
    try (vm_compute; congruence).
  rewrite sub_Fin. unfold sign; simpl. intro H.
  apply Qcompare_Gt_iff in H. apply geb_Fin. lra.
Qed.

Lemma sign_sub_not_Gt (x y : num) :
  x <> NaN -> y <> NaN -> sign (y - x)%num <> Gt -> (x >=? y)%num = true.
Proof.
  destruct x as [a| | |], y as [b| | |]; intros Hx Hy; try congruence;
    try (vm_compute; congruence).
  rewrite sub_Fin. unfold sign; simpl. intro H.
  apply geb_Fin.
  destruct (Qlt_le_dec a b) as [Hlt|Hle]; [|exact Hle].
  exfalso. apply H. apply Qcompare_Gt_iff. lra.
Qed.

End NumOrder.

Section SortFacts.

Variable A : Type.
Variable key : A -> num.

Let cmp (a b : A) : num := (key b - key a)%num.
Let geq (a b : A) : Prop := (key a >=? key b)%num = true.

Lemma sort_insert_perm (c : A -> A -> num) (x : A) (xs : list A) :
  Permutation (sort_insert c x xs) (x :: xs).
Proof.
  induction xs as [|y ys IH]; simpl.
  - apply Permutation_refl.
  - destruct (sign (c x y)); try apply Permutation_refl.
    eapply perm_trans; [apply perm_skip, IH | apply perm_swap].
Qed.

Lemma array_sort_perm (c : A -> A -> num) (xs : list A) :
  Permutation (array_sort c xs) xs.
Proof.
  induction xs as [|x xs IH]; simpl.
  - apply perm_nil.
  - eapply perm_trans; [apply sort_insert_perm | apply perm_skip, IH].
Qed.

Lemma array_sort_In (c : A -> A -> num) (xs : list A) (z : A) :
  In z (array_sort c xs) <-> In z xs.
Proof.
  split; apply Permutation_in; [|apply Permutation_sym]; apply array_sort_perm.
Qed.

Lemma sort_insert_sorted (x : A) (xs : list A) :
  key x <> NaN ->
  Forall (fun y => key y <> NaN) xs ->
  StronglySorted geq xs ->
  StronglySorted geq (sort_insert cmp x xs).
Proof.
  intros Hx Hall Hs. induction Hs as [|y ys Hys IH Hy]; simpl.
  - constructor; constructor.
  - inversion Hall as [|? ? Hyn Hysn]; subst.
    destruct (sign (cmp x y)) eqn:E.
    + assert (Hxy : geq x y) by (apply sign_sub_not_Gt; auto; unfold cmp in E; congruence).
      constructor; [constructor; assumption|].
      constructor; [exact Hxy|].
      eapply Forall_impl; [|exact Hy]. intros z Hz. eapply geb_trans; eassumption.
    + assert (Hxy : geq x y) by (apply sign_sub_not_Gt; auto; unfold cmp in E; congruence).
      constructor; [constructor; assumption|].
      constructor; [exact Hxy|].
      eapply Forall_impl; [|exact Hy]. intros z Hz. eapply geb_trans; eassumption.
    + assert (Hyx : geq y x) by (apply sign_sub_Gt; auto).
      constructor; [apply IH; assumption|].
      apply Forall_forall. intros z Hz.
      apply (Permutation_in _ (sort_insert_perm cmp x ys)) in Hz.
      destruct Hz as [<-|Hz]; [exact Hyx|].
      rewrite Forall_forall in Hy. now apply Hy.
Qed.

Lemma array_sort_sorted (xs : list A) :
  Forall (fun y => key y <> NaN) xs ->
  StronglySorted geq (array_sort cmp xs).
Proof.
  induction 1 as [|x xs Hx Hxs IH]; simpl.
  - constructor.
  - apply sort_insert_sorted; [exact Hx| |exact IH].
    apply Forall_forall. intros z Hz. apply array_sort_In in Hz.
    rewrite Forall_forall in Hxs. now apply Hxs.
Qed.

End SortFacts.

(** ** trade-setup-detector.js *)

(** Destructs the scrutinee of every [let '(signals, score) := ... in]. *)
Ltac break_lets :=
  repeat match goal with
         | |- context [match ?E with pair _ _ => _ end] => destruct E
         end.

Section DetectorFacts.

Import TradeSetupDetector Spec.

Variable self : Detector.
Variable now : Z.

Lemma last_opt_nonempty (B : Type) (xs : list B) :
  xs <> [] -> exists x, last_opt xs = Some x.
Proof.
  intro H. unfold last_opt.
  destruct (nth_error xs (List.length xs - 1)) as [x|] eqn:E; [now exists x|].
  apply nth_error_None in E. destruct xs; [congruence | simpl in E; lia].
Qed.

Lemma last_close_Some (candles : list Candle) (c : Candle) :
  last_opt candles = Some c -> last_close candles = Return (c_close c).
Proof. intro H. unfold last_close. now rewrite H. Qed.

(** With a last candle to read, the three strategies that read it return. *)
Lemma detectTrendFollowing_returns (candles : list Candle) (c : Candle)
    (indicator : Indicator) (prediction : option Prediction) (rg : Regime) :
  last_opt candles = Some c ->
  exists r, detectTrendFollowing self now candles indicator prediction rg = Return r.
Proof.
  intro Hc. unfold detectTrendFollowing. break_lets.
  rewrite (@last_close_Some candles c Hc). simpl bind.
  destruct (_ >=? _)%num; eexists; reflexivity.
Qed.

Lemma detectBreakout_returns (candles : list Candle) (c : Candle)
    (indicator : Indicator) (patterns : list Pattern) :
  last_opt candles = Some c ->
  exists r, detectBreakout self now candles indicator patterns = Return r.
Proof.
  intro Hc. unfold detectBreakout.
  rewrite (@last_close_Some candles c Hc). simpl bind.
  destruct (negb _ && negb _); [eexists; reflexivity|].
  break_lets.
  destruct (_ >=? _)%num; eexists; reflexivity.
Qed.

Lemma detectDivergenceTrade_returns (candles : list Candle) (c : Candle)
    (indicators : list Indicator) :
  last_opt candles = Some c ->
  exists r, detectDivergenceTrade now candles indicators = Return r.
Proof.
  intro Hc. unfold detectDivergenceTrade.
  destruct (Nat.ltb _ 20); [eexists; reflexivity|].
  destruct (Nat.ltb _ 20); [eexists; reflexivity|].
  destruct (TechnicalIndicators.detectDivergence _ _ _); [|eexists; reflexivity].
  rewrite (@last_close_Some candles c Hc). simpl bind. eexists; reflexivity.
Qed.

Lemma analyzeMarket_returns (candles : list Candle) (indicators : list Indicator)
    (patterns : list Pattern) (prediction : option Prediction) (rg : Regime)
    (c : Candle) (latest : Indicator) :
  last_opt candles = Some c ->
  last_opt indicators = Some latest ->
  exists t b d,
    detectTrendFollowing self now candles latest prediction rg = Return t
    /\ detectBreakout self now candles latest patterns = Return b
    /\ detectDivergenceTrade now candles indicators = Return d
    /\ exists det,
        analyzeMarket self now candles indicators patterns prediction rg
        = Return (det,
            array_sort (fun a b => (confidence b - confidence a)%num)
              (filter (fun s => (confidence s >=? minConfidence self)%num)
                 (candidates t
                    (detectMeanReversion self now (c_close c) latest patterns)
                    b
                    (detectPatternTrade self now patterns latest prediction)
                    d)))
        /\ activeSetups det
           = array_sort (fun a b => (confidence b - confidence a)%num)
              (filter (fun s => (confidence s >=? minConfidence self)%num)
                 (candidates t
                    (detectMeanReversion self now (c_close c) latest patterns)
                    b
                    (detectPatternTrade self now patterns latest prediction)
                    d)).
Proof.
  intros Hc Hi.
  destruct (@detectTrendFollowing_returns candles c latest prediction rg Hc) as [t Ht].
  destruct (@detectBreakout_returns candles c latest patterns Hc) as [b Hb].
  destruct (@detectDivergenceTrade_returns candles c indicators Hc) as [d Hd].
  exists t, b, d. repeat split; try assumption.
  unfold analyzeMarket. rewrite (@last_close_Some candles c Hc). simpl bind.
  rewrite Hi, Ht. simpl bind. rewrite Hb. simpl bind. rewrite Hd. simpl bind.
  eexists. split; reflexivity.
Qed.

Lemma candidates_In (t m b p d : option TradeSetup) (s : TradeSetup) :
  In s (candidates t m b p d) ->
  t = Some s \/ m = Some s \/ b = Some s \/ p = Some s \/ d = Some s.
Proof.
  unfold candidates, push_opt.
  destruct t, m, b, p, d; simpl; intro H; repeat (rewrite in_app_iff in H; simpl in H);
    intuition (subst; auto).
Qed.

End DetectorFacts.

Section AnalyzeMarketClaims.

Import TradeSetupDetector Spec CandleExamples MarketExamples.

(** Without a last candle or a latest indicator to read, the call throws. *)
Lemma analyzeMarket_throws
    (self : Detector) (now : Z) (candles : list Candle) (indicators : list Indicator)
    (patterns : list Pattern) (prediction : option Prediction) (rg : Regime) :
  candles = [] \/ indicators = [] ->
  analyzeMarket self now candles indicators patterns prediction rg = TypeError.
Proof.
  intros [-> | ->]; unfold analyzeMarket.
  - reflexivity.
  - destruct (last_close candles); reflexivity.
Qed.

Example includes_pattern_families :
  includes "ASCENDING_TRIANGLE" "TRIANGLE" = true
  /\ includes "BULL_FLAG" "FLAG" = true
  /\ includes "DOUBLE_TOP" "FLAG" = false.
Proof. repeat split. Qed.

(** An oversold snapshot with a double bottom: the mean reversion
    (3.2 / 3.5) comes before the pattern trade (0.70 + 0.05). *)
Example analyzeMarket_two_setups :
  exists det s1 s2,
    analyzeMarket constructor 0%Z candles1 [oversold] [double_bottom] None ranging
      = Return (det, [s1; s2])
    /\ s_type s1 = "MEAN_REVERSION" /\ (confidence s1 ≈ Fin (32 # 35))%num
    /\ s_type s2 = "PATTERN_TRADE" /\ (confidence s2 ≈ Fin 0.75)%num.
Proof.
  do 3 eexists. split; [vm_compute; reflexivity|].
  cbn [s_type confidence]. repeat split; vm_compute; reflexivity.
Qed.

(** C2: for every input analyzeMarket either throws (exactly when there
    is no candle or no indicator to read) or returns; the detector keeps the
    returned sequence as its active setups, no returned setup has a
    confidence below minConfidence (each is at or above it), and the
    sequence is in descending order of confidence. *)
Theorem analyzeMarket_filtered_sorted
    (self : Detector) (now : Z) (candles : list Candle) (indicators : list Indicator)
    (patterns : list Pattern) (prediction : option Prediction) (rg : Regime) :
  (candles = [] \/ indicators = [] ->
   analyzeMarket self now candles indicators patterns prediction rg = TypeError)
  /\ (candles <> [] -> indicators <> [] ->
      exists det setups,
        analyzeMarket self now candles indicators patterns prediction rg
          = Return (det, setups)
        /\ activeSetups det = setups
        /\ Forall (above_threshold (minConfidence self)) setups
        /\ StronglySorted confidence_geq setups).
Proof.
  split; [apply analyzeMarket_throws|].
  intros Hc Hi.
  destruct (last_opt_nonempty Hc) as [c Hlast].
  destruct (last_opt_nonempty Hi) as [latest Hlatest].
  destruct (@analyzeMarket_returns self now candles indicators patterns prediction rg
              c latest Hlast Hlatest)
    as (t & b & d & _ & _ & _ & det & Hret & Hact).
  eexists det, _. split; [exact Hret|]. split; [exact Hact|].
  set (raw := candidates _ _ _ _ _).
  assert (Hkept : Forall (fun s => (confidence s >=? minConfidence self)%num = true)
                    (filter (fun s => (confidence s >=? minConfidence self)%num) raw)).
  { apply Forall_forall. intros s Hs. apply filter_In in Hs. tauto. }
  split.
  - apply Forall_forall. intros s Hs. apply array_sort_In in Hs.
    rewrite Forall_forall in Hkept. specialize (Hkept s Hs).
    split; [exact Hkept | now apply geb_ltb_false].
  - apply (@array_sort_sorted TradeSetup confidence).
    eapply Forall_impl; [|exact Hkept].
    intros s Hs. now apply geb_not_nan in Hs.
Qed.

Lemma analyzeMarket_filtered_sorted_witness :
  analyzeMarket constructor 0%Z [] [oversold] [double_bottom] None ranging = TypeError
  /\ exists det setups,
      analyzeMarket constructor 0%Z candles1 [oversold] [double_bottom] None ranging
        = Return (det, setups)
      /\ activeSetups det = setups
      /\ Forall (above_threshold (Fin 0.60)) setups
      /\ StronglySorted confidence_geq setups.
Proof.
  split.
  - apply (proj1 (@analyzeMarket_filtered_sorted constructor 0%Z [] [oversold]
                    [double_bottom] None ranging)).
    left. reflexivity.
  - apply (proj2 (@analyzeMarket_filtered_sorted constructor 0%Z candles1 [oversold]
                    [double_bottom] None ranging)); discriminate.
Defined.

End AnalyzeMarketClaims.

(** ** Stop and target sides *)

Section MinMaxFacts.

Import Spec.
Local Open Scope Q_scope.

Lemma max_keeps (h : Q) (acc x : num) : max_with h acc -> max_with h (max acc x).
Proof.
  intros [->|[->|(m & -> & Hm)]].
  - left. destruct x; reflexivity.
  - destruct x; [right; left| right; left | right; left | left]; reflexivity.
  - destruct x as [b| | |]; unfold max; simpl.
    + destruct (m ?= b) eqn:E; right; right.
      * exists m. split; [reflexivity | exact Hm].
      * exists b. split; [reflexivity|]. apply Qlt_alt in E. lra.
      * exists m. split; [reflexivity | exact Hm].
    + right; left; reflexivity.
    + right; right. exists m. split; [reflexivity | exact Hm].
    + left; reflexivity.
Qed.

Lemma max_takes (h : Q) (acc : num) : max_with h (max acc (Fin h)).
Proof.
  destruct acc as [a| | |]; unfold max; simpl.
  - destruct (a ?= h) eqn:E; right; right.
    + exists a. split; [reflexivity|]. apply Qeq_alt in E. lra.
    + exists h. split; [reflexivity|]. lra.
    + exists a. split; [reflexivity|]. apply Qcompare_Gt_iff in E. lra.
  - right; left; reflexivity.
  - right; right. exists h. split; [reflexivity|]. lra.
  - left; reflexivity.
Qed.

Lemma max_list_with (h : Q) (xs : list num) :
  In (Fin h) xs -> max_with h (max_list xs).
Proof.
  unfold max_list. generalize NInf as acc. induction xs as [|x xs IH]; intros acc Hin.
  - contradiction.
  - simpl. destruct Hin as [->|Hin].
    + clear IH. generalize (max_takes h acc). generalize (max acc (Fin h)) as r.
      induction xs as [|y ys IHy]; intros r Hr; simpl; [exact Hr|].
      apply IHy. now apply max_keeps.
    + now apply IH.
Qed.

Lemma min_keeps (l : Q) (acc x : num) : min_with l acc -> min_with l (min acc x).
Proof.
  intros [->|[->|(m & -> & Hm)]].
  - left. destruct x; reflexivity.
  - destruct x; [right; left| right; left | right; left | left]; reflexivity.
  - destruct x as [b| | |]; unfold min; simpl.
    + destruct (m ?= b) eqn:E; right; right.
      * exists m. split; [reflexivity | exact Hm].
      * exists m. split; [reflexivity | exact Hm].
      * exists b. split; [reflexivity|]. apply Qcompare_Gt_iff in E. lra.
    + right; right. exists m. split; [reflexivity | exact Hm].
    + right; left; reflexivity.
    + left; reflexivity.
Qed.

Lemma min_takes (l : Q) (acc : num) : min_with l (min acc (Fin l)).
Proof.
  destruct acc as [a| | |]; unfold min; simpl.
  - destruct (a ?= l) eqn:E; right; right.
    + exists a. split; [reflexivity|]. apply Qeq_alt in E. lra.
    + exists a. split; [reflexivity|]. apply Qlt_alt in E. lra.
    + exists l. split; [reflexivity|]. lra.
  - right; right. exists l. split; [reflexivity|]. lra.
  - right; left; reflexivity.
  - left; reflexivity.
Qed.

Lemma min_list_with (l : Q) (xs : list num) :
  In (Fin l) xs -> min_with l (min_list xs).
Proof.
  unfold min_list. generalize PInf as acc. induction xs as [|x xs IH]; intros acc Hin.
  - contradiction.
  - simpl. destruct Hin as [->|Hin].
    + clear IH. generalize (min_takes l acc). generalize (min acc (Fin l)) as r.
      induction xs as [|y ys IHy]; intros r Hr; simpl; [exact Hr|].
      apply IHy. now apply min_keeps.
    + now apply IH.
Qed.

(** The cap of [Math.min(0.95, x)]: a result that passes a [>=] test is at
    most the cap. *)
Lemma min_cap (cap : Q) (x threshold : num) :
  (min (Fin cap) x >=? threshold)%num = true ->
  (min (Fin cap) x <=? Fin cap)%num = true.
Proof.
  intro H. apply geb_not_nan in H. destruct H as [H _].
  destruct x as [b| | |]; unfold min in *; simpl in *; try congruence.
  - destruct (cap ?= b) eqn:E.
    + apply leb_Fin. lra.
    + apply leb_Fin. lra.
    + apply leb_Fin. apply Qcompare_Gt_iff in E. lra.
  - apply leb_Fin. lra.
  - reflexivity.
Qed.

End MinMaxFacts.

Section SliceFacts.

Variable B : Type.

Lemma last_in_slice_last (n : nat) (xs : list B) (x : B) :
  1 <= n -> last_opt xs = Some x -> In x (slice_last n xs).
Proof.
  intros Hn Hx. unfold last_opt in Hx. unfold slice_last.
  assert (Hlen : List.length xs <> 0).
  { intro H0. apply length_zero_iff_nil in H0. subst. discriminate Hx. }
  apply nth_error_In with (n := List.length xs - 1 - (List.length xs - n)).
  rewrite nth_error_skipn.
  replace (List.length xs - n + (List.length xs - 1 - (List.length xs - n)))
    with (List.length xs - 1) by lia.
  exact Hx.
Qed.

End SliceFacts.

Section StrategySides.

Import TradeSetupDetector Spec.
Local Open Scope Q_scope.

Variable self : Detector.
Variable now : Z.

Lemma or_else_atr (indicator : Indicator) (cl : Q) :
  atr_usable indicator -> 0 < cl ->
  exists a : Q, or_else (atr indicator) (Fin cl * Fin 0.02)%num = Fin a /\ 0 < a.
Proof.
  intros [Hnone|(a & Hsome & Ha)] Hcl.
  - rewrite Hnone. simpl. exists (cl * 0.02). split; [reflexivity | lra].
  - rewrite Hsome. unfold or_else, truthy.
    destruct (Qeq_bool a 0) eqn:E; simpl.
    + exists (cl * 0.02). split; [reflexivity | lra].
    + exists a. split; [reflexivity|].
      apply Qeq_bool_false_iff in E.
      destruct (Qlt_le_dec 0 a) as [H|H]; [exact H|]. exfalso. apply E. lra.
Qed.

Lemma or_else_falsy (v : option num) (d : num) :
  truthy_opt v = false -> or_else v d = d.
Proof.
  destruct v as [x|]; simpl; [|reflexivity]. now intros ->.
Qed.

(** Strategy 1 puts stop and target two and four ATR from a positive price. *)
Lemma detectTrendFollowing_sides (candles : list Candle) (c : Candle) (cl : Q)
    (indicator : Indicator) (prediction : option Prediction) (rg : Regime)
    (s : TradeSetup) :
  last_opt candles = Some c -> c_close c = Fin cl -> 0 < cl ->
  atr_usable indicator ->
  detectTrendFollowing self now candles indicator prediction rg = Return (Some s) ->
  s_type s = "TREND_FOLLOWING" /\ stop_on_correct_side s /\ target_on_correct_side s.
Proof.
  intros Hc Hcl Hpos Hatr. unfold detectTrendFollowing. break_lets.
  rewrite (@last_close_Some candles c Hc), Hcl. unfold bind; cbv beta iota.
  destruct (_ >=? _)%num; [|discriminate].
  destruct (or_else_atr Hatr Hpos) as (a & Ha & Hapos). rewrite Ha.
  intros [= <-]. cbn [s_type].
  split; [reflexivity|].
  unfold stop_on_correct_side, target_on_correct_side.
  cbn [direction stopLoss entry takeProfit].
  destruct (_ >? Fin 0)%num; cbn [String.eqb Ascii.eqb Bool.eqb];
    rewrite ?mul_Fin, ?add_Fin, ?sub_Fin;
    (split; split; intro Hd; try discriminate Hd).
  - apply ltb_Fin. lra.
  - apply ltb_Fin. lra.
  - apply gtb_Fin. lra.
  - apply gtb_Fin. lra.
Qed.

(** Strategy 2 puts the stop 1.5 percent from a positive price; its target is
    the Bollinger middle when there is one. *)
Lemma detectMeanReversion_sides (p : Q) (indicator : Indicator)
    (patterns : list Pattern) (s : TradeSetup) :
  0 < p ->
  detectMeanReversion self now (Fin p) indicator patterns = Some s ->
  s_type s = "MEAN_REVERSION"
  /\ stop_on_correct_side s
  /\ mean_reversion_target (Fin p) indicator s
  /\ (truthy_opt (bollingerMiddle indicator) = false -> target_on_correct_side s).
Proof.
  intros Hpos. unfold detectMeanReversion.
  destruct (if (_ <? Fin 30)%num then _ else _) as [[signals score]|]; [|discriminate].
  break_lets.
  destruct (_ >=? _)%num; [|discriminate].
  intros [= <-]. cbn [s_type].
  split; [reflexivity|].
  unfold stop_on_correct_side, target_on_correct_side, mean_reversion_target.
  cbn [direction stopLoss entry takeProfit].
  destruct (_ >? Fin 0)%num; cbn [String.eqb Ascii.eqb Bool.eqb];
    rewrite ?mul_Fin, ?add_Fin, ?sub_Fin.
  - split; [|split; [reflexivity|]].
    + split; intro Hd; [apply ltb_Fin; lra | discriminate Hd].
    + intro Hf. rewrite (@or_else_falsy _ _ Hf).
      split; intro Hd; [apply ltb_Fin; lra | discriminate Hd].
  - split; [|split; [reflexivity|]].
    + split; intro Hd; [discriminate Hd | apply gtb_Fin; lra].
    + intro Hf. rewrite (@or_else_falsy _ _ Hf).
      split; intro Hd; [discriminate Hd | apply gtb_Fin; lra].
Qed.

(** Strategy 3 compares the close with a 20-candle range that contains the
    last candle itself: on a well-formed last candle it cannot fire. *)
Lemma detectBreakout_none (candles : list Candle) (c : Candle)
    (indicator : Indicator) (patterns : list Pattern) :
  last_opt candles = Some c -> well_formed_candle c ->
  detectBreakout self now candles indicator patterns = Return None.
Proof.
  intros Hc (lo & cl & hi & Hlo & Hcl & Hhi & Hpos & Hlc & Hch).
  unfold detectBreakout. rewrite (@last_close_Some candles c Hc), Hcl. unfold bind; cbv beta iota.
  assert (Hin : In c (slice_last 20 candles))
    by (apply last_in_slice_last; [lia | exact Hc]).
  assert (Hmax : max_with hi (max_list (map c_high (slice_last 20 candles)))).
  { apply max_list_with. rewrite <- Hhi. now apply in_map. }
  assert (Hmin : min_with lo (min_list (map c_low (slice_last 20 candles)))).
  { apply min_list_with. rewrite <- Hlo. now apply in_map. }
  assert (Hhigh : (Fin cl >? max_list (map c_high (slice_last 20 candles)) * Fin 1.001)%num
                  = false).
  { destruct Hmax as [->|[->|(m & -> & Hm)]]; try reflexivity.
    rewrite mul_Fin. apply gtb_Fin_false. lra. }
  assert (Hlow : (Fin cl <? min_list (map c_low (slice_last 20 candles)) * Fin 0.999)%num
                 = false).
  { destruct Hmin as [->|[->|(m & -> & Hm)]]; try reflexivity.
    rewrite mul_Fin. apply ltb_Fin_false. lra. }
  rewrite Hhigh, Hlow. reflexivity.
Qed.

Lemma bestOf_In (first : Pattern) (rest : list Pattern) :
  In (bestOf first rest) (first :: rest).
Proof.
  unfold bestOf. revert first. induction rest as [|p ps IH]; intro first; simpl.
  - now left.
  - destruct (IH (if (p_confidence p >? p_confidence first)%num then p else first))
      as [H|H].
    + destruct (_ >? _)%num; rewrite <- H; simpl; auto.
    + right; right. exact H.
Qed.

(** Strategy 4 hands on the direction of the pattern it picked. *)
Lemma detectPatternTrade_direction (patterns : list Pattern) (indicator : Indicator)
    (prediction : option Prediction) (s : TradeSetup) :
  detectPatternTrade self now patterns indicator prediction = Some s ->
  s_type s = "PATTERN_TRADE"
  /\ exists p, In p patterns /\ direction s = p_direction p.
Proof.
  unfold detectPatternTrade. destruct patterns as [|first rest]; [discriminate|].
  destruct (_ <? _)%num; [discriminate|].
  break_lets.
  destruct (truthy_opt _); [|discriminate].
  intros [= <-]. cbn [s_type direction]. split; [reflexivity|].
  exists (bestOf first rest). split; [apply bestOf_In | reflexivity].
Qed.

(** Strategy 5 puts stop and target 2 and 4 percent from a positive price. *)
Lemma detectDivergenceTrade_sides (candles : list Candle) (c : Candle) (cl : Q)
    (indicators : list Indicator) (s : TradeSetup) :
  last_opt candles = Some c -> c_close c = Fin cl -> 0 < cl ->
  detectDivergenceTrade now candles indicators = Return (Some s) ->
  s_type s = "DIVERGENCE" /\ stop_on_correct_side s /\ target_on_correct_side s.
Proof.
  intros Hc Hcl Hpos. unfold detectDivergenceTrade.
  destruct (Nat.ltb _ 20); [discriminate|].
  destruct (Nat.ltb _ 20); [discriminate|].
  destruct (TechnicalIndicators.detectDivergence _ _ _) as [dv|]; [|discriminate].
  rewrite (@last_close_Some candles c Hc), Hcl. unfold bind; cbv beta iota.
  intros [= <-]. cbn [s_type]. split; [reflexivity|].
  unfold stop_on_correct_side, target_on_correct_side.
  cbn [direction stopLoss entry takeProfit].
  destruct (String.eqb _ "BULLISH"); rewrite ?mul_Fin;
    (split; split; intro Hd; try discriminate Hd).
  - apply ltb_Fin. lra.
  - apply ltb_Fin. lra.
  - apply gtb_Fin. lra.
  - apply gtb_Fin. lra.
Qed.

End StrategySides.

Section SetupClaims.

Import TradeSetupDetector Spec CandleExamples MarketExamples.
Local Open Scope Q_scope.

(** C1, at the failing input: oversold RSI (20) with the price 100 already
    above the Bollinger middle 90 and one bullish pattern gives a LONG
    mean-reversion setup whose target 90 lies below its entry 100.  The
    strategy takes the Bollinger middle as the target without comparing it
    with the price, while its own fallback (2 percent beyond the price) and
    every sibling strategy place the target on the side of the direction. *)
Theorem analyzeMarket_long_target_below_entry :
  exists det s,
    analyzeMarket constructor 0%Z candles1 [oversold_above_middle] [bullish_engulfing]
      None ranging = Return (det, [s])
    /\ direction s = "LONG"
    /\ (entry s ≈ Fin 100)%num
    /\ (takeProfit s ≈ Fin 90)%num
    /\ (entry s <? takeProfit s)%num = false.
Proof.
  eexists. eexists. split.
  - vm_compute. reflexivity.
  - cbn [direction entry takeProfit]. repeat split; vm_compute; reflexivity.
Qed.

Lemma atr_significant_usable (p : Q) (ind : Indicator) :
  0 < p -> atr_significant p ind -> atr_usable ind.
Proof.
  intros Hp [H | (a & Ha & [H0 | Hbig])].
  - left. exact H.
  - right. exists a. split; [exact Ha | lra].
  - right. exists a. split; [exact Ha | lra].
Qed.

(** X20: when the last candle is well formed with a positive close and
    the latest ATR is missing, zero or at least a millionth of that close,
    analyzeMarket returns, and every returned setup other than a pattern
    trade has its stop on the side of entry its direction asks for (LONG:
    stopLoss < entry, SHORT: stopLoss > entry) and, unless it is a mean
    reversion that took the snapshot's Bollinger middle as its target, its
    target on the other side (LONG: entry < takeProfit, SHORT:
    entry > takeProfit). *)
Theorem analyzeMarket_sides_outside_patterns
    (self : Detector) (now : Z) (candles : list Candle) (indicators : list Indicator)
    (patterns : list Pattern) (prediction : option Prediction) (rg : Regime)
    (c : Candle) (latest : Indicator) (cl : Q) :
  last_opt candles = Some c ->
  last_opt indicators = Some latest ->
  well_formed_candle c ->
  c_close c = Fin cl ->
  atr_significant cl latest ->
  exists det setups,
    analyzeMarket self now candles indicators patterns prediction rg = Return (det, setups)
    /\ Forall (fun s => s_type s = "PATTERN_TRADE"
                        \/ sides_as_designed (Fin cl) latest s) setups.
Proof.
  intros Hc Hi Hwf Hcl Hsig.
  destruct (@analyzeMarket_returns self now candles indicators patterns prediction rg
              c latest Hc Hi)
    as (t & b & d & Ht & Hb & Hd & det & Hret & _).
  eexists det, _. split; [exact Hret|].
  pose proof Hwf as (lo & cl' & hi & _ & Hcl' & _ & Hpos & _).
  rewrite Hcl in Hcl'. injection Hcl' as <-.
  pose proof (atr_significant_usable Hpos Hsig) as Hatr.
  rewrite (@detectBreakout_none self now candles c latest patterns Hc Hwf) in Hb.
  injection Hb as <-.
  apply Forall_forall. intros s Hs.
  apply array_sort_In in Hs. apply filter_In in Hs. destruct Hs as [Hs _].
  apply candidates_In in Hs.
  destruct Hs as [-> | [Hm | [Hb | [Hp | ->]]]].
  - right.
    destruct (@detectTrendFollowing_sides self now candles c cl latest prediction rg s
                Hc Hcl Hpos Hatr Ht) as (Hty & Hstop & Htarget).
    split; [exact Hstop|]. split; [intros _; exact Htarget|].
    rewrite Hty. discriminate.
  - right. rewrite Hcl in Hm.
    destruct (@detectMeanReversion_sides self now cl latest patterns s Hpos Hm)
      as (Hty & Hstop & Htp & Hfallback).
    split; [exact Hstop|]. split; [intro Hne; contradiction|].
    intros _. split; assumption.
  - discriminate Hb.
  - left.
    destruct (@detectPatternTrade_direction self now patterns latest prediction s Hp)
      as (Hty & _). exact Hty.
  - right.
    destruct (@detectDivergenceTrade_sides now candles c cl indicators s
                Hc Hcl Hpos Hd) as (Hty & Hstop & Htarget).
    split; [exact Hstop|]. split; [intros _; exact Htarget|].
    rewrite Hty. discriminate.
Qed.

Lemma analyzeMarket_sides_outside_patterns_witness :
  exists det setups,
    analyzeMarket constructor 0%Z candles1 [oversold] [double_bottom] None ranging
      = Return (det, setups)
    /\ Forall (fun s => s_type s = "PATTERN_TRADE"
                        \/ sides_as_designed (Fin 100) oversold s) setups.
Proof.
  apply (@analyzeMarket_sides_outside_patterns constructor 0%Z candles1 [oversold]
           [double_bottom] None ranging (flat 0 100) oversold 100).
  - reflexivity.
  - reflexivity.
  - exists 100, 100, 100. repeat split; try reflexivity; discriminate.
  - reflexivity.
  - right. exists 1.5. split; [reflexivity|]. right. discriminate.
Defined.

(** *** The confidence cap *)

Lemma detectDivergence_strength (prices indicator : list num) (periods : nat)
    (dv : TechnicalIndicators.Divergence) :
  TechnicalIndicators.detectDivergence prices indicator periods = Some dv ->
  TechnicalIndicators.d_strength dv = Fin 0.8.
Proof.
  unfold TechnicalIndicators.detectDivergence.
  destruct (_ || _); [discriminate|].
  destruct (_ && _ && _); [now intros [= <-]|].
  destruct (_ && _ && _); [now intros [= <-]|]. discriminate.
Qed.

(** Mean reversion, breakout and pattern trades pass their confidence
    through [Math.min(0.95, ...)], and a divergence trade has the constant
    0.8: every returned setup other than a trend-following one is capped. *)
Lemma analyzeMarket_siblings_capped
    (self : Detector) (now : Z) (candles : list Candle) (indicators : list Indicator)
    (patterns : list Pattern) (prediction : option Prediction) (rg : Regime)
    (det : Detector) (setups : list TradeSetup) :
  analyzeMarket self now candles indicators patterns prediction rg = Return (det, setups) ->
  Forall (fun s => s_type s = "TREND_FOLLOWING" \/ capped s) setups.
Proof.
  unfold analyzeMarket.
  destruct (last_close candles) as [currentPrice|] eqn:Hlc; [|discriminate].
  unfold bind at 1.
  destruct (last_opt indicators) as [latest|]; [|discriminate].
  destruct (detectTrendFollowing self now candles latest prediction rg) as [t|] eqn:Ht;
    [|discriminate]. unfold bind at 1.
  destruct (detectBreakout self now candles latest patterns) as [b|] eqn:Hb;
    [|discriminate]. unfold bind at 1.
  destruct (detectDivergenceTrade now candles indicators) as [d|] eqn:Hd;
    [|discriminate]. unfold bind at 1.
  intros [= _ <-].
  apply Forall_forall. intros s Hs.
  apply array_sort_In in Hs. apply filter_In in Hs. destruct Hs as [Hs Hkeep].
  apply (@candidates_In t _ b _ d s) in Hs.
  destruct Hs as [-> | [Hm | [-> | [Hp | ->]]]].
  - left. clear Hkeep. revert Ht. unfold detectTrendFollowing.
    break_lets.
    destruct (_ >=? _)%num; [|discriminate].
    destruct (last_close candles); [|discriminate].
    unfold bind. cbv beta iota zeta. now intros [= <-].
  - right. revert Hm Hkeep. unfold detectMeanReversion.
    destruct (if (_ <? Fin 30)%num then _ else _) as [[signals score]|]; [|discriminate].
    break_lets.
    destruct (_ >=? _)%num eqn:E; [|discriminate].
    intros [= <-] _. unfold capped. cbn [confidence]. eapply min_cap. exact E.
  - right. revert Hb Hkeep. unfold detectBreakout.
    destruct (last_close candles); [|discriminate]. unfold bind.
    destruct (negb _ && negb _); [discriminate|].
    break_lets.
    destruct (_ >=? _)%num eqn:E; [|discriminate].
    intros [= <-] _. unfold capped. cbn [confidence]. eapply min_cap. exact E.
  - right. revert Hp Hkeep. unfold detectPatternTrade.
    destruct patterns as [|first rest]; [discriminate|].
    destruct (_ <? _)%num; [discriminate|].
    break_lets.
    destruct (truthy_opt _); [|discriminate].
    intros [= <-]. unfold capped. cbn [confidence]. apply min_cap.
  - right. revert Hd. unfold detectDivergenceTrade.
    destruct (Nat.ltb _ 20); [discriminate|].
    destruct (Nat.ltb _ 20); [discriminate|].
    destruct (TechnicalIndicators.detectDivergence _ _ _) as [dv|] eqn:Edv; [|discriminate].
    destruct (last_close candles); [|discriminate]. unfold bind.
    intros [= <-]. unfold capped. cbn [confidence].
    rewrite (detectDivergence_strength _ _ _ Edv). reflexivity.
Qed.

(** C8, at the failing input: with a trending regime, bullish EMA
    alignment, a LONG forecast of confidence 1 and MACD above its signal, the
    trend-following score is 1 + 1.5 + 2 + 0.8 = 5.3 of 5.3 and the setup is
    returned with confidence 1, above the 0.95 that the other strategies cap
    theirs at. *)
Theorem detectTrendFollowing_confidence_uncapped :
  exists det s,
    analyzeMarket constructor 0%Z candles1 [bullish_trend] [] (Some sure_long) trending
      = Return (det, [s])
    /\ detectTrendFollowing constructor 0%Z candles1 bullish_trend (Some sure_long) trending
       = Return (Some s)
    /\ s_type s = "TREND_FOLLOWING"
    /\ (confidence s ≈ Fin 1)%num
    /\ (confidence s >? Fin 0.95)%num = true
    /\ ~ capped s.
Proof.
  eexists. eexists. split; [vm_compute; reflexivity|].
  split; [vm_compute; reflexivity|].
  cbn [s_type confidence]. unfold capped. cbn [confidence].
  repeat split; try (vm_compute; reflexivity).
  vm_compute. discriminate.
Qed.

End SetupClaims.

(** * Further properties of the risk calculator *)

Section ClampFacts.

Local Open Scope Q_scope.

Lemma min_Fin_Fin (a b : Q) :
  (min (Fin a) (Fin b) = Fin a /\ a <= b) \/ (min (Fin a) (Fin b) = Fin b /\ b <= a).
Proof.
  unfold min; simpl. destruct (a ?= b) eqn:E.
  - left. split; [reflexivity|]. apply Qeq_alt in E. lra.
  - left. split; [reflexivity|]. apply Qlt_alt in E. lra.
  - right. split; [reflexivity|]. apply Qcompare_Gt_iff in E. lra.
Qed.

Lemma max_Fin_Fin (a b : Q) :
  (max (Fin a) (Fin b) = Fin a /\ b <= a) \/ (max (Fin a) (Fin b) = Fin b /\ a <= b).
Proof.
  unfold max; simpl. destruct (a ?= b) eqn:E.
  - left. split; [reflexivity|]. apply Qeq_alt in E. lra.
  - right. split; [reflexivity|]. apply Qlt_alt in E. lra.
  - left. split; [reflexivity|]. apply Qcompare_Gt_iff in E. lra.
Qed.

(** [Math.min(hi, Math.max(lo, x))] of anything but NaN is a finite value
    within the two bounds. *)
Lemma clamp_range (lo hi : Q) (x : num) :
  lo <= hi -> x <> NaN ->
  exists y : Q, min (Fin hi) (max (Fin lo) x) = Fin y /\ lo <= y <= hi.
Proof.
  intros Hb Hx. destruct x as [a| | |]; try congruence.
  - destruct (max_Fin_Fin lo a) as [[-> H1]|[-> H1]].
    + destruct (min_Fin_Fin hi lo) as [[-> H2]|[-> H2]];
        eexists; (split; [reflexivity | lra]).
    + destruct (min_Fin_Fin hi a) as [[-> H2]|[-> H2]];
        eexists; (split; [reflexivity | lra]).
  - exists hi. split; [reflexivity | lra].
  - change (max (Fin lo) NInf) with (Fin lo).
    destruct (min_Fin_Fin hi lo) as [[-> H2]|[-> H2]];
      eexists; (split; [reflexivity | lra]).
Qed.

Lemma Qceiling_upper (x : Q) : inject_Z (Qceiling x) < x + 1.
Proof.
  pose proof (Qceiling_lt x) as H.
  unfold Z.sub in H. rewrite inject_Z_plus, inject_Z_opp in H.
  change (inject_Z 1) with 1 in H. lra.
Qed.

Lemma max_zero_Fin (a : Q) : exists m : Q, max (Fin 0) (Fin a) = Fin m /\ 0 <= m /\ a <= m.
Proof.
  destruct (max_Fin_Fin 0 a) as [[-> H]|[-> H]]; eexists; (split; [reflexivity | lra]).
Qed.

End ClampFacts.

Section RiskCalculatorMore.

Import RiskCalculator.
Local Open Scope Q_scope.

(** X1: the trade score of finite confidence, stop percent and leverage
    and of any ratio other than NaN is a finite number within [0, 100]; a NaN
    ratio (entry, stop and target all equal) makes the score NaN. *)
Theorem calculateTradeScore_range
    (setup : TradeSetup) (rr : RiskReward) (position : Position) (c sp lv : Q) :
  confidence setup = Fin c ->
  stopPercent position = Fin sp ->
  leverage position = Fin lv ->
  (ratio rr <> NaN ->
   exists s : Q, calculateTradeScore setup rr position = Fin s /\ 0 <= s <= 100)
  /\ (ratio rr = NaN -> calculateTradeScore setup rr position = NaN).
Proof.
  intros Hc Hsp Hlv. unfold calculateTradeScore. rewrite Hc, Hsp, Hlv.
  rewrite !mul_Fin, !sub_Fin, !add_Fin.
  destruct (max_zero_Fin (20 - sp * 5)) as (m3 & -> & _).
  destruct (max_zero_Fin (10 - lv)) as (m4 & -> & _).
  split.
  - intro Hr. apply clamp_range; [lra|].
    destruct (ratio rr) as [q| | |]; try congruence.
    + rewrite div_Fin by lra. rewrite mul_Fin.
      destruct (min_Fin_Fin 30 (q / 3 * 30)) as [[-> _]|[-> _]];
        rewrite !add_Fin; discriminate.
    + vm_compute. discriminate.
    + vm_compute. discriminate.
  - intros ->. reflexivity.
Qed.

Lemma calculateTradeScore_range_witness :
  exists s : Q,
    calculateTradeScore (Examples.doc_setup (Fin 0.82)) Examples.doc_rr
      Examples.doc_position = Fin s
    /\ 0 <= s <= 100.
Proof.
  apply (proj1 (@calculateTradeScore_range (Examples.doc_setup (Fin 0.82))
                  Examples.doc_rr Examples.doc_position 0.82 0.93 11
                  eq_refl eq_refl eq_refl)).
  discriminate.
Defined.

(** X2: the action of the recommendation follows a fixed priority: WAIT
    when confidence is below 0.65, else SKIP_TRADE when leverage exceeds 10,
    else REDUCE_SIZE when the ratio is below 1.5 or the stop is wider than
    3 percent, else TAKE_TRADE; there are as many issues as checks that
    fired, and the action is TAKE_TRADE exactly when there is none. *)
Theorem getTradeRecommendation_priority
    (setup : TradeSetup) (rr : RiskReward) (position : Position) :
  let low_rr := (ratio rr <? Fin 1.5)%num in
  let wide := (stopPercent position >? Fin 3)%num in
  let lev := (leverage position >? Fin 10)%num in
  let unsure := (confidence setup <? Fin 0.65)%num in
  let r := getTradeRecommendation setup rr position in
  action r = (if unsure then WAIT
              else if lev then SKIP_TRADE
              else if low_rr || wide then REDUCE_SIZE
              else TAKE_TRADE)
  /\ List.length (issues r)
     = ((if low_rr then 1 else 0) + (if wide then 1 else 0)
        + (if lev then 1 else 0) + (if unsure then 1 else 0))%nat
  /\ (action r = TAKE_TRADE <-> issues r = []).
Proof.
  cbv zeta. unfold getTradeRecommendation.
  destruct (ratio rr <? Fin 1.5)%num, (stopPercent position >? Fin 3)%num,
    (leverage position >? Fin 10)%num, (confidence setup <? Fin 0.65)%num;
    cbn; (split; [reflexivity|]); (split; [reflexivity|]);
    split; intro H; try discriminate H; reflexivity.
Qed.



End RiskCalculatorMore.

Section RiskReportFacts.

Import RiskCalculator.
Local Open Scope Q_scope.



(** X5: the take-profit ladder has three rungs of 25, 25 and 50 percent,
    the last one at the final target.  For LONG with the target above entry
    the rungs climb from entry to the target (half way, then three
    quarters of the way), for any other direction with the target below
    entry they descend to it; for a direction other than LONG with the target
    above entry (a BULLISH pattern trade) the first two rungs lie below
    entry while the last is the target above it. *)
Theorem calculatePartialTakeProfits_ladder (e t : Q) (direction_ : string) :
  exists p1 p2 : Q,
    map level_price (calculatePartialTakeProfits (Fin e) (Fin t) direction_)
      = [Fin p1; Fin p2; Fin t]
    /\ map percent (calculatePartialTakeProfits (Fin e) (Fin t) direction_)
       = [Fin 25; Fin 25; Fin 50]
    /\ (direction_ = "LONG" -> e <= t -> e <= p1 /\ p1 <= p2 /\ p2 <= t)
    /\ (direction_ <> "LONG" -> t <= e -> t <= p2 /\ p2 <= p1 /\ p1 <= e)
    /\ (direction_ <> "LONG" -> e <= t -> p2 <= p1 /\ p1 <= e /\ e <= t).
Proof.
  unfold calculatePartialTakeProfits. rewrite sub_Fin, abs_Fin, !mul_Fin.
  destruct (String.eqb direction_ "LONG") eqn:E.
  - apply String.eqb_eq in E. rewrite !add_Fin. do 2 eexists.
    split; [reflexivity|]. split; [reflexivity|].
    split; [|split; intros H; contradiction].
    intros _ Hlt. rewrite (Qabs_pos (t - e)) by lra. lra.
  - apply String.eqb_neq in E. rewrite !sub_Fin. do 2 eexists.
    split; [reflexivity|]. split; [reflexivity|].
    split; [intros H; contradiction|]. split.
    + intros _ Hlt. rewrite (Qabs_neg (t - e)) by lra. lra.
    + intros _ Hlt. rewrite (Qabs_pos (t - e)) by lra. lra.
Qed.

Lemma calculatePartialTakeProfits_ladder_witness :
  exists p1 p2 : Q,
    map level_price (calculatePartialTakeProfits (Fin 42800) (Fin 44000) "LONG")
      = [Fin p1; Fin p2; Fin 44000]
    /\ 42800 <= p1 /\ p1 <= p2 /\ p2 <= 44000.
Proof.
  destruct (calculatePartialTakeProfits_ladder 42800 44000 "LONG")
    as (p1 & p2 & Hprices & _ & Hlong & _).
  exists p1, p2. split; [exact Hprices|]. apply Hlong; [reflexivity | discriminate].
Defined.

End RiskReportFacts.

Section PortfolioFacts.

Import RiskCalculator Spec.
Local Open Scope Q_scope.

Lemma heat_fold (A : Q) (ts : list (Q * Q * Q)) (h : Q) :
  ~ A == 0 ->
  exists h' : Q,
    fold_left
      (fun totalHeat pos =>
         (totalHeat
          + (abs (pos_entry pos - pos_stopLoss pos) * pos_quantity pos / Fin A) * Fin 100)%num)
      (map position_of ts) (Fin h) = Fin h'
    /\ h' == h + total_risk ts / A * 100.
Proof.
  intro HA. revert h. induction ts as [|[[e s] q] ts IH]; intro h.
  - exists h. split; [reflexivity|]. simpl. field. exact HA.
  - cbn [map fold_left position_of pos_entry pos_stopLoss pos_quantity].
    rewrite sub_Fin, abs_Fin, mul_Fin, (@div_Fin _ A) by exact HA.
    rewrite mul_Fin, add_Fin.
    destruct (IH (h + Qabs (e - s) * q / A * 100)) as (h' & -> & Hh').
    exists h'. split; [reflexivity|]. rewrite Hh'.
    cbn [total_risk fold_right risk_of]. fold (total_risk ts). field. exact HA.
Qed.

Lemma risk_fold (ts : list (Q * Q * Q)) (r x : Q) :
  exists r' x' : Q,
    fold_left
      (fun '(totalRisk, totalExposure) pos =>
         ((totalRisk + abs (pos_entry pos - pos_stopLoss pos) * pos_quantity pos)%num,
          (totalExposure + pos_entry pos * pos_quantity pos)%num))
      (map position_of ts) (Fin r, Fin x) = (Fin r', Fin x')
    /\ r' == r + total_risk ts.
Proof.
  revert r x. induction ts as [|[[e s] q] ts IH]; intros r x.
  - exists r, x. split; [reflexivity|]. simpl. ring.
  - cbn [map fold_left position_of pos_entry pos_stopLoss pos_quantity].
    rewrite sub_Fin, abs_Fin, !mul_Fin, !add_Fin.
    destruct (IH (r + Qabs (e - s) * q) (x + e * q)) as (r' & x' & -> & Hr').
    exists r', x'. split; [reflexivity|]. rewrite Hr'.
    cbn [total_risk fold_right risk_of]. fold (total_risk ts). ring.
Qed.

Lemma total_risk_nonneg (ts : list (Q * Q * Q)) :
  Forall (fun t => 0 <= snd t) ts -> 0 <= total_risk ts.
Proof.
  induction 1 as [|[[e s] q] ts Hq _ IH].
  - apply Qle_refl.
  - cbn [total_risk fold_right risk_of]. fold (total_risk ts). cbn [snd] in Hq.
    assert (0 <= Qabs (e - s) * q)
      by (apply Qmult_le_0_compat; [apply Qabs_nonneg | exact Hq]).
    lra.
Qed.



(** X7: with a positive account and non-negative quantities the heat is
    non-negative, the portfolio is overheated exactly when the heat exceeds
    5, and the available risk is what is left of the 5 percent budget: 5
    minus the heat while that is not negative, 0 once overheated; it always
    lies within [0, 5]. *)
Theorem calculatePortfolioHeat_budget
    (self : Calculator) (ts : list (Q * Q * Q)) (A : Q) :
  0 < A -> Forall (fun t => 0 <= snd t) ts ->
  exists h a : Q,
    totalHeat (calculatePortfolioHeat self (map position_of ts) (Fin A)) = Fin h
    /\ availableRisk (calculatePortfolioHeat self (map position_of ts) (Fin A)) = Fin a
    /\ 0 <= h
    /\ 0 <= a <= 5
    /\ (isOverheated (calculatePortfolioHeat self (map position_of ts) (Fin A)) = true
        <-> 5 < h)
    /\ (5 < h -> a == 0)
    /\ (h <= 5 -> a == 5 - h).
Proof.
  intros HA Hq. unfold calculatePortfolioHeat.
  destruct (@heat_fold A ts 0) as (h & Hh & Hhv); [lra|].
  cbn [totalHeat availableRisk isOverheated]. rewrite Hh, sub_Fin.
  assert (Hh0 : 0 <= h).
  { rewrite Hhv. pose proof (total_risk_nonneg Hq) as Ht.
    assert (0 <= total_risk ts / A) by (apply Qdiv_nonneg; assumption).
    lra. }
  destruct (max_Fin_Fin 0 (5 - h)) as [[-> Hm]|[-> Hm]].
  - exists h, 0. split; [reflexivity|]. split; [reflexivity|].
    split; [exact Hh0|]. split; [lra|]. split; [apply gtb_Fin|].
    split; [reflexivity | lra].
  - exists h, (5 - h). split; [reflexivity|]. split; [reflexivity|].
    split; [exact Hh0|]. split; [lra|]. split; [apply gtb_Fin|].
    split; [lra | reflexivity].
Qed.

Lemma calculatePortfolioHeat_budget_witness :
  exists h a : Q,
    totalHeat (calculatePortfolioHeat constructor
                 (map position_of [(100, 98, 5); (50, 51, 10)]) (Fin 1000)) = Fin h
    /\ availableRisk (calculatePortfolioHeat constructor
                        (map position_of [(100, 98, 5); (50, 51, 10)]) (Fin 1000)) = Fin a
    /\ 0 <= h /\ 0 <= a <= 5.
Proof.
  destruct (@calculatePortfolioHeat_budget constructor
              [(100, 98, 5); (50, 51, 10)] 1000)
    as (h & a & Hh & Ha & Hh0 & Hrange & _).
  - reflexivity.
  - repeat constructor; discriminate.
  - exists h, a. auto.
Defined.

End PortfolioFacts.

Section ExpectancyFacts.

Import RiskCalculator Spec.
Local Open Scope Q_scope.

(** X8: for a finite setup whose entry differs from its stop and a win
    rate in (0, 1], the reported risk/reward is |target - entry| over
    |entry - stop|, and the expected value is positive exactly when that
    ratio exceeds (1 - winRate) / winRate (9/11 at the default 0.55). *)
Theorem calculateExpectedValue_positive (setup : TradeSetup) (e s t w : Q) :
  entry setup = Fin e -> stopLoss setup = Fin s -> takeProfit setup = Fin t ->
  ~ e == s -> 0 < w ->
  ev_riskReward (calculateExpectedValue setup (Fin w))
    = Fin (Qabs (t - e) / Qabs (e - s))
  /\ (isPositive (calculateExpectedValue setup (Fin w)) = true
      <-> (1 - w) / w < Qabs (t - e) / Qabs (e - s)).
Proof.
  intros He Hs Ht Hes Hw. unfold calculateExpectedValue.
  cbn [ev_riskReward isPositive]. rewrite He, Hs, Ht.
  rewrite !sub_Fin, !abs_Fin, !mul_Fin, sub_Fin.
  assert (Hr : 0 < Qabs (e - s)).
  { destruct (Qlt_le_dec 0 (Qabs (e - s))) as [H|H]; [exact H|].
    exfalso. apply Hes.
    assert (H0 : Qabs (e - s) == 0) by (apply Qle_antisym; [exact H | apply Qabs_nonneg]).
    apply -> Qabs_zero_iff in H0. lra. }
  split; [apply div_Fin; lra|].
  rewrite gtb_Fin.
  set (R := Qabs (t - e)) in *. set (r := Qabs (e - s)) in *.
  split; intro H.
  - apply Qlt_shift_div_l; [exact Hr|].
    apply Qlt_shift_div_r in H || idtac.
    assert (E : (1 - w) / w * r == (1 - w) * r / w) by (field; lra).
    rewrite E. apply Qlt_shift_div_r; [exact Hw | lra].
  - assert (H1 : (1 - w) / w * r < R).
    { apply (Qmult_lt_compat_r _ _ r Hr) in H.
      assert (E : R / r * r == R) by (field; lra). rewrite E in H. exact H. }
    assert (E : (1 - w) / w * r == (1 - w) * r / w) by (field; lra).
    rewrite E in H1.
    apply (Qmult_lt_compat_r _ _ w Hw) in H1.
    assert (E2 : (1 - w) * r / w * w == (1 - w) * r) by (field; lra).
    rewrite E2 in H1. lra.
Qed.

Lemma calculateExpectedValue_positive_witness :
  isPositive (calculateExpectedValue (Examples.doc_setup (Fin 0.82)) (Fin 0.55)) = true.
Proof.
  apply (proj2 (@calculateExpectedValue_positive (Examples.doc_setup (Fin 0.82))
                  42800 42400 44000 0.55 eq_refl eq_refl eq_refl
                  ltac:(discriminate) ltac:(reflexivity))).
  reflexivity.
Defined.

End ExpectancyFacts.

Section DrawdownFacts.

Import RiskCalculator Spec.
Local Open Scope Q_scope.

(** The drawdown of a positive value under a peak that is at least as
    large: a percentage in [0, 100), zero when the value is at the peak. *)
Lemma drawdown_percent (p v : Q) :
  0 < v -> v <= p ->
  0 <= (p - v) / p * 100 /\ (p - v) / p * 100 < 100
  /\ (p == v -> (p - v) / p * 100 == 0).
Proof.
  intros Hv Hvp.
  assert (Hx0 : 0 <= (p - v) / p) by (apply Qdiv_nonneg; lra).
  assert (Hx1 : (p - v) / p < 1) by (apply Qlt_shift_div_r; lra).
  split; [lra|]. split; [lra|].
  intro Heq. assert (Hz : p - v == 0) by lra.
  rewrite (@Qdiv_zero_l (p - v) p Hz). reflexivity.
Qed.

(** One round of the loop on a finite state and a positive value. *)
Lemma drawdownStep_finite (d p v : Q) :
  0 <= d < 100 -> 0 < p -> 0 < v ->
  exists d' p' : Q,
    drawdownStep (Fin d, Fin p) (Fin v) = (Fin d', Fin p')
    /\ 0 <= d' < 100 /\ 0 < p'
    /\ (p <= v -> p' == v)
    /\ (d == 0 -> p <= v -> d' == 0).
Proof.
  intros Hd Hp Hv. unfold drawdownStep.
  destruct (Fin v >? Fin p)%num eqn:E.
  - apply gtb_Fin in E.
    destruct (@drawdown_percent v v Hv (Qle_refl v)) as (H0 & H1 & H2).
    rewrite sub_Fin, div_Fin, mul_Fin by lra.
    destruct (Fin ((v - v) / v * 100) >? Fin d)%num; do 2 eexists;
      (split; [reflexivity|]).
    + split; [lra|]. split; [exact Hv|]. split; [intros _; reflexivity|].
      intros _ _. apply H2. reflexivity.
    + split; [lra|]. split; [exact Hv|]. split; [intros _; reflexivity|].
      intros Hz _. exact Hz.
  - apply gtb_Fin_false in E.
    destruct (@drawdown_percent p v Hv E) as (H0 & H1 & H2).
    rewrite sub_Fin, div_Fin, mul_Fin by lra.
    destruct (Fin ((p - v) / p * 100) >? Fin d)%num; do 2 eexists;
      (split; [reflexivity|]).
    + split; [lra|]. split; [exact Hp|]. split; [intros Hle; lra|].
      intros _ Hle. apply H2. lra.
    + split; [lra|]. split; [exact Hp|]. split; [intros Hle; lra|].
      intros Hz _. exact Hz.
Qed.

Lemma drawdown_fold (vs : list Q) (d p : Q) :
  0 <= d < 100 -> 0 < p -> Forall (fun v => 0 < v) vs ->
  exists d' p' : Q,
    fold_left drawdownStep (map Fin vs) (Fin d, Fin p) = (Fin d', Fin p')
    /\ 0 <= d' < 100
    /\ (d == 0 -> StronglySorted Qle (p :: vs) -> d' == 0).
Proof.
  intros Hd Hp Hvs. revert d p Hd Hp.
  induction Hvs as [|v vs Hv _ IH]; intros d p Hd Hp.
  - exists d, p. split; [reflexivity|]. split; [exact Hd|]. intros H0 _. exact H0.
  - cbn [map fold_left].
    destruct (drawdownStep_finite Hd Hp Hv) as (d1 & p1 & -> & Hd1 & Hp1 & Hpeak & Hz).
    destruct (IH d1 p1 Hd1 Hp1) as (d' & p' & -> & Hd' & Hz').
    exists d', p'. split; [reflexivity|]. split; [exact Hd'|].
    intros H0 Hs.
    inversion Hs as [|? ? Hs' Hall]; subst.
    inversion Hall as [|? ? Hpv Hrest]; subst.
    apply Hz'; [apply Hz; assumption|].
    inversion Hs' as [|? ? Hs'' Hvrest]; subst.
    constructor; [exact Hs''|].
    specialize (Hpeak Hpv).
    eapply Forall_impl; [|exact Hvrest]. intros x Hx. cbv beta in Hx. lra.
Qed.

(** X9: on an equity curve of positive finite values the maximum drawdown
    is a finite percentage in [0, 100]; it is 0 when the curve never falls,
    and 0 (acceptable) on the empty curve, whose loop never runs. *)
Theorem calculateMaxDrawdown_range (curve : list Q) :
  Forall (fun v => 0 < v) curve ->
  exists d : Q,
    maxDrawdown (calculateMaxDrawdown (map Fin curve)) = Fin d
    /\ 0 <= d <= 100
    /\ (StronglySorted Qle curve -> d == 0)
    /\ (curve = [] -> d == 0
        /\ isAcceptable (calculateMaxDrawdown (map Fin curve)) = true).
Proof.
  intro Hpos. unfold calculateMaxDrawdown.
  destruct curve as [|v0 vs].
  - exists 0. cbn. split; [reflexivity|]. split; [lra|].
    split; [intros _; reflexivity|]. intros _. split; reflexivity.
  - inversion Hpos as [|? ? Hv0 Hvs]; subst.
    change (nth 0 (map Fin (v0 :: vs)) NaN) with (Fin v0).
    destruct (@drawdown_fold (v0 :: vs) 0 v0) as (d & p & Hfold & Hd & Hz);
      [lra | exact Hv0 | exact Hpos |].
    rewrite Hfold. cbn [maxDrawdown].
    exists d. split; [reflexivity|]. split; [split; lra|]. split.
    + intro Hs. apply Hz; [reflexivity|].
      constructor; [exact Hs|].
      constructor; [apply Qle_refl|].
      inversion Hs; assumption.
    + intro H. discriminate H.
Qed.

Lemma calculateMaxDrawdown_range_witness :
  exists d : Q,
    maxDrawdown (calculateMaxDrawdown (map Fin [100; 120; 90; 130])) = Fin d
    /\ 0 <= d <= 100.
Proof.
  destruct (@calculateMaxDrawdown_range [100; 120; 90; 130]) as (d & Hd & Hrange & _).
  - repeat constructor.
  - exists d. split; [exact Hd | exact Hrange].
Defined.

(** The curve 100, 120, 90, 130 has its worst fall from 120 to 90: 25 percent. *)
Example calculateMaxDrawdown_quarter :
  (maxDrawdown (calculateMaxDrawdown (map Fin [100; 120; 90; 130])) ≈ Fin 25)%num
  /\ isAcceptable (calculateMaxDrawdown (map Fin [100; 120; 90; 130])) = false.
Proof. split; vm_compute; reflexivity. Qed.

End DrawdownFacts.

(** * Further properties of the setup detector *)

Section DetectorMore.

Import TradeSetupDetector Spec CandleExamples MarketExamples.
Local Open Scope Q_scope.

(** What a returning call of [analyzeMarket] went through. *)
Lemma analyzeMarket_inv
    (self : Detector) (now : Z) (candles : list Candle) (indicators : list Indicator)
    (patterns : list Pattern) (prediction : option Prediction) (rg : Regime)
    (det : Detector) (setups : list TradeSetup) :
  analyzeMarket self now candles indicators patterns prediction rg = Return (det, setups) ->
  exists c latest t b d,
    last_opt candles = Some c
    /\ last_opt indicators = Some latest
    /\ detectTrendFollowing self now candles latest prediction rg = Return t
    /\ detectBreakout self now candles latest patterns = Return b
    /\ detectDivergenceTrade now candles indicators = Return d
    /\ setups
       = array_sort (fun a b => (confidence b - confidence a)%num)
           (filter (fun s => (confidence s >=? minConfidence self)%num)
              (candidates t
                 (detectMeanReversion self now (c_close c) latest patterns)
                 b
                 (detectPatternTrade self now patterns latest prediction)
                 d))
    /\ activeSetups det = setups.
Proof.
  intro H.
  destruct (last_opt candles) as [c|] eqn:Hc.
  2:{ unfold analyzeMarket, last_close in H. rewrite Hc in H. discriminate H. }
  destruct (last_opt indicators) as [latest|] eqn:Hi.
  2:{ unfold analyzeMarket in H. rewrite (@last_close_Some candles c Hc) in H.
      unfold bind in H. rewrite Hi in H. discriminate H. }
  destruct (@analyzeMarket_returns self now candles indicators patterns prediction rg
              c latest Hc Hi)
    as (t & b & d & Ht & Hb & Hd & det' & Hret & Hact).
  rewrite Hret in H. injection H as <- <-.
  exists c, latest, t, b, d. repeat split; assumption.
Qed.

(** Every returned setup passed the filter, and the sequence is sorted. *)
Lemma analyzeMarket_kept
    (self : Detector) (now : Z) (candles : list Candle) (indicators : list Indicator)
    (patterns : list Pattern) (prediction : option Prediction) (rg : Regime)
    (det : Detector) (setups : list TradeSetup) :
  analyzeMarket self now candles indicators patterns prediction rg = Return (det, setups) ->
  activeSetups det = setups
  /\ Forall (fun s => (confidence s >=? minConfidence self)%num = true) setups
  /\ StronglySorted confidence_geq setups.
Proof.
  intro H. destruct (@analyzeMarket_inv _ _ _ _ _ _ _ _ _ H)
    as (c & latest & t & b & d & _ & _ & _ & _ & _ & Hs & Hact).
  split; [exact Hact|].
  set (raw := candidates _ _ _ _ _) in Hs.
  assert (Hkept : Forall (fun s => (confidence s >=? minConfidence self)%num = true)
                    (filter (fun s => (confidence s >=? minConfidence self)%num) raw)).
  { apply Forall_forall. intros s Hin. apply filter_In in Hin. tauto. }
  rewrite Hs. split.
  - apply Forall_forall. intros s Hin. apply array_sort_In in Hin.
    rewrite Forall_forall in Hkept. now apply Hkept.
  - apply (@array_sort_sorted TradeSetup confidence).
    eapply Forall_impl; [|exact Hkept].
    intros s Hin. now apply geb_not_nan in Hin.
Qed.

(** X10: with a threshold of at least 0.60 (0.60 by default) no setup
    returned by analyzeMarket is rated POOR: its quality is EXCELLENT from
    confidence 0.80, GOOD from 0.70 and MEDIUM below. *)
Theorem getSetupQuality_never_poor
    (self : Detector) (now : Z) (candles : list Candle) (indicators : list Indicator)
    (patterns : list Pattern) (prediction : option Prediction) (rg : Regime)
    (det : Detector) (setups : list TradeSetup) (m : Q) :
  minConfidence self = Fin m -> 0.60 <= m ->
  analyzeMarket self now candles indicators patterns prediction rg = Return (det, setups) ->
  Forall (fun s =>
            getSetupQuality s <> "POOR"
            /\ getSetupQuality s
               = (if (confidence s >=? Fin 0.80)%num then "EXCELLENT"
                  else if (confidence s >=? Fin 0.70)%num then "GOOD"
                  else "MEDIUM"))
         setups.
Proof.
  intros Hm Hle H. destruct (@analyzeMarket_kept _ _ _ _ _ _ _ _ _ H) as (_ & Hkept & _).
  eapply Forall_impl; [|exact Hkept]. intros s Hs. cbv beta in Hs.
  rewrite Hm in Hs.
  assert (Hnot : (confidence s <? Fin 0.60)%num = false).
  { apply geb_ltb_false. eapply geb_trans; [exact Hs|]. apply geb_Fin. exact Hle. }
  unfold getSetupQuality. rewrite Hnot.
  destruct (confidence s >=? Fin 0.80)%num; [split; [discriminate | reflexivity]|].
  destruct (confidence s >=? Fin 0.70)%num; split; try discriminate; reflexivity.
Qed.

Lemma getSetupQuality_never_poor_witness :
  exists det s1 s2,
    analyzeMarket constructor 0%Z candles1 [oversold] [double_bottom] None ranging
      = Return (det, [s1; s2])
    /\ getSetupQuality s1 = "EXCELLENT" /\ getSetupQuality s2 = "GOOD".
Proof.
  do 3 eexists. split; [vm_compute; reflexivity|].
  pose proof (@getSetupQuality_never_poor constructor 0%Z candles1 [oversold]
                [double_bottom] None ranging _ _ 0.60 eq_refl (Qle_refl _) eq_refl) as H.
  inversion H as [|? ? [_ H1] H']; subst.
  inversion H' as [|? ? [_ H2] _]; subst.
  split; [exact H1 | exact H2].
Defined.

Lemma filter_length_le (B : Type) (f g : B -> bool) (xs : list B) :
  (forall x, f x = true -> g x = true -> False) ->
  (List.length (filter f xs) + List.length (filter g xs) <= List.length xs)%nat.
Proof.
  intro Hex. induction xs as [|x xs IH]; simpl; [lia|].
  destruct (f x) eqn:Ef, (g x) eqn:Eg; simpl; try lia.
  exfalso. eapply Hex; eassumption.
Qed.

(** X11: the summary of the detector after a returning analyzeMarket
    counts the returned setups, its best setup is the first of them and no
    returned setup has a higher confidence; LONG and SHORT counts together
    never exceed the total (a pattern trade, BULLISH or BEARISH, is in
    neither); with nothing returned there is no best setup and the average
    confidence is 0. *)
Theorem getSummary_after_analyzeMarket
    (self : Detector) (now : Z) (candles : list Candle) (indicators : list Indicator)
    (patterns : list Pattern) (prediction : option Prediction) (rg : Regime)
    (det : Detector) (setups : list TradeSetup) :
  analyzeMarket self now candles indicators patterns prediction rg = Return (det, setups) ->
  getActiveSetups det = setups
  /\ total (getSummary det) = List.length setups
  /\ bestSetup (getSummary det) = nth_error setups 0
  /\ (forall best s, bestSetup (getSummary det) = Some best -> In s setups ->
        (confidence best >=? confidence s)%num = true)
  /\ (long (getSummary det) + short (getSummary det) <= total (getSummary det))%nat
  /\ (setups = [] ->
        bestSetup (getSummary det) = None /\ avgConfidence (getSummary det) = Fin 0).
Proof.
  intro H. destruct (@analyzeMarket_kept _ _ _ _ _ _ _ _ _ H) as (Hact & Hkept & Hsorted).
  unfold getActiveSetups, getSummary; cbn [total bestSetup long short avgConfidence].
  rewrite Hact. split; [reflexivity|]. split; [reflexivity|].
  split; [destruct setups; reflexivity|]. split; [|split].
  - intros best s Hbest Hin.
    destruct setups as [|s0 rest]; [contradiction|].
    cbn in Hbest. injection Hbest as <-.
    inversion Hsorted as [|? ? _ Hall]; subst.
    inversion Hkept as [|? ? Hs0 _]; subst.
    destruct Hin as [<-|Hin].
    + apply geb_not_nan in Hs0.
      destruct Hs0 as [Hn _]. 
      destruct (confidence s0) as [q| | |]; try congruence; try reflexivity.
      apply geb_Fin. apply Qle_refl.
    + rewrite Forall_forall in Hall. now apply Hall.
  - apply filter_length_le. intros x Hl Hs.
    apply String.eqb_eq in Hl, Hs. rewrite Hl in Hs. discriminate Hs.
  - intros ->. split; reflexivity.
Qed.

Lemma getSummary_after_analyzeMarket_witness :
  exists det setups,
    analyzeMarket constructor 0%Z candles1 [oversold] [double_bottom] None ranging
      = Return (det, setups)
    /\ total (getSummary det) = 2%nat
    /\ long (getSummary det) = 1%nat
    /\ short (getSummary det) = 0%nat.
Proof.
  do 2 eexists. split; [vm_compute; reflexivity|].
  pose proof (@getSummary_after_analyzeMarket constructor 0%Z candles1 [oversold]
                [double_bottom] None ranging _ _ eq_refl) as (_ & Htotal & _).
  split; [exact Htotal|]. split; reflexivity.
Defined.

(** X12: the detector's own calculatePositionSize and the risk
    calculator's functions are the same computation: for every setup the
    size, notional value, amount at risk and stop percent are those of
    RiskCalculator.calculatePositionSize on the setup's entry and stop, the
    risk/reward is the ratio of calculateRiskReward, and the potential profit
    is the reward times the size. *)
Theorem calculatePositionSize_agrees (setup : TradeSetup) (accountSize riskPercent_ : num) :
  let size := calculatePositionSize setup accountSize riskPercent_ in
  let position :=
    RiskCalculator.calculatePositionSize (entry setup) (stopLoss setup)
      accountSize riskPercent_ in
  let rr :=
    RiskCalculator.calculateRiskReward (entry setup) (stopLoss setup) (takeProfit setup) in
  positionSize size = RiskCalculator.quantity position
  /\ size_notionalValue size = RiskCalculator.notionalValue position
  /\ size_riskAmount size = RiskCalculator.riskAmount position
  /\ size_stopPercent size = RiskCalculator.stopPercent position
  /\ size_riskReward size = RiskCalculator.ratio rr
  /\ potentialProfit size
     = (RiskCalculator.reward rr * RiskCalculator.quantity position)%num.
Proof.
  cbv zeta. repeat split.
Qed.

End DetectorMore.

(** * The detector's setups under the risk calculator *)

Section SetupRatio.

Import TradeSetupDetector Spec CandleExamples MarketExamples.
Local Open Scope Q_scope.

Lemma Qabs_of_nonneg (x y : Q) : x == y -> 0 <= y -> Qabs x == y.
Proof. intros H Hy. rewrite H. now apply Qabs_pos. Qed.

Lemma Qabs_of_nonpos (x y : Q) : x == - y -> 0 <= y -> Qabs x == y.
Proof. intros H Hy. rewrite H, Qabs_opp. now apply Qabs_pos. Qed.

(** The ratio of [calculateRiskReward] when the reward is [k] times a
    non-zero risk. *)
Lemma ratio_of_multiple (e s t k : Q) :
  ~ e == s -> Qabs (t - e) == k * Qabs (e - s) ->
  (RiskCalculator.ratio (RiskCalculator.calculateRiskReward (Fin e) (Fin s) (Fin t))
   ≈ Fin k)%num.
Proof.
  intros Hes Hk. unfold RiskCalculator.calculateRiskReward; cbn [RiskCalculator.ratio].
  rewrite !sub_Fin, !abs_Fin.
  assert (Hd : ~ Qabs (e - s) == 0).
  { rewrite Qabs_zero_iff. intro H. apply Hes. lra. }
  rewrite div_Fin by exact Hd.
  change (Qabs (t - e) / Qabs (e - s) == k). rewrite Hk. field. exact Hd.
Qed.

Variable self : Detector.
Variable now : Z.

(** The tag and the constant riskReward of what each strategy returns. *)
Lemma detectTrendFollowing_tag (candles : list Candle) (indicator : Indicator)
    (prediction : option Prediction) (rg : Regime) (s : TradeSetup) :
  detectTrendFollowing self now candles indicator prediction rg = Return (Some s) ->
  s_type s = "TREND_FOLLOWING" /\ riskReward s = Fin 2.0.
Proof.
  unfold detectTrendFollowing. break_lets.
  destruct (_ >=? _)%num; [|discriminate].
  destruct (last_close candles); [|discriminate].
  unfold bind; cbv beta iota zeta. intros [= <-]. split; reflexivity.
Qed.

Lemma detectMeanReversion_tag (price_ : num) (indicator : Indicator)
    (patterns : list Pattern) (s : TradeSetup) :
  detectMeanReversion self now price_ indicator patterns = Some s ->
  s_type s = "MEAN_REVERSION" /\ riskReward s = Fin 2.0.
Proof.
  unfold detectMeanReversion.
  destruct (if (_ <? Fin 30)%num then _ else _) as [[signals score]|]; [|discriminate].
  break_lets. destruct (_ >=? _)%num; [|discriminate].
  intros [= <-]. split; reflexivity.
Qed.

Lemma detectBreakout_tag (candles : list Candle) (indicator : Indicator)
    (patterns : list Pattern) (s : TradeSetup) :
  detectBreakout self now candles indicator patterns = Return (Some s) ->
  s_type s = "BREAKOUT" /\ riskReward s = Fin 2.0.
Proof.
  unfold detectBreakout.
  destruct (last_close candles); [|discriminate]. unfold bind.
  destruct (negb _ && negb _); [discriminate|].
  break_lets. destruct (_ >=? _)%num; [|discriminate].
  intros [= <-]. split; reflexivity.
Qed.

Lemma detectPatternTrade_tag (patterns : list Pattern) (indicator : Indicator)
    (prediction : option Prediction) (s : TradeSetup) :
  detectPatternTrade self now patterns indicator prediction = Some s ->
  s_type s = "PATTERN_TRADE" /\ riskReward s = Fin 2.0.
Proof.
  unfold detectPatternTrade. destruct patterns as [|first rest]; [discriminate|].
  destruct (_ <? _)%num; [discriminate|].
  break_lets. destruct (truthy_opt _); [|discriminate].
  intros [= <-]. split; reflexivity.
Qed.

Lemma detectDivergenceTrade_tag (candles : list Candle) (indicators : list Indicator)
    (s : TradeSetup) :
  detectDivergenceTrade now candles indicators = Return (Some s) ->
  s_type s = "DIVERGENCE" /\ riskReward s = Fin 2.0.
Proof.
  unfold detectDivergenceTrade.
  destruct (Nat.ltb _ 20); [discriminate|].
  destruct (Nat.ltb _ 20); [discriminate|].
  destruct (TechnicalIndicators.detectDivergence _ _ _); [|discriminate].
  destruct (last_close candles); [|discriminate]. unfold bind.
  intros [= <-]. split; reflexivity.
Qed.

(** Trend following: the target is twice as far from entry as the stop. *)
Lemma detectTrendFollowing_ratio (candles : list Candle) (c : Candle) (cl : Q)
    (indicator : Indicator) (prediction : option Prediction) (rg : Regime)
    (s : TradeSetup) :
  last_opt candles = Some c -> c_close c = Fin cl -> 0 < cl ->
  atr_usable indicator ->
  detectTrendFollowing self now candles indicator prediction rg = Return (Some s) ->
  (RiskCalculator.ratio
     (RiskCalculator.calculateRiskReward (entry s) (stopLoss s) (takeProfit s))
   ≈ Fin 2)%num.
Proof.
  intros Hc Hcl Hpos Hatr. unfold detectTrendFollowing. break_lets.
  rewrite (@last_close_Some candles c Hc), Hcl. unfold bind; cbv beta iota.
  destruct (_ >=? _)%num; [|discriminate].
  destruct (or_else_atr Hatr Hpos) as (a & Ha & Hapos). rewrite Ha.
  intros [= <-]. cbn [entry stopLoss takeProfit direction].
  destruct (_ >? Fin 0)%num; cbn [String.eqb Ascii.eqb Bool.eqb];
    rewrite ?mul_Fin, ?add_Fin, ?sub_Fin.
  - apply ratio_of_multiple.
    + intro H. lra.
    + rewrite (@Qabs_of_nonneg (cl + a * 4 - cl) (a * 4)) by lra.
      rewrite (@Qabs_of_nonneg (cl - (cl - a * 2)) (a * 2)) by lra. ring.
  - apply ratio_of_multiple.
    + intro H. lra.
    + rewrite (@Qabs_of_nonpos (cl - a * 4 - cl) (a * 4)) by lra.
      rewrite (@Qabs_of_nonpos (cl - (cl + a * 2)) (a * 2)) by lra. ring.
Qed.

Lemma detectDivergenceTrade_ratio (candles : list Candle) (c : Candle) (cl : Q)
    (indicators : list Indicator) (s : TradeSetup) :
  last_opt candles = Some c -> c_close c = Fin cl -> 0 < cl ->
  detectDivergenceTrade now candles indicators = Return (Some s) ->
  (RiskCalculator.ratio
     (RiskCalculator.calculateRiskReward (entry s) (stopLoss s) (takeProfit s))
   ≈ Fin 2)%num.
Proof.
  intros Hc Hcl Hpos. unfold detectDivergenceTrade.
  destruct (Nat.ltb _ 20); [discriminate|].
  destruct (Nat.ltb _ 20); [discriminate|].
  destruct (TechnicalIndicators.detectDivergence _ _ _) as [dv|]; [|discriminate].
  rewrite (@last_close_Some candles c Hc), Hcl. unfold bind; cbv beta iota.
  intros [= <-]. cbn [entry stopLoss takeProfit].
  destruct (String.eqb _ "BULLISH"); rewrite ?mul_Fin.
  - apply ratio_of_multiple.
    + intro H. lra.
    + rewrite (@Qabs_of_nonneg (cl * 1.04 - cl) (cl * 0.04)) by lra.
      rewrite (@Qabs_of_nonneg (cl - cl * 0.98) (cl * 0.02)) by lra. ring.
  - apply ratio_of_multiple.
    + intro H. lra.
    + rewrite (@Qabs_of_nonpos (cl * 0.96 - cl) (cl * 0.04)) by lra.
      rewrite (@Qabs_of_nonpos (cl - cl * 1.02) (cl * 0.02)) by lra. ring.
Qed.

(** Mean reversion on the fallback target: 2 percent against 1.5 percent. *)
Lemma detectMeanReversion_fallback_ratio (p : Q) (indicator : Indicator)
    (patterns : list Pattern) (s : TradeSetup) :
  0 < p -> truthy_opt (bollingerMiddle indicator) = false ->
  detectMeanReversion self now (Fin p) indicator patterns = Some s ->
  (RiskCalculator.ratio
     (RiskCalculator.calculateRiskReward (entry s) (stopLoss s) (takeProfit s))
   ≈ Fin (4 # 3))%num.
Proof.
  intros Hpos Hf. unfold detectMeanReversion.
  destruct (if (_ <? Fin 30)%num then _ else _) as [[signals score]|]; [|discriminate].
  break_lets. destruct (_ >=? _)%num; [|discriminate].
  intros [= <-]. cbn [entry stopLoss takeProfit].
  rewrite !(@or_else_falsy _ _ Hf).
  destruct (_ >? Fin 0)%num; cbn [String.eqb Ascii.eqb Bool.eqb];
    rewrite ?mul_Fin, ?add_Fin, ?sub_Fin.
  - apply ratio_of_multiple.
    + intro H. lra.
    + rewrite (@Qabs_of_nonneg (p * 1.02 - p) (p * 0.02)) by lra.
      rewrite (@Qabs_of_nonneg (p - (p - p * 0.015)) (p * 0.015)) by lra.
      field.
  - apply ratio_of_multiple.
    + intro H. lra.
    + rewrite (@Qabs_of_nonpos (p * 0.98 - p) (p * 0.02)) by lra.
      rewrite (@Qabs_of_nonpos (p - (p + p * 0.015)) (p * 0.015)) by lra.
      field.
Qed.

End SetupRatio.

Section SetupRatioClaim.

Import TradeSetupDetector Spec CandleExamples MarketExamples.
Local Open Scope Q_scope.

Lemma low_ratio_never_take (s : TradeSetup) (rr : RiskCalculator.RiskReward)
    (position : RiskCalculator.Position) (q : Q) :
  (RiskCalculator.ratio rr ≈ Fin q)%num -> q < 1.5 ->
  RiskCalculator.action (RiskCalculator.getTradeRecommendation s rr position)
  <> RiskCalculator.TAKE_TRADE.
Proof.
  intros Hr Hq.
  assert (Hlow : (RiskCalculator.ratio rr <? Fin 1.5)%num = true).
  { destruct (RiskCalculator.ratio rr) as [a| | |]; try contradiction.
    simpl in Hr. apply ltb_Fin. rewrite Hr. exact Hq. }
  unfold RiskCalculator.getTradeRecommendation. rewrite Hlow.
  destruct (RiskCalculator.stopPercent position >? Fin 3)%num,
    (RiskCalculator.leverage position >? Fin 10)%num,
    (confidence s <? Fin 0.65)%num; cbn; discriminate.
Qed.



End SetupRatioClaim.

(** * Further properties of the indicators *)

Section AverageFacts.

Import TechnicalIndicators Spec.
Local Open Scope Q_scope.

Lemma inject_nat_succ (n : nat) :
  inject_Z (Z.of_nat (S n)) == inject_Z (Z.of_nat n) + 1.
Proof.
  rewrite Nat2Z.inj_succ. unfold Z.succ. rewrite inject_Z_plus. reflexivity.
Qed.

Lemma sum_fold_Fin (xs : list Q) (a : Q) :
  exists b : Q, fold_left add (map Fin xs) (Fin a) = Fin b /\ b == a + Qsum xs.
Proof.
  revert a. induction xs as [|x xs IH]; intro a.
  - exists a. split; [reflexivity|]. unfold Qsum; simpl. ring.
  - cbn [map fold_left]. rewrite add_Fin.
    destruct (IH (a + x)) as (b & -> & Hb).
    exists b. split; [reflexivity|]. rewrite Hb.
    unfold Qsum; cbn [fold_right]. ring.
Qed.

Lemma sum_Fin (xs : list Q) :
  exists b : Q, sum (map Fin xs) = Fin b /\ b == Qsum xs.
Proof.
  destruct (sum_fold_Fin xs 0) as (b & Hb & Hv).
  exists b. split; [exact Hb|]. rewrite Hv. ring.
Qed.

Lemma Qsum_within (lo hi : Q) (xs : list Q) :
  all_within lo hi xs ->
  inject_Z (Z.of_nat (List.length xs)) * lo <= Qsum xs
  /\ Qsum xs <= inject_Z (Z.of_nat (List.length xs)) * hi.
Proof.
  induction 1 as [|x xs [Hlo Hhi] _ [IHlo IHhi]].
  - unfold Qsum; cbn [List.length fold_right].
    change (inject_Z (Z.of_nat 0)) with 0. split; lra.
  - cbn [List.length]. rewrite inject_nat_succ.
    unfold Qsum in *; cbn [fold_right]. split; lra.
Qed.

(** The mean of [n >= 1] values within two bounds is within the bounds. *)
Lemma mean_within (lo hi s : Q) (n : nat) :
  (1 <= n)%nat ->
  inject_Z (Z.of_nat n) * lo <= s -> s <= inject_Z (Z.of_nat n) * hi ->
  lo <= s / inject_Z (Z.of_nat n) /\ s / inject_Z (Z.of_nat n) <= hi.
Proof.
  intros Hn Hlo Hhi. pose proof (of_nat_pos Hn) as Hp. split.
  - apply Qle_shift_div_l; [exact Hp | lra].
  - apply Qle_shift_div_r; [exact Hp | lra].
Qed.

Lemma SMA_between (lo hi : Q) (xs : list Q) :
  xs <> [] -> all_within lo hi xs ->
  exists m : Q, SMA (map Fin xs) = Fin m /\ lo <= m /\ m <= hi.
Proof.
  intros Hne Hall. unfold SMA.
  destruct (sum_Fin xs) as (s & -> & Hs).
  rewrite length_map. unfold of_nat.
  assert (Hn : (1 <= List.length xs)%nat) by (destruct xs; [congruence | simpl; lia]).
  pose proof (of_nat_pos Hn) as Hp.
  rewrite div_Fin by lra. eexists. split; [reflexivity|].
  destruct (Qsum_within Hall) as [Hlo Hhi].
  apply mean_within; [exact Hn | rewrite Hs; exact Hlo | rewrite Hs; exact Hhi].
Qed.



Lemma slice_0_map (xs : list Q) (n : nat) :
  slice 0 n (map Fin xs) = map Fin (firstn n xs).
Proof.
  unfold slice. rewrite Nat.sub_0_r. cbn [skipn]. apply firstn_map.
Qed.

Lemma all_within_nth (lo hi : Q) (xs : list Q) (i : nat) :
  all_within lo hi xs -> (i < List.length xs)%nat ->
  lo <= nth i xs 0 /\ nth i xs 0 <= hi.
Proof.
  intros Hall Hi. unfold all_within in Hall. rewrite Forall_forall in Hall.
  apply Hall. apply nth_In. exact Hi.
Qed.

Lemma Forall_firstn_skipn (A : Type) (P : A -> Prop) (n : nat) (xs : list A) :
  Forall P xs -> Forall P (firstn n xs) /\ Forall P (skipn n xs).
Proof.
  intro H. rewrite <- (firstn_skipn n xs) in H.
  apply Forall_app in H. exact H.
Qed.

Lemma all_within_firstn (lo hi : Q) (xs : list Q) (n : nat) :
  all_within lo hi xs -> all_within lo hi (firstn n xs).
Proof.
  intro H. apply (Forall_firstn_skipn n H).
Qed.

(** One smoothing step stays between the bounds: the new value is a convex
    combination of the old one and the sample. *)
Lemma smoothing_step_within (lo hi m x e : Q) :
  0 <= m -> m <= 1 -> lo <= x <= hi -> lo <= e <= hi ->
  lo <= (x - e) * m + e <= hi.
Proof.
  intros Hm0 Hm1 [Hx1 Hx2] [He1 He2].
  assert (H1 : 0 <= m * (x - lo)) by (apply Qmult_le_0_compat; lra).
  assert (H2 : 0 <= (1 - m) * (e - lo)) by (apply Qmult_le_0_compat; lra).
  assert (H3 : 0 <= m * (hi - x)) by (apply Qmult_le_0_compat; lra).
  assert (H4 : 0 <= (1 - m) * (hi - e)) by (apply Qmult_le_0_compat; lra).
  split; lra.
Qed.

Lemma multiplier_Fin (period : nat) :
  (1 <= period)%nat ->
  exists m : Q, (Fin 2 / (of_nat period + Fin 1))%num = Fin m /\ 0 <= m /\ m <= 1.
Proof.
  intro Hp. pose proof (of_nat_ge_1 Hp) as H1.
  unfold of_nat. rewrite add_Fin. rewrite div_Fin by lra.
  eexists. split; [reflexivity|]. split.
  - apply Qle_shift_div_l; lra.
  - apply Qle_shift_div_r; lra.
Qed.

Lemma EMA_between (lo hi : Q) (xs : list Q) (period : nat) :
  (1 <= period <= List.length xs)%nat -> all_within lo hi xs ->
  exists m : Q, EMA (map Fin xs) period = Fin m /\ lo <= m /\ m <= hi.
Proof.
  intros [Hp Hlen] Hall. unfold EMA. cbv zeta.
  destruct (multiplier_Fin Hp) as (m & -> & Hm0 & Hm1).
  rewrite slice_0_map.
  destruct (sum_Fin (firstn period xs)) as (s & -> & Hs).
  pose proof (of_nat_pos Hp) as Hpos.
  unfold of_nat. rewrite div_Fin by lra.
  assert (Hseed : lo <= s / inject_Z (Z.of_nat period) <= hi).
  { destruct (Qsum_within (all_within_firstn period Hall)) as [H1 H2].
    rewrite length_firstn, Nat.min_l in H1, H2 by exact Hlen.
    apply mean_within; [exact Hp | rewrite Hs; exact H1 | rewrite Hs; exact H2]. }
  rewrite length_map.
  apply (@for_range_invariant num
           (fun _ e => exists v : Q, e = Fin v /\ lo <= v /\ v <= hi)).
  - lia.
  - eexists. split; [reflexivity | exact Hseed].
  - intros i e Hi (v & -> & Hv).
    rewrite get_map_Fin by lia.
    rewrite sub_Fin, mul_Fin, add_Fin.
    eexists. split; [reflexivity|].
    apply smoothing_step_within; try assumption.
    apply all_within_nth; [exact Hall | lia].
Qed.

Lemma EMA_short (data : list num) (period : nat) :
  (List.length data <= period)%nat -> EMA data period = (sum data / of_nat period)%num.
Proof.
  intros Hlen. unfold EMA. cbv zeta.
  rewrite for_range_empty by lia.
  unfold slice. rewrite Nat.sub_0_r. cbn [skipn].
  rewrite firstn_all2 by exact Hlen. reflexivity.
Qed.

(** Every finite series lies between two bounds. *)
Lemma all_within_widen (lo hi lo' hi' : Q) (xs : list Q) :
  lo' <= lo -> hi <= hi' -> all_within lo hi xs -> all_within lo' hi' xs.
Proof.
  intros Hlo Hhi. unfold all_within. apply Forall_impl.
  intros x [H1 H2]. split; lra.
Qed.

Lemma all_within_exists (xs : list Q) : exists lo hi, all_within lo hi xs.
Proof.
  induction xs as [|x xs (lo & hi & IH)].
  - exists 0, 0. constructor.
  - exists (if Qlt_le_dec x lo then x else lo), (if Qlt_le_dec hi x then x else hi).
    destruct (Qlt_le_dec x lo) as [H1 | H1], (Qlt_le_dec hi x) as [H2 | H2];
      (constructor; [split; lra | apply (all_within_widen (lo := lo) (hi := hi)); [lra | lra | exact IH]]).
Qed.

Lemma EMA_finite (xs : list Q) (period : nat) :
  (1 <= period)%nat -> exists m : Q, EMA (map Fin xs) period = Fin m.
Proof.
  intro Hp. destruct (Nat.le_gt_cases period (List.length xs)) as [Hlen | Hlen].
  - destruct (all_within_exists xs) as (lo & hi & Hall).
    destruct (@EMA_between lo hi xs period (conj Hp Hlen) Hall) as (m & -> & _).
    eexists; reflexivity.
  - rewrite EMA_short by (rewrite length_map; lia).
    destruct (sum_Fin xs) as (s & -> & _).
    pose proof (of_nat_pos Hp) as Hpos.
    unfold of_nat. rewrite div_Fin by lra. eexists; reflexivity.
Qed.



Lemma MACD_signal_short (xs : list Q) :
  (List.length xs < 35)%nat ->
  exists v h : Q,
    m_macd (MACD (map Fin xs)) = Fin v
    /\ m_signal (MACD (map Fin xs)) = Fin v
    /\ m_histogram (MACD (map Fin xs)) = Fin h /\ h == 0.
Proof.
  intro Hlen. unfold MACD. cbv zeta. cbn [m_macd m_signal m_histogram].
  destruct (@EMA_finite xs 12 ltac:(lia)) as (e12 & ->).
  destruct (@EMA_finite xs 26 ltac:(lia)) as (e26 & ->).
  rewrite sub_Fin.
  set (line := for_range 26 _ _ _).
  assert (Hline : (List.length line <= List.length xs - 26)%nat).
  { subst line. rewrite length_map.
    destruct (Nat.le_gt_cases 26 (List.length xs)) as [H26 | H26].
    - apply (@for_range_invariant (list num)
               (fun i acc => (List.length acc <= i - 26)%nat)).
      + exact H26.
      + simpl. lia.
      + intros i acc Hi Hacc. rewrite length_app. simpl. lia.
    - rewrite for_range_empty by lia. simpl. lia. }
  replace (Nat.leb 9 (List.length line)) with false
    by (symmetry; apply Nat.leb_gt; lia).
  rewrite sub_Fin.
  do 2 eexists. repeat split. ring.
Qed.

(** X16: on fewer than 35 finite closes the signal line has fewer than nine
    points, so the signal is the MACD value itself and the histogram is
    zero. *)
Theorem MACD_short_history (xs : list Q) :
  (List.length xs < 35)%nat ->
  exists v h : Q,
    m_macd (MACD (map Fin xs)) = Fin v
    /\ m_signal (MACD (map Fin xs)) = Fin v
    /\ m_histogram (MACD (map Fin xs)) = Fin h /\ h == 0.
Proof.
  apply MACD_signal_short.
Qed.

Lemma MACD_short_history_witness :
  exists v h : Q,
    m_macd (MACD (map Fin [100; 102; 104])) = Fin v
    /\ m_signal (MACD (map Fin [100; 102; 104])) = Fin v
    /\ m_histogram (MACD (map Fin [100; 102; 104])) = Fin h /\ h == 0.
Proof.
  apply (MACD_short_history [100; 102; 104]). simpl. lia.
Defined.

End AverageFacts.

(** ** Stochastic and the average true range *)

Section OscillatorFacts.

Import TechnicalIndicators Spec.
Local Open Scope Q_scope.

Lemma fold_max_Fin (hs : list Q) (a : Q) :
  exists m : Q, fold_left max (map Fin hs) (Fin a) = Fin m
                /\ a <= m /\ Forall (fun h => h <= m) hs.
Proof.
  revert a. induction hs as [|x hs IH]; intro a.
  - exists a. split; [reflexivity|]. split; [lra | constructor].
  - cbn [map fold_left].
    destruct (max_Fin_Fin a x) as [[-> H] | [-> H]].
    + destruct (IH a) as (m & -> & Ha & Hall).
      exists m. split; [reflexivity|]. split; [exact Ha|].
      constructor; [lra | exact Hall].
    + destruct (IH x) as (m & -> & Hx & Hall).
      exists m. split; [reflexivity|]. split; [lra|].
      constructor; [exact Hx | exact Hall].
Qed.

Lemma fold_min_Fin (ls : list Q) (a : Q) :
  exists m : Q, fold_left min (map Fin ls) (Fin a) = Fin m
                /\ m <= a /\ Forall (fun l => m <= l) ls.
Proof.
  revert a. induction ls as [|x ls IH]; intro a.
  - exists a. split; [reflexivity|]. split; [lra | constructor].
  - cbn [map fold_left].
    destruct (min_Fin_Fin a x) as [[-> H] | [-> H]].
    + destruct (IH a) as (m & -> & Ha & Hall).
      exists m. split; [reflexivity|]. split; [exact Ha|].
      constructor; [lra | exact Hall].
    + destruct (IH x) as (m & -> & Hx & Hall).
      exists m. split; [reflexivity|]. split; [lra|].
      constructor; [exact Hx | exact Hall].
Qed.

(** [Math.max(...hs)] of a non-empty finite array is finite and at least
    every element; dually for [Math.min]. *)
Lemma max_list_Fin (hs : list Q) :
  hs <> [] ->
  exists m : Q, max_list (map Fin hs) = Fin m /\ Forall (fun h => h <= m) hs.
Proof.
  destruct hs as [|x hs]; [congruence|]. intros _.
  unfold max_list. cbn [map fold_left].
  change (max NInf (Fin x)) with (Fin x).
  destruct (fold_max_Fin hs x) as (m & -> & Hx & Hall).
  exists m. split; [reflexivity|]. constructor; assumption.
Qed.

Lemma min_list_Fin (ls : list Q) :
  ls <> [] ->
  exists m : Q, min_list (map Fin ls) = Fin m /\ Forall (fun l => m <= l) ls.
Proof.
  destruct ls as [|x ls]; [congruence|]. intros _.
  unfold min_list. cbn [map fold_left].
  change (min PInf (Fin x)) with (Fin x).
  destruct (fold_min_Fin ls x) as (m & -> & Hx & Hall).
  exists m. split; [reflexivity|]. constructor; assumption.
Qed.

Lemma or_num_denominator (d : Q) :
  0 <= d ->
  exists r : Q, or_num (Fin d) (Fin 1) = Fin r /\ 0 < r /\ (~ d == 0 -> r = d).
Proof.
  intro Hd. unfold or_num, truthy.
  destruct (Qeq_bool d 0) eqn:E; cbn [negb].
  - exists 1. split; [reflexivity|]. split; [lra|].
    intro Hn. apply Qeq_bool_iff in E. contradiction.
  - exists d. split; [reflexivity|]. apply Qeq_bool_false_iff in E.
    split; [lra | reflexivity].
Qed.

Lemma Stochastic_between (hs ls cs : list Q) (l0 h0 : Q) :
  cs <> [] ->
  In l0 ls -> l0 <= nth (List.length cs - 1) cs 0 ->
  In h0 hs -> nth (List.length cs - 1) cs 0 <= h0 ->
  exists k : Q,
    st_k (Stochastic (map Fin hs) (map Fin ls) (map Fin cs)) = Fin k
    /\ st_d (Stochastic (map Fin hs) (map Fin ls) (map Fin cs)) = Fin k
    /\ 0 <= k /\ k <= 100.
Proof.
  intros Hcs Hl Hlc Hh Hch.
  unfold Stochastic. cbv zeta. cbn [st_k st_d].
  destruct (@max_list_Fin hs) as (h & -> & Hhs); [intros ->; contradiction|].
  destruct (@min_list_Fin ls) as (l & -> & Hls); [intros ->; contradiction|].
  rewrite Forall_forall in Hhs, Hls.
  specialize (Hhs _ Hh). specialize (Hls _ Hl). cbv beta in Hhs, Hls.
  rewrite length_map.
  rewrite get_map_Fin by (destruct cs; [congruence | simpl; lia]).
  set (c := nth (List.length cs - 1) cs 0) in *.
  rewrite !sub_Fin.
  destruct (@or_num_denominator (h - l)) as (r & -> & Hr & Hrd); [lra|].
  rewrite div_Fin by lra. rewrite mul_Fin.
  eexists. split; [reflexivity|]. split; [reflexivity|].
  assert (Hq : 0 <= (c - l) / r /\ (c - l) / r <= 1).
  { split.
    - apply Qle_shift_div_l; [exact Hr | lra].
    - apply Qle_shift_div_r; [exact Hr|].
      destruct (Qeq_dec (h - l) 0) as [Hz | Hnz].
      + lra.
      + rewrite (Hrd Hnz). lra. }
  split; lra.
Qed.

(** X17: when the last close of the window is finite and lies between a low
    and a high of the (finite) window, %K is a finite number in [0, 100]
    and %D is the same number. *)
Theorem Stochastic_range (hs ls cs : list Q) (l0 h0 : Q) :
  cs <> [] ->
  In l0 ls -> l0 <= nth (List.length cs - 1) cs 0 ->
  In h0 hs -> nth (List.length cs - 1) cs 0 <= h0 ->
  exists k : Q,
    st_k (Stochastic (map Fin hs) (map Fin ls) (map Fin cs)) = Fin k
    /\ st_d (Stochastic (map Fin hs) (map Fin ls) (map Fin cs)) = Fin k
    /\ 0 <= k /\ k <= 100.
Proof.
  apply Stochastic_between.
Qed.

Lemma Stochastic_range_witness :
  exists k : Q,
    st_k (Stochastic (map Fin [105; 108]) (map Fin [99; 101]) (map Fin [100; 104])) = Fin k
    /\ st_d (Stochastic (map Fin [105; 108]) (map Fin [99; 101]) (map Fin [100; 104])) = Fin k
    /\ 0 <= k /\ k <= 100.
Proof.
  apply (@Stochastic_range [105; 108] [99; 101] [100; 104] 101 108).
  - discriminate.
  - simpl. right. left. reflexivity.
  - simpl. lra.
  - simpl. right. left. reflexivity.
  - simpl. lra.
Defined.

Lemma trueRange_Fin (hs ls cs : list Q) (i : nat) :
  (1 <= i < List.length hs)%nat ->
  List.length ls = List.length hs -> List.length cs = List.length hs ->
  exists t : Q,
    trueRange (map Fin hs) (map Fin ls) (map Fin cs) i = Fin t
    /\ 0 <= t /\ nth i hs 0 - nth i ls 0 <= t.
Proof.
  intros Hi Hl Hc. unfold trueRange.
  rewrite !get_map_Fin by lia.
  rewrite !sub_Fin, !abs_Fin.
  set (a := nth i hs 0 - nth i ls 0).
  set (b := Qabs (nth i hs 0 - nth (i - 1) cs 0)).
  set (c := Qabs (nth i ls 0 - nth (i - 1) cs 0)).
  assert (Hb : 0 <= b) by apply Qabs_nonneg.
  assert (Hc' : 0 <= c) by apply Qabs_nonneg.
  destruct (max_Fin_Fin a b) as [[-> H1] | [-> H1]];
    [destruct (max_Fin_Fin a c) as [[-> H2] | [-> H2]]
    |destruct (max_Fin_Fin b c) as [[-> H2] | [-> H2]]];
    eexists; (split; [reflexivity | split; lra]).
Qed.

Lemma ATR_between (hs ls cs : list Q) :
  (2 <= List.length hs)%nat ->
  List.length ls = List.length hs -> List.length cs = List.length hs ->
  exists a : Q, ATR (map Fin hs) (map Fin ls) (map Fin cs) = Fin a /\ 0 <= a.
Proof.
  intros Hn Hl Hc. unfold ATR. cbv zeta. rewrite length_map.
  assert (Hsum : exists t : Q,
            for_range 1 (List.length hs)
              (fun i atr => (atr + trueRange (map Fin hs) (map Fin ls) (map Fin cs) i)%num)
              (Fin 0) = Fin t /\ 0 <= t).
  { apply (@for_range_invariant num (fun _ acc => exists t : Q, acc = Fin t /\ 0 <= t)).
    - lia.
    - exists 0. split; [reflexivity | lra].
    - intros i acc Hi (t & -> & Ht).
      destruct (@trueRange_Fin hs ls cs i) as (r & -> & Hr & _); [lia | exact Hl | exact Hc |].
      rewrite add_Fin. eexists. split; [reflexivity | lra]. }
  destruct Hsum as (t & -> & Ht).
  assert (Hd : 1 <= inject_Z (Z.of_nat (List.length hs)) - 1).
  { assert (H2 : inject_Z 2 <= inject_Z (Z.of_nat (List.length hs)))
      by (rewrite <- Zle_Qle; lia).
    change (inject_Z 2) with 2 in H2. lra. }
  unfold of_nat. rewrite sub_Fin. rewrite div_Fin by lra.
  eexists. split; [reflexivity|]. apply Qdiv_nonneg; lra.
Qed.

(** X18: over finite highs, lows and closes of one length [n >= 2] the
    average true range is a finite number that is never negative, whatever
    the order of high and low; over a single candle it is 0/0 = NaN. *)
Theorem ATR_nonnegative (hs ls cs : list Q) :
  List.length ls = List.length hs -> List.length cs = List.length hs ->
  ((2 <= List.length hs)%nat ->
   exists a : Q, ATR (map Fin hs) (map Fin ls) (map Fin cs) = Fin a /\ 0 <= a)
  /\ (List.length hs = 1%nat ->
      ATR (map Fin hs) (map Fin ls) (map Fin cs) = NaN).
Proof.
  intros Hl Hc. split.
  - intro Hn. apply ATR_between; assumption.
  - intro Hn. unfold ATR. cbv zeta. rewrite length_map, Hn.
    rewrite for_range_empty by lia. reflexivity.
Qed.

Lemma ATR_nonnegative_witness :
  exists a : Q,
    ATR (map Fin [105; 108; 107]) (map Fin [99; 101; 103]) (map Fin [100; 104; 105])
      = Fin a /\ 0 <= a.
Proof.
  apply (proj1 (@ATR_nonnegative [105; 108; 107] [99; 101; 103] [100; 104; 105]
                  eq_refl eq_refl)).
  simpl. lia.
Defined.

End OscillatorFacts.

(** ** The snapshots of [calculateAll] on well-formed candles *)

Section SnapshotFacts.

Import TechnicalIndicators Spec CandleExamples.
Local Open Scope Q_scope.

Variable Math_sqrt : num -> num.

Lemma slice_map (A B : Type) (f : A -> B) (a b : nat) (xs : list A) :
  slice a b (map f xs) = map f (slice a b xs).
Proof.
  unfold slice. rewrite skipn_map, firstn_map. reflexivity.
Qed.

Lemma slice_length (A : Type) (a b : nat) (xs : list A) :
  (b <= List.length xs)%nat -> List.length (slice a b xs) = (b - a)%nat.
Proof.
  intro H. unfold slice. rewrite length_firstn, length_skipn. lia.
Qed.

Lemma Forall_slice (A : Type) (P : A -> Prop) (a b : nat) (xs : list A) :
  Forall P xs -> Forall P (slice a b xs).
Proof.
  intro H. unfold slice.
  apply (Forall_firstn_skipn (b - a) (proj2 (Forall_firstn_skipn a H))).
Qed.

(** Candles of [candle_within] are the image of a list of rational bars. *)
Lemma candles_as_bars (lo hi : Q) (candles : list Candle) :
  Forall (candle_within lo hi) candles ->
  exists bars : list (Q * Q * Q),
    map c_low candles = map Fin (map bar_low bars)
    /\ map c_close candles = map Fin (map bar_close bars)
    /\ map c_high candles = map Fin (map bar_high bars)
    /\ List.length bars = List.length candles
    /\ Forall (bar_within lo hi) bars.
Proof.
  induction 1 as [|c cs (l & cl & h & Hl & Hc & Hh & H1 & H2 & H3 & H4) _
                   (bars & Els & Ecs & Ehs & Elen & Hbars)].
  - exists []. repeat split. constructor.
  - exists ((l, cl, h) :: bars). cbn [map List.length bar_low bar_close bar_high fst snd].
    rewrite Hl, Hc, Hh, Els, Ecs, Ehs, Elen.
    repeat split. constructor; [|exact Hbars].
    unfold bar_within; cbn [bar_low bar_close bar_high fst snd]. repeat split; assumption.
Qed.

Lemma bars_closes_within (lo hi : Q) (bars : list (Q * Q * Q)) :
  Forall (bar_within lo hi) bars -> all_within lo hi (map bar_close bars).
Proof.
  intro H. unfold all_within. apply Forall_map.
  eapply Forall_impl; [|exact H]. intros b (_ & _ & H3 & H4). split; assumption.
Qed.

(** Every snapshot of the result was built by the loop body at its own
    index. *)
Lemma calculateAll_nth (candles : list Candle) (i : nat) (ind : Indicator) :
  nth_error (calculateAll Math_sqrt candles) i = Some ind ->
  exists c prev,
    nth_error candles i = Some c
    /\ ind = snapshot Math_sqrt candles (map c_close candles) (map c_high candles)
               (map c_low candles) (map c_volume candles) i c prev.
Proof.
  unfold calculateAll.
  destruct (Nat.ltb (List.length candles) 50).
  { destruct i; discriminate. }
  cbv zeta. revert i ind.
  assert (H : (fun (k : nat) (acc : list Indicator) =>
            List.length acc = k
            /\ forall i ind, nth_error acc i = Some ind ->
                 exists c prev,
                   nth_error candles i = Some c
                   /\ ind = snapshot Math_sqrt candles (map c_close candles)
                              (map c_high candles) (map c_low candles)
                              (map c_volume candles) i c prev)
            (List.length candles)
            (for_range 0 (List.length candles)
               (fun i indicators =>
                  match nth_error candles i with
                  | Some c =>
                      indicators ++
                        [snapshot Math_sqrt candles (map c_close candles)
                           (map c_high candles) (map c_low candles)
                           (map c_volume candles) i c indicators]
                  | None => indicators
                  end) [])).
  { apply for_range_invariant; [lia | |].
    - split; [reflexivity|]. intros i ind Hi. destruct i; discriminate.
    - intros k acc Hk [Hlen Hacc].
      destruct (nth_error candles k) as [c|] eqn:Hc.
      2:{ apply nth_error_None in Hc. lia. }
      split; [rewrite length_app; simpl; lia|].
      intros i ind Hi.
      destruct (Nat.lt_ge_cases i k) as [Hlt | Hge].
      + rewrite nth_error_app1 in Hi by lia. apply Hacc. exact Hi.
      + rewrite nth_error_app2 in Hi by lia. rewrite Hlen in Hi.
        destruct (i - k)%nat as [|d] eqn:Hd.
        * assert (i = k) by lia. subst i. cbn in Hi. injection Hi as <-.
          exists c, acc. split; [exact Hc | reflexivity].
        * cbn in Hi. destruct d; discriminate. }
  exact (proj2 H).
Qed.

Lemma finite_between_when (lo hi : Q) (b : bool) (v : num) :
  (b = true -> exists q : Q, v = Fin q /\ lo <= q /\ q <= hi) ->
  finite_between lo hi (when b v).
Proof.
  intros H x Hx. destruct b; [|discriminate].
  cbn in Hx. injection Hx as <-. apply H. reflexivity.
Qed.

Section OneSnapshot.

Variables lo hi : Q.
Variable candles : list Candle.
Variable bars : list (Q * Q * Q).
Hypothesis Els : map c_low candles = map Fin (map bar_low bars).
Hypothesis Ecs : map c_close candles = map Fin (map bar_close bars).
Hypothesis Ehs : map c_high candles = map Fin (map bar_high bars).
Hypothesis Elen : List.length bars = List.length candles.
Hypothesis Hbars : Forall (bar_within lo hi) bars.

Variable i : nat.
Hypothesis Hi : (i < List.length candles)%nat.

Lemma window_closes (a : nat) :
  slice a (i + 1) (map c_close candles)
    = map Fin (map bar_close (slice a (i + 1) bars)).
Proof. rewrite Ecs, !slice_map. reflexivity. Qed.

Lemma window_highs (a : nat) :
  slice a (i + 1) (map c_high candles)
    = map Fin (map bar_high (slice a (i + 1) bars)).
Proof. rewrite Ehs, !slice_map. reflexivity. Qed.

Lemma window_lows (a : nat) :
  slice a (i + 1) (map c_low candles)
    = map Fin (map bar_low (slice a (i + 1) bars)).
Proof. rewrite Els, !slice_map. reflexivity. Qed.

Lemma window_length (a : nat) :
  List.length (slice a (i + 1) bars) = (i + 1 - a)%nat.
Proof. apply slice_length. lia. Qed.

Lemma window_within (a : nat) :
  all_within lo hi (map bar_close (slice a (i + 1) bars)).
Proof. apply bars_closes_within. apply Forall_slice. exact Hbars. Qed.

Lemma window_EMA (period : nat) :
  (1 <= period)%nat ->
  Nat.leb period i = true ->
  exists q : Q, EMA (slice 0 (i + 1) (map c_close candles)) period = Fin q
                /\ lo <= q /\ q <= hi.
Proof.
  intros Hp Hle. apply Nat.leb_le in Hle. rewrite window_closes.
  apply EMA_between; [|apply window_within].
  rewrite length_map, window_length. lia.
Qed.

Lemma window_SMA (n : nat) :
  exists q : Q, SMA (slice (i - n) (i + 1) (map c_close candles)) = Fin q
                /\ lo <= q /\ q <= hi.
Proof.
  rewrite window_closes.
  apply SMA_between; [|apply window_within].
  intro E. apply (f_equal (@List.length Q)) in E.
  rewrite length_map, window_length in E. simpl in E. lia.
Qed.

Lemma window_RSI :
  Nat.leb 14 i = true ->
  exists q : Q, RSI (slice (i - 14) (i + 1) (map c_close candles)) 14 = Fin q
                /\ 0 <= q /\ q <= 100.
Proof.
  intro Hle. apply Nat.leb_le in Hle. rewrite window_closes.
  destruct (@RSI_finite_series (map bar_close (slice (i - 14) (i + 1) bars)) 14)
    as (r & -> & [H0 H100] & _).
  - lia.
  - rewrite length_map, window_length. lia.
  - exists r. split; [reflexivity|]. split; lra.
Qed.

Lemma window_Stochastic :
  Nat.leb 14 i = true ->
  exists k : Q,
    st_k (Stochastic (slice (i - 13) (i + 1) (map c_high candles))
                     (slice (i - 13) (i + 1) (map c_low candles))
                     (slice (i - 13) (i + 1) (map c_close candles))) = Fin k
    /\ st_d (Stochastic (slice (i - 13) (i + 1) (map c_high candles))
                        (slice (i - 13) (i + 1) (map c_low candles))
                        (slice (i - 13) (i + 1) (map c_close candles))) = Fin k
    /\ 0 <= k /\ k <= 100.
Proof.
  intro Hle. apply Nat.leb_le in Hle.
  rewrite window_closes, window_highs, window_lows.
  set (w := slice (i - 13) (i + 1) bars).
  assert (Hlen : List.length w = 14%nat) by (unfold w; rewrite window_length; lia).
  set (b := nth (List.length w - 1) w (0, 0, 0)).
  assert (Hin : In b w) by (apply nth_In; lia).
  assert (Hb : bar_within lo hi b).
  { assert (Hw : Forall (bar_within lo hi) w) by (apply Forall_slice; exact Hbars).
    rewrite Forall_forall in Hw. apply Hw. exact Hin. }
  destruct Hb as (H1 & H2 & _).
  assert (Hlast : nth (List.length (map bar_close w) - 1) (map bar_close w) 0 = bar_close b).
  { rewrite length_map. change 0 with (bar_close (0, 0, 0)). apply map_nth. }
  apply (@Stochastic_between _ _ _ (bar_low b) (bar_high b)).
  - intro E. apply (f_equal (@List.length Q)) in E. rewrite length_map, Hlen in E.
    discriminate.
  - apply in_map. exact Hin.
  - rewrite Hlast. exact H1.
  - apply in_map. exact Hin.
  - rewrite Hlast. exact H2.
Qed.

Lemma window_ATR :
  Nat.leb 14 i = true ->
  exists a : Q,
    ATR (slice (i - 13) (i + 1) (map c_high candles))
        (slice (i - 13) (i + 1) (map c_low candles))
        (slice (i - 13) (i + 1) (map c_close candles)) = Fin a /\ 0 <= a.
Proof.
  intro Hle. apply Nat.leb_le in Hle.
  rewrite window_closes, window_highs, window_lows.
  apply ATR_between; rewrite !length_map; [rewrite window_length; lia | reflexivity..].
Qed.

Lemma window_MACD :
  (i < 34)%nat ->
  m_signal (MACD (slice 0 (i + 1) (map c_close candles)))
    = m_macd (MACD (slice 0 (i + 1) (map c_close candles)))
  /\ (m_histogram (MACD (slice 0 (i + 1) (map c_close candles))) ≈ Fin 0)%num.
Proof.
  intro Hlt. rewrite window_closes.
  destruct (@MACD_signal_short (map bar_close (slice 0 (i + 1) bars)))
    as (v & h & -> & -> & -> & Hh).
  - rewrite length_map, window_length. lia.
  - split; [reflexivity | exact Hh].
Qed.

Lemma snapshot_is_sane (c : Candle) (prev : list Indicator) :
  snapshot_sane lo hi
    (snapshot Math_sqrt candles (map c_close candles) (map c_high candles)
       (map c_low candles) (map c_volume candles) i c prev).
Proof.
  unfold snapshot_sane, atr_usable, snapshot. cbv zeta.
  cbn [ema9 ema20 ema50 sma20 sma50 sma200 bollingerMiddle rsi stochK stochD atr
       b_middle BollingerBands].
  repeat match goal with |- _ /\ _ => split end.
  - apply finite_between_when. apply window_EMA. lia.
  - apply finite_between_when. apply window_EMA. lia.
  - apply finite_between_when. apply window_EMA. lia.
  - apply finite_between_when. intros _. apply window_SMA.
  - apply finite_between_when. intros _. apply window_SMA.
  - apply finite_between_when. intros _. apply window_SMA.
  - apply finite_between_when. intros _. apply (window_SMA 19).
  - apply finite_between_when. apply window_RSI.
  - apply finite_between_when. intro E.
    destruct (window_Stochastic E) as (k & Hk & _ & H0 & H100).
    exists k. split; [exact Hk | split; assumption].
  - destruct (Nat.leb 14 i) eqn:E; [|reflexivity]. cbn [when].
    destruct (window_Stochastic E) as (k & -> & -> & _). reflexivity.
  - destruct (Nat.leb 14 i) eqn:E; [|left; reflexivity].
    right. cbn [when]. destruct (window_ATR E) as (a & -> & Ha).
    exists a. split; [reflexivity | exact Ha].
Qed.

Lemma snapshot_macd_trivial (c : Candle) (prev : list Indicator) :
  (i < 34)%nat ->
  macd_signal_trivial
    (snapshot Math_sqrt candles (map c_close candles) (map c_high candles)
       (map c_low candles) (map c_volume candles) i c prev).
Proof.
  intro Hlt. unfold macd_signal_trivial, snapshot. cbv zeta.
  cbn [macd macdSignal macdHistogram].
  destruct (window_MACD Hlt) as [Hs Hh]. split.
  - rewrite Hs. reflexivity.
  - intros h Hx. destruct (Nat.leb 26 i); [|discriminate].
    cbn in Hx. injection Hx as <-. exact Hh.
Qed.

End OneSnapshot.


End SnapshotFacts.

Lemma candles50_within :
  Forall (Spec.candle_within 100 149) CandleExamples.candles50.
Proof.
  unfold CandleExamples.candles50. apply Forall_map. apply Forall_forall.
  intros n Hn. apply in_seq in Hn.
  exists (inject_Z (Z.of_nat (100 + n))), (inject_Z (Z.of_nat (100 + n))),
         (inject_Z (Z.of_nat (100 + n))).
  repeat split; try apply Qle_refl.
  - change 100%Q with (inject_Z 100). rewrite <- Zle_Qle. lia.
  - change 149%Q with (inject_Z 149). rewrite <- Zle_Qle. lia.
Qed.


Lemma candles50_snapshot_30 :
  exists ind,
    nth_error (TechnicalIndicators.calculateAll (fun x => x) CandleExamples.candles50) 30
      = Some ind.
Proof.
  destruct (@calculateAll_long (fun x => x) CandleExamples.candles50) as [Hlen _].
  - cbn. lia.
  - destruct (nth_error _ 30) as [ind|] eqn:E; [now exists ind|].
    apply nth_error_None in E. rewrite Hlen in E. cbn in E. lia.
Qed.


(** * Strategies that cannot fire, and the stop of a pattern trade *)

Section StrategyEdges.

Import TradeSetupDetector Spec CandleExamples MarketExamples.
Local Open Scope Q_scope.

(** X21: the breakout strategy compares the last close with the highest
    high and the lowest low of the last 20 candles, the last candle
    included: when that candle is well formed (low <= close <= high, close
    positive) neither test can hold, so detectBreakout returns null for
    every snapshot and pattern list, and analyzeMarket returns no BREAKOUT
    setup. *)
Theorem detectBreakout_never_fires
    (self : Detector) (now : Z) (candles : list Candle) (c : Candle) :
  last_opt candles = Some c ->
  well_formed_candle c ->
  (forall indicator patterns,
     detectBreakout self now candles indicator patterns = Return None)
  /\ (forall indicators patterns prediction rg det setups,
        analyzeMarket self now candles indicators patterns prediction rg
          = Return (det, setups) ->
        Forall (fun s => s_type s <> "BREAKOUT") setups).
Proof.
  intros Hc Hwf. split.
  - intros indicator patterns. apply (@detectBreakout_none self now candles c); assumption.
  - intros indicators patterns prediction rg det setups H.
    destruct (@analyzeMarket_inv _ _ _ _ _ _ _ _ _ H)
      as (c' & latest & t & b & d & _ & _ & Ht & Hb & Hd & Hs & _).
    rewrite (@detectBreakout_none self now candles c latest patterns Hc Hwf) in Hb.
    injection Hb as <-.
    rewrite Hs. apply Forall_forall. intros s Hin.
    apply array_sort_In in Hin. apply filter_In in Hin. destruct Hin as [Hin _].
    apply candidates_In in Hin.
    destruct Hin as [-> | [Hm | [Hb | [Hp | ->]]]].
    + destruct (@detectTrendFollowing_tag self now _ _ _ _ _ Ht) as [-> _]. discriminate.
    + destruct (@detectMeanReversion_tag self now _ _ _ _ Hm) as [-> _]. discriminate.
    + discriminate Hb.
    + destruct (@detectPatternTrade_tag self now _ _ _ _ Hp) as [-> _]. discriminate.
    + destruct (@detectDivergenceTrade_tag now _ _ _ Hd) as [-> _]. discriminate.
Qed.

Lemma detectBreakout_never_fires_witness :
  detectBreakout constructor 0%Z candles1 oversold [double_bottom] = Return None.
Proof.
  apply (proj1 (@detectBreakout_never_fires constructor 0%Z candles1 (flat 0 100)
                  eq_refl
                  (ex_intro _ 100 (ex_intro _ 100 (ex_intro _ 100
                     (conj eq_refl (conj eq_refl (conj eq_refl
                        (conj eq_refl (conj (Qle_refl 100) (Qle_refl 100))))))))))).
Defined.

(** X22: a pattern trade copies the direction of the most confident
    pattern as the pattern engine names it and takes that pattern's target;
    its entry is the pattern's level, or the snapshot's price when the
    pattern has no level, but its stop is computed from the level without
    that fallback: for a pattern without a level the entry is the price and
    the stop is NaN. *)
Theorem detectPatternTrade_stop_without_level
    (self : Detector) (now : Z) (patterns : list Pattern) (indicator : Indicator)
    (prediction : option Prediction) (s : TradeSetup) :
  detectPatternTrade self now patterns indicator prediction = Some s ->
  exists first rest,
    patterns = first :: rest
    /\ direction s = p_direction (bestOf first rest)
    /\ takeProfit s = to_num (p_target (bestOf first rest))
    /\ entry s = or_else (p_level (bestOf first rest)) (price indicator)
    /\ (p_level (bestOf first rest) = None ->
        entry s = price indicator /\ stopLoss s = NaN).
Proof.
  unfold detectPatternTrade. destruct patterns as [|first rest]; [discriminate|].
  destruct (_ <? _)%num; [discriminate|].
  break_lets.
  destruct (truthy_opt _); [|discriminate].
  intros [= <-]. cbn [direction takeProfit entry stopLoss].
  exists first, rest. repeat split.
  - rewrite H. reflexivity.
  - rewrite H. destruct (String.eqb _ _); reflexivity.
Qed.

Lemma detectPatternTrade_stop_without_level_witness :
  exists s,
    detectPatternTrade constructor 0%Z [head_and_shoulders] oversold None = Some s
    /\ direction s = "BEARISH"
    /\ entry s = Fin 100
    /\ stopLoss s = NaN.
Proof.
  eexists. split; [vm_compute; reflexivity|].
  destruct (@detectPatternTrade_stop_without_level constructor 0%Z [head_and_shoulders]
              oversold None _ eq_refl)
    as (first & rest & Hp & Hdir & _ & _ & Hnone).
  injection Hp as <- <-.
  split; [exact Hdir|]. apply Hnone. reflexivity.
Defined.

End StrategyEdges.

(** * Closed-form levels, money flow and the trailing stop *)

Section LevelFacts.

Import TechnicalIndicators Spec.
Local Open Scope Q_scope.





Lemma nth_map_seq (f : nat -> num) (n i : nat) :
  (i < n)%nat -> nth i (map f (seq 0 n)) NaN = f i.
Proof.
  intro Hi.
  rewrite (nth_indep (map f (seq 0 n)) NaN (f 0%nat))
    by (rewrite length_map, length_seq; exact Hi).
  rewrite (map_nth f). rewrite seq_nth by exact Hi. reflexivity.
Qed.

Lemma nonneg_nth (xs : list Q) (i : nat) :
  Forall (fun x => 0 <= x) xs -> 0 <= nth i xs 0.
Proof.
  intro H. destruct (Nat.lt_ge_cases i (List.length xs)) as [Hi | Hi].
  - rewrite Forall_forall in H. apply H. apply nth_In. exact Hi.
  - rewrite nth_overflow by exact Hi. apply Qle_refl.
Qed.

(** X26: over finite, non-negative highs, lows, closes and volumes of one
    length the money flow index is a finite number in [0, 100]. *)
Theorem MFI_range (hs ls cs vs : list Q) (period : nat) :
  List.length hs = List.length cs ->
  List.length ls = List.length cs ->
  List.length vs = List.length cs ->
  Forall (fun x => 0 <= x) hs -> Forall (fun x => 0 <= x) ls ->
  Forall (fun x => 0 <= x) cs -> Forall (fun x => 0 <= x) vs ->
  exists m : Q,
    MFI (map Fin hs) (map Fin ls) (map Fin cs) (map Fin vs) period = Fin m
    /\ 0 <= m /\ m <= 100.
Proof.
  intros Hh Hl Hv Ph Pl Pc Pv. unfold MFI. cbv zeta.
  set (tp := typicalPrices (map Fin hs) (map Fin ls) (map Fin cs)).
  assert (Hlen : List.length tp = List.length cs).
  { unfold tp, typicalPrices. rewrite length_map, length_seq, length_map. reflexivity. }
  assert (Htp : forall i, (i < List.length cs)%nat ->
                  exists q : Q, get tp i = Fin q /\ 0 <= q).
  { intros i Hi. unfold tp, typicalPrices, get at 1.
    rewrite length_map. rewrite nth_map_seq by exact Hi.
    rewrite !get_map_Fin by lia. rewrite !add_Fin. rewrite div_Fin by lra.
    eexists. split; [reflexivity|].
    apply Qle_shift_div_l; [lra|].
    pose proof (nonneg_nth i Ph). pose proof (nonneg_nth i Pl).
    pose proof (nonneg_nth i Pc). lra. }
  assert (Hflows : exists p n : Q,
            for_range 1 (Nat.min (period + 1) (List.length tp))
              (fun i '(positiveFlow, negativeFlow) =>
                 if (get tp i >? get tp (i - 1))%num
                 then ((positiveFlow + get tp i * get (map Fin vs) i)%num, negativeFlow)
                 else (positiveFlow, (negativeFlow + get tp i * get (map Fin vs) i)%num))
              (Fin 0, Fin 0) = (Fin p, Fin n)
            /\ 0 <= p /\ 0 <= n).
  { destruct (Nat.le_gt_cases 1 (Nat.min (period + 1) (List.length tp))) as [H1 | H1].
    - apply (@for_range_invariant (num * num)
               (fun _ acc => exists p n : Q, acc = (Fin p, Fin n) /\ 0 <= p /\ 0 <= n)).
      + exact H1.
      + exists 0, 0. split; [reflexivity|]. split; apply Qle_refl.
      + intros i acc Hi (p & n & -> & Hp & Hn).
        destruct (Htp i) as (q & -> & Hq); [lia|].
        rewrite get_map_Fin by lia. rewrite mul_Fin.
        assert (Hm : 0 <= q * nth i vs 0)
          by (apply Qmult_le_0_compat; [exact Hq | apply nonneg_nth; exact Pv]).
        destruct (_ >? _)%num; rewrite add_Fin;
          eexists; eexists; (split; [reflexivity|]); split; lra.
    - rewrite for_range_empty by lia.
      exists 0, 0. split; [reflexivity|]. split; apply Qle_refl. }
  destruct Hflows as (p & n & -> & Hp & Hn).
  destruct (@or_num_denominator n Hn) as (d & -> & Hd & _).
  rewrite div_Fin by lra. rewrite add_Fin.
  assert (Hx : 0 <= p / d) by (apply Qdiv_nonneg; assumption).
  rewrite div_Fin by lra. rewrite sub_Fin.
  eexists. split; [reflexivity|].
  assert (H0 : 0 < 100 / (1 + p / d)) by (apply Qdiv_pos; lra).
  assert (H1 : 100 / (1 + p / d) <= 100) by (apply Qle_shift_div_r; lra).
  split; lra.
Qed.

Lemma MFI_range_witness :
  exists m : Q,
    MFI (map Fin [105; 108; 107]) (map Fin [99; 101; 103]) (map Fin [100; 104; 105])
        (map Fin [10; 12; 8]) 14 = Fin m
    /\ 0 <= m /\ m <= 100.
Proof.
  apply (@MFI_range [105; 108; 107] [99; 101; 103] [100; 104; 105] [10; 12; 8] 14);
    try reflexivity; repeat constructor; discriminate.
Defined.

End LevelFacts.

Section TrailingStopFacts.

Import RiskCalculator.
Local Open Scope Q_scope.

(** X25: with finite prices and a non-negative ATR the trailing stop is
    moved exactly when the price has run more than twice the ATR beyond the
    entry (above it for LONG, below it for any other direction), and the
    stop that is then proposed lies beyond the entry on the side of the
    profit, so moving it locks a gain. *)
Theorem calculateTrailingStop_moves (e p a : Q) (direction_ : string) :
  0 <= a ->
  exists t : Q,
    trailingStop (calculateTrailingStop (Fin e) (Fin p) direction_ (Fin a)) = Fin t
    /\ (direction_ = "LONG" ->
        (shouldMove (calculateTrailingStop (Fin e) (Fin p) direction_ (Fin a)) = true
         <-> e + a * 2 < p)
        /\ (shouldMove (calculateTrailingStop (Fin e) (Fin p) direction_ (Fin a)) = true
            -> e < t /\ t <= p))
    /\ (direction_ <> "LONG" ->
        (shouldMove (calculateTrailingStop (Fin e) (Fin p) direction_ (Fin a)) = true
         <-> p + a * 2 < e)
        /\ (shouldMove (calculateTrailingStop (Fin e) (Fin p) direction_ (Fin a)) = true
            -> t < e /\ p <= t)).
Proof.
  intro Ha. unfold calculateTrailingStop. cbv zeta.
  destruct (String.eqb direction_ "LONG") eqn:E.
  - apply String.eqb_eq in E. cbn [trailingStop shouldMove].
    rewrite mul_Fin, sub_Fin. eexists. split; [reflexivity|].
    split; [|intro H; contradiction]. intros _.
    unfold gtb. rewrite Bool.andb_true_iff, !ltb_Fin.
    split; [split; [intros [H1 H2] | intro H; split]; lra | intros [H1 H2]; lra].
  - apply String.eqb_neq in E. cbn [trailingStop shouldMove].
    rewrite mul_Fin, add_Fin. eexists. split; [reflexivity|].
    split; [intro H; contradiction|]. intros _.
    rewrite Bool.andb_true_iff, !ltb_Fin.
    split; [split; [intros [H1 H2] | intro H; split]; lra | intros [H1 H2]; lra].
Qed.

Lemma calculateTrailingStop_moves_witness :
  exists t : Q,
    trailingStop (calculateTrailingStop (Fin 100) (Fin 110) "LONG" (Fin 2)) = Fin t
    /\ shouldMove (calculateTrailingStop (Fin 100) (Fin 110) "LONG" (Fin 2)) = true
    /\ 100 < t /\ t <= 110.
Proof.
  destruct (@calculateTrailingStop_moves 100 110 2 "LONG") as (t & Ht & Hlong & _).
  - discriminate.
  - exists t. split; [exact Ht|].
    destruct (Hlong eq_refl) as [Hiff Hlock].
    assert (Hm : shouldMove (calculateTrailingStop (Fin 100) (Fin 110) "LONG" (Fin 2)) = true)
      by (apply Hiff; reflexivity).
    split; [exact Hm | apply Hlock; exact Hm].
Defined.

End TrailingStopFacts.

(** * Peaks and troughs are strict and apart *)

Section SwingStrict.

Import TechnicalIndicators PatternRecognition.
Local Open Scope Q_scope.

(** A scan that clears its flag at the first index that passes [test]
    leaves the flag set exactly when no index of the range passes. *)
Lemma scan_fold (test : nat -> bool) (l : list nat) (acc : bool) :
  fold_left (fun (a : bool) (j : nat) => if a && test j then false else a) l acc
    = acc && forallb (fun j => negb (test j)) l.
Proof.
  revert acc. induction l as [|j l IH]; intro acc.
  - simpl. now rewrite Bool.andb_true_r.
  - cbn [fold_left forallb]. rewrite IH.
    destruct acc, (test j); reflexivity.
Qed.

Lemma scan_clear (test : nat -> bool) (lo hi : nat) :
  for_range lo hi (fun j a => if a && test j then false else a) true = true ->
  forall j, (lo <= j < hi)%nat -> test j = false.
Proof.
  unfold for_range. rewrite scan_fold. cbn [andb].
  intros H j Hj. rewrite forallb_forall in H.
  apply Bool.negb_true_iff. apply H. apply in_seq. lia.
Qed.

Lemma isPeak_strict (xs : list Q) (period i j : nat) :
  (i + period < List.length xs)%nat ->
  isPeak (map Fin xs) period i = true ->
  (i - period <= j <= i + period)%nat -> j <> i ->
  nth j xs 0 < nth i xs 0.
Proof.
  intros Hi Hp Hj Hne. unfold isPeak in Hp.
  pose proof (@scan_clear
                (fun k => negb (Nat.eqb k i)
                          && (get (map Fin xs) k >=? get (map Fin xs) i)%num)
                _ _ Hp j ltac:(lia)) as H.
  cbv beta in H.
  apply Nat.eqb_neq in Hne. rewrite Hne in H. cbn [negb andb] in H.
  rewrite !get_map_Fin in H by lia.
  destruct (Qlt_le_dec (nth j xs 0) (nth i xs 0)) as [Hlt | Hge]; [exact Hlt|].
  apply geb_Fin in Hge. rewrite Hge in H. discriminate H.
Qed.

Lemma isTrough_strict (xs : list Q) (period i j : nat) :
  (i + period < List.length xs)%nat ->
  isTrough (map Fin xs) period i = true ->
  (i - period <= j <= i + period)%nat -> j <> i ->
  nth i xs 0 < nth j xs 0.
Proof.
  intros Hi Hp Hj Hne. unfold isTrough in Hp.
  pose proof (@scan_clear
                (fun k => negb (Nat.eqb k i)
                          && (get (map Fin xs) k <=? get (map Fin xs) i)%num)
                _ _ Hp j ltac:(lia)) as H.
  cbv beta in H.
  apply Nat.eqb_neq in Hne. rewrite Hne in H. cbn [negb andb] in H.
  rewrite !get_map_Fin in H by lia.
  destruct (Qlt_le_dec (nth i xs 0) (nth j xs 0)) as [Hlt | Hge]; [exact Hlt|].
  apply leb_Fin in Hge. rewrite Hge in H. discriminate H.
Qed.

Lemma findPeaks_In (data : list num) (period : nat) (p : Extremum) :
  In p (findPeaks data period) ->
  (period <= index p)%nat /\ (index p + period < List.length data)%nat
  /\ isPeak data period (index p) = true.
Proof.
  rewrite findPeaks_spec. intro H.
  apply in_map_iff in H. destruct H as (i & <- & Hi).
  apply filter_In in Hi. destruct Hi as [Hi Hp]. apply in_seq in Hi.
  cbn [index]. repeat split; [lia | lia | exact Hp].
Qed.

Lemma findTroughs_In (data : list num) (period : nat) (p : Extremum) :
  In p (findTroughs data period) ->
  (period <= index p)%nat /\ (index p + period < List.length data)%nat
  /\ isTrough data period (index p) = true.
Proof.
  rewrite findTroughs_spec. intro H.
  apply in_map_iff in H. destruct H as (i & <- & Hi).
  apply filter_In in Hi. destruct Hi as [Hi Hp]. apply in_seq in Hi.
  cbn [index]. repeat split; [lia | lia | exact Hp].
Qed.

(** X27: on a finite series every reported peak is strictly above, and
    every reported trough strictly below, each other value within [period]
    positions on either side; hence two peaks (or two troughs) are always
    more than [period] positions apart. *)
Theorem findPeaks_strict_and_apart (xs : list Q) (period : nat) :
  (forall p j, In p (findPeaks (map Fin xs) period) ->
     (index p - period <= j <= index p + period)%nat -> j <> index p ->
     nth j xs 0 < nth (index p) xs 0)
  /\ (forall p j, In p (findTroughs (map Fin xs) period) ->
        (index p - period <= j <= index p + period)%nat -> j <> index p ->
        nth (index p) xs 0 < nth j xs 0)
  /\ (forall p q, In p (findPeaks (map Fin xs) period) ->
        In q (findPeaks (map Fin xs) period) ->
        (index p < index q)%nat -> (index p + period < index q)%nat)
  /\ (forall p q, In p (findTroughs (map Fin xs) period) ->
        In q (findTroughs (map Fin xs) period) ->
        (index p < index q)%nat -> (index p + period < index q)%nat).
Proof.
  assert (Hpk : forall p j, In p (findPeaks (map Fin xs) period) ->
            (index p - period <= j <= index p + period)%nat -> j <> index p ->
            nth j xs 0 < nth (index p) xs 0).
  { intros p j Hp Hj Hne. apply findPeaks_In in Hp.
    destruct Hp as (_ & Hhi & Hp). rewrite length_map in Hhi.
    eapply isPeak_strict; eassumption. }
  assert (Htr : forall p j, In p (findTroughs (map Fin xs) period) ->
            (index p - period <= j <= index p + period)%nat -> j <> index p ->
            nth (index p) xs 0 < nth j xs 0).
  { intros p j Hp Hj Hne. apply findTroughs_In in Hp.
    destruct Hp as (_ & Hhi & Hp). rewrite length_map in Hhi.
    eapply isTrough_strict; eassumption. }
  split; [exact Hpk|]. split; [exact Htr|]. split.
  - intros p q Hp Hq Hlt.
    destruct (Nat.lt_ge_cases (index p + period) (index q)) as [H | H]; [exact H|].
    exfalso.
    pose proof (Hpk p (index q) Hp ltac:(lia) ltac:(lia)) as H1.
    pose proof (Hpk q (index p) Hq ltac:(lia) ltac:(lia)) as H2.
    lra.
  - intros p q Hp Hq Hlt.
    destruct (Nat.lt_ge_cases (index p + period) (index q)) as [H | H]; [exact H|].
    exfalso.
    pose proof (Htr p (index q) Hp ltac:(lia) ltac:(lia)) as H1.
    pose proof (Htr q (index p) Hq ltac:(lia) ltac:(lia)) as H2.
    lra.
Qed.

Lemma findPeaks_strict_and_apart_witness :
  nth 4 [1; 2; 3; 4; 5; 9; 5; 4; 3; 2; 1; 0] 0 < nth 5 [1; 2; 3; 4; 5; 9; 5; 4; 3; 2; 1; 0] 0.
Proof.
  apply (proj1 (findPeaks_strict_and_apart [1; 2; 3; 4; 5; 9; 5; 4; 3; 2; 1; 0] 5)
           {| index := 5; value := Fin 9 |} 4%nat).
  - vm_compute. left. reflexivity.
  - cbn. lia.
  - discriminate.
Defined.

End SwingStrict.
